(** * NABIMFD: the Mapper (map.py) and the Sequencer (orchestrator.py)

    A shallow embedding of the data transformation of [map.py] and of the
    exit-status logic of [orchestrator.py], with the properties of the
    specification stated and settled against it.

    Modelling conventions.
    - A Python [str] is a Rocq [string], one character per code point; the
      texts covered are those whose code points lie below 256. Whitespace
      ([str.isspace], [str.strip], the [\s] of [re]) is what Python takes
      as such in that range; the case mappings are applied to texts that
      are compared with ASCII literals only, where the mapping of the ASCII
      letters decides.
    - A [dict] whose iteration order matters ([COUNTRY_CODES],
      [exact_matches]) is an association list in insertion order.
    - [data_row] is a [list cell] updated by index.
    - A DataFrame is the list of its rows together with what decides
      whether [Series.str] accepts a column; a cell is [option string]:
      [None] is NaN, [Some s] a value whose [str()] is [s].
    - A Python [float] is a binary64 value: sign, odd integer significand
      and binary exponent, or an infinity, or NaN; [float(str)] rounds the
      decimal literal to the nearest such value, ties to even.
    - The wall clock ([datetime.now()]) is a parameter [now], already
      formatted as YYYY-MM.
    - Code that can raise is modelled in the [Exc] monad; [try]/[except]
      is [catch]. *)

From Stdlib Require Import Ascii String ZArith NArith Lia Bool.
From Stdlib Require Import DecimalString DecimalPos DecimalN.
From stdpp Require Import base list strings.

Local Open Scope stdpp_scope.

(** stdpp keeps [simpl] from unfolding string concatenation; the texts
    below are built with it, so it is let through again. *)
#[local] Arguments String.append !s1 s2 : simpl nomatch.

(* ===================================================================== *)
(** ** Python string primitives                                           *)
(* ===================================================================== *)

Module PyStr.

Definition code (c : ascii) : nat := nat_of_ascii c.

Definition isupper (c : ascii) : bool := (65 <=? code c)%nat && (code c <=? 90)%nat.
Definition islower (c : ascii) : bool := (97 <=? code c)%nat && (code c <=? 122)%nat.
Definition isdigit (c : ascii) : bool := (48 <=? code c)%nat && (code c <=? 57)%nat.

(** [str.isspace], [str.strip] and the [\s] of [re] agree: below 256 the
    whitespace characters are TAB, LF, VT, FF, CR, the separators
    0x1c..0x1f, the space, NEL (0x85) and the no-break space (0xa0). *)
Definition isspace (c : ascii) : bool :=
  ((9 <=? code c)%nat && (code c <=? 13)%nat)
  || ((28 <=? code c)%nat && (code c <=? 32)%nat)
  || (code c =? 133)%nat || (code c =? 160)%nat.

Definition to_lower (c : ascii) : ascii :=
  if isupper c then ascii_of_nat (code c + 32) else c.
Definition to_upper (c : ascii) : ascii :=
  if islower c then ascii_of_nat (code c - 32) else c.

Fixpoint map_chars (f : ascii -> ascii) (s : string) : string :=
  match s with
  | EmptyString => EmptyString
  | String c s' => String (f c) (map_chars f s')
  end.

(** [s.lower()] and [s.upper()] *)
Definition lower : string -> string := map_chars to_lower.
Definition upper : string -> string := map_chars to_upper.

Definition is_empty (s : string) : bool :=
  match s with EmptyString => true | _ => false end.

Fixpoint lstrip (s : string) : string :=
  match s with
  | String c s' => if isspace c then lstrip s' else s
  | EmptyString => EmptyString
  end.

Fixpoint rstrip (s : string) : string :=
  match s with
  | String c s' =>
      let r := rstrip s' in
      if isspace c && is_empty r then EmptyString else String c r
  | EmptyString => EmptyString
  end.

(** [s.strip()] *)
Definition strip (s : string) : string := rstrip (lstrip s).

(** [s.replace(c, '')] for a one-character [c] *)
Fixpoint remove_char (c : ascii) (s : string) : string :=
  match s with
  | String d s' => if Ascii.eqb c d then remove_char c s' else String d (remove_char c s')
  | EmptyString => EmptyString
  end.

Fixpoint startswith (p s : string) : bool :=
  match p, s with
  | EmptyString, _ => true
  | String a p', String b s' => Ascii.eqb a b && startswith p' s'
  | String _ _, EmptyString => false
  end.

(** [sub in s] *)
Fixpoint contains (sub s : string) : bool :=
  startswith sub s ||
  match s with
  | String _ s' => contains sub s'
  | EmptyString => false
  end.

(** [s.replace(old, new)] for a non-empty [old]: occurrences are replaced
    from the left and do not overlap; [skip] counts the characters of an
    occurrence still to be dropped. *)
Fixpoint replace_go (old new : string) (skip : nat) (s : string) : string :=
  match s with
  | EmptyString => EmptyString
  | String c s' =>
      match skip with
      | S k => replace_go old new k s'
      | O =>
          if startswith old s
          then new +:+ replace_go old new (String.length old - 1) s'
          else String c (replace_go old new 0 s')
      end
  end.
Definition replace (old new s : string) : string := replace_go old new 0 s.

(** [s[:n]] *)
Fixpoint take (n : nat) (s : string) : string :=
  match n, s with
  | S k, String c s' => String c (take k s')
  | _, _ => EmptyString
  end.

(** [x in l] for a list of strings *)
Definition mem (x : string) (l : list string) : bool :=
  existsb (String.eqb x) l.

(** [l.index(x)]: the first position of [x], [None] where Python raises
    [ValueError] *)
Fixpoint index (x : string) (l : list string) : option nat :=
  match l with
  | [] => None
  | y :: l' => if String.eqb x y then Some 0%nat else S <$> index x l'
  end.

(** [d.get(k)] / [k in d] / [d[k]] on a dict kept in insertion order *)
Fixpoint assoc {V : Type} (k : string) (d : list (string * V)) : option V :=
  match d with
  | [] => None
  | (k', v) :: d' => if String.eqb k k' then Some v else assoc k d'
  end.

(** Every character of the text is of the class. *)
Fixpoint all_chars (p : ascii -> bool) (s : string) : bool :=
  match s with
  | String c s' => p c && all_chars p s'
  | EmptyString => true
  end.

(** [str(n)] for a natural number: its decimal writing. *)
Definition decimal_of_N (n : N) : string :=
  NilEmpty.string_of_uint (N.to_uint n).

End PyStr.

(* ===================================================================== *)
(** ** The constant tables of map.py                                      *)
(* ===================================================================== *)

Definition COUNTRY_CODES : list (string * string) :=
  [ ("Australia", "NABIMFD.AUS.M"); ("Austria", "NABIMFD.AUT.M");
    ("Belgium", "NABIMFD.BEL.M"); ("Brazil", "NABIMFD.BRA.M");
    ("Canada", "NABIMFD.CAN.M"); ("Chile", "NABIMFD.CHL.M");
    ("China", "NABIMFD.CHN.M"); ("Cyprus", "NABIMFD.CYP.M");
    ("Denmark", "NABIMFD.DNK.M"); ("Finland", "NABIMFD.FIN.M");
    ("France", "NABIMFD.FRA.M"); ("Germany", "NABIMFD.DEU.M");
    ("Greece", "NABIMFD.GRC.M"); ("India", "NABIMFD.IND.M");
    ("Ireland", "NABIMFD.IRL.M"); ("Israel", "NABIMFD.ISR.M");
    ("Italy", "NABIMFD.ITA.M"); ("Japan", "NABIMFD.JPN.M");
    ("Korea", "NABIMFD.KOR.M"); ("Kuwait", "NABIMFD.KWT.M");
    ("Luxembourg", "NABIMFD.LUX.M"); ("Malaysia", "NABIMFD.MYS.M");
    ("Mexico", "NABIMFD.MEX.M"); ("Netherlands", "NABIMFD.NLD.M");
    ("New Zealand", "NABIMFD.NZL.M"); ("Norway", "NABIMFD.NOR.M");
    ("Philippines", "NABIMFD.PHL.M"); ("Poland", "NABIMFD.POL.M");
    ("Portugal", "NABIMFD.PRT.M"); ("Russian Federation", "NABIMFD.RUS.M");
    ("Russia", "NABIMFD.RUS.M"); ("Saudi Arabia", "NABIMFD.SAU.M");
    ("Singapore", "NABIMFD.SGP.M"); ("South Africa", "NABIMFD.ZAF.M");
    ("Spain", "NABIMFD.ESP.M"); ("Sweden", "NABIMFD.SWE.M");
    ("Switzerland", "NABIMFD.CHE.M"); ("Thailand", "NABIMFD.THA.M");
    ("United Kingdom", "NABIMFD.GBR.M"); ("United States", "NABIMFD.USA.M");
    ("Hong Kong", "NABIMFD.HKG.M") ].

Definition STANDARD_COLUMN_ORDER : list string :=
  [ EmptyString;
    "NABIMFD.AUS.M"; "NABIMFD.AUT.M"; "NABIMFD.BEL.M"; "NABIMFD.BRA.M";
    "NABIMFD.CAN.M"; "NABIMFD.CHL.M"; "NABIMFD.CHN.M"; "NABIMFD.CYP.M";
    "NABIMFD.DNK.M"; "NABIMFD.FIN.M"; "NABIMFD.FRA.M"; "NABIMFD.DEU.M";
    "NABIMFD.GRC.M"; "NABIMFD.IND.M"; "NABIMFD.IRL.M"; "NABIMFD.ISR.M";
    "NABIMFD.ITA.M"; "NABIMFD.JPN.M"; "NABIMFD.KOR.M"; "NABIMFD.KWT.M";
    "NABIMFD.LUX.M"; "NABIMFD.MYS.M"; "NABIMFD.MEX.M"; "NABIMFD.NLD.M";
    "NABIMFD.NZL.M"; "NABIMFD.NOR.M"; "NABIMFD.PHL.M"; "NABIMFD.POL.M";
    "NABIMFD.PRT.M"; "NABIMFD.RUS.M"; "NABIMFD.SAU.M"; "NABIMFD.SGP.M";
    "NABIMFD.ZAF.M"; "NABIMFD.ESP.M"; "NABIMFD.SWE.M"; "NABIMFD.CHE.M";
    "NABIMFD.THA.M"; "NABIMFD.GBR.M"; "NABIMFD.USA.M"; "NABIMFD.HKG.M" ].

(** The list literal of the code tier (map.py, line 247). *)
Definition code_list : list string :=
  [ "AUS"; "AUT"; "BEL"; "BRA"; "CAN"; "CHL"; "CHN"; "CYP"; "DNK"; "FIN";
    "FRA"; "DEU"; "GRC"; "IND"; "IRL"; "ISR"; "ITA"; "JPN"; "KOR"; "KWT";
    "LUX"; "MYS"; "MEX"; "NLD"; "NZL"; "NOR"; "PHL"; "POL"; "PRT"; "RUS";
    "SAU"; "SGP"; "ZAF"; "ESP"; "SWE"; "CHE"; "THA"; "GBR"; "USA" ].

Definition code_to_country_map : list (string * string) :=
  [ ("AUS", "Australia"); ("AUT", "Austria"); ("BEL", "Belgium");
    ("BRA", "Brazil"); ("CAN", "Canada"); ("CHL", "Chile"); ("CHN", "China");
    ("CYP", "Cyprus"); ("DNK", "Denmark"); ("FIN", "Finland");
    ("FRA", "France"); ("DEU", "Germany"); ("GRC", "Greece");
    ("IND", "India"); ("IRL", "Ireland"); ("ISR", "Israel"); ("ITA", "Italy");
    ("JPN", "Japan"); ("KOR", "Korea"); ("KWT", "Kuwait");
    ("LUX", "Luxembourg"); ("MYS", "Malaysia"); ("MEX", "Mexico");
    ("NLD", "Netherlands"); ("NZL", "New Zealand"); ("NOR", "Norway");
    ("PHL", "Philippines"); ("POL", "Poland"); ("PRT", "Portugal");
    ("RUS", "Russian Federation"); ("SAU", "Saudi Arabia");
    ("SGP", "Singapore"); ("ZAF", "South Africa"); ("ESP", "Spain");
    ("SWE", "Sweden"); ("CHE", "Switzerland"); ("THA", "Thailand");
    ("GBR", "United Kingdom"); ("USA", "United States") ].

Definition exact_matches : list (string * list string) :=
  [ ("Australia", ["Australia"]);
    ("Austria", ["Austria"]);
    ("Belgium", ["Belgium"]);
    ("Hong Kong", ["Hong Kong Monetary Authority"; "HKMA"]);
    ("Chile", ["Chile (Banco Central de Chile)"]);
    ("Denmark", ["Denmark (Danmarks Nationalbank)"]);
    ("Germany", ["Germany (Deutsche Bundesbank)"]);
    ("Israel", ["Israel (Bank of Israel)"]);
    ("Netherlands", ["Netherlands, The"]);
    ("Philippines", ["Philippines (Bangko Sentral ng Pilipinas)"]);
    ("Poland", ["Poland, Republic of (National Bank of Poland)"]);
    ("Portugal", ["Portugal (Banco de Portugal)"]);
    ("Sweden", ["Sweden (Sveriges Riksbank)"]);
    ("Switzerland", ["Switzerland (Swiss National Bank)"]) ].

Definition simple_country_names : list string :=
  [ "Brazil"; "Canada"; "China"; "Cyprus"; "Finland"; "France";
    "Greece"; "India"; "Ireland"; "Italy"; "Japan"; "Korea";
    "Kuwait"; "Luxembourg"; "Malaysia"; "Mexico"; "New Zealand";
    "Norway"; "Russian Federation"; "Saudi Arabia"; "Singapore";
    "South Africa"; "Spain"; "Thailand"; "United Kingdom"; "United States" ].

(* ===================================================================== *)
(** ** Exceptions                                                         *)
(* ===================================================================== *)

(** A computation that returns or raises; the payload of [Raise] is the
    name of the exception class. *)
Inductive Exc (A : Type) : Type :=
| Ret (a : A)
| Raise (e : string).
Arguments Ret {A} a.
Arguments Raise {A} e.

Definition bind {A B : Type} (m : Exc A) (f : A -> Exc B) : Exc B :=
  match m with
  | Ret a => f a
  | Raise e => Raise e
  end.

(** [try: m  except: h] *)
Definition catch {A : Type} (m : Exc A) (h : string -> Exc A) : Exc A :=
  match m with
  | Ret a => Ret a
  | Raise e => h e
  end.

#[global] Instance Exc_ret : MRet Exc := fun A a => Ret a.
#[global] Instance Exc_bind : MBind Exc := fun A B f m => bind m f.

(* ===================================================================== *)
(** ** float: binary64 values and float(str)                              *)
(* ===================================================================== *)

(** A binary64 value. [FFin neg m e] is (-1)^neg * m * 2^e with [m] odd,
    or zero with [e = 0]: every finite value has one such writing. *)
Inductive pyfloat : Type :=
| FFin (neg : bool) (m : N) (e : Z)
| FInf (neg : bool)
| FNan.

(** Rounding of a non-negative rational to binary64: to the nearest value
    on 53 bits, ties to the even significand, the subnormal values below
    2^-1022, an infinity from 2^1024 - 2^970 on. *)
Module Binary64.

(** The trailing zero bits of the significand go to the exponent. *)
Fixpoint odd_part (p : positive) (e : Z) : positive * Z :=
  match p with
  | xO p' => odd_part p' (e + 1)
  | _ => (p, e)
  end.

Definition canonical (neg : bool) (m : N) (e : Z) : pyfloat :=
  match m with
  | N0 => FFin neg 0 0
  | Npos p => let '(p', e') := odd_part p e in FFin neg (Npos p') e'
  end.

(** [2^e <= p / q], for [0 < p] and [0 < q]. *)
Definition ge_pow2 (p q e : Z) : bool :=
  if (0 <=? e)%Z then (q * 2 ^ e <=? p)%Z else (q <=? p * 2 ^ (- e))%Z.

(** [p / q] rounded, for [0 <= p] and [0 < q]: [e] is the exponent of the
    last bit kept, [quo] the bits kept, [rem] what is cut off. *)
Definition round_ratio (neg : bool) (p q : Z) : pyfloat :=
  if (p =? 0)%Z then FFin neg 0 0
  else
    let e0 := (Z.log2 p - Z.log2 q)%Z in
    let e1 := if ge_pow2 p q e0 then e0 else (e0 - 1)%Z in
    let e := Z.max (e1 - 52) (-1074) in
    let num := if (0 <=? e)%Z then p else (p * 2 ^ (- e))%Z in
    let den := if (0 <=? e)%Z then (q * 2 ^ e)%Z else q in
    let quo := (num / den)%Z in
    let rem := (num mod den)%Z in
    let up := (den <? 2 * rem)%Z || ((den =? 2 * rem)%Z && Z.odd quo) in
    let m := if up then (quo + 1)%Z else quo in
    if (1024 <=? Z.log2 m + e)%Z then FInf neg
    else canonical neg (Z.to_N m) e.

(** The value of [mant * 10^exp10]. *)
Definition of_decimal (neg : bool) (mant : N) (exp10 : Z) : pyfloat :=
  if (0 <=? exp10)%Z then round_ratio neg (Z.of_N mant * 10 ^ exp10) 1
  else round_ratio neg (Z.of_N mant) (10 ^ (- exp10)).

(** [float(n)] for a natural number. *)
Definition of_N (n : N) : pyfloat := of_decimal false n 0.

(** The integer a value is, when it is one. *)
Definition to_Z (x : pyfloat) : option Z :=
  match x with
  | FFin neg m e =>
      if (0 <=? e)%Z
      then Some ((if neg then -1 else 1) * (Z.of_N m * 2 ^ e))%Z
      else None
  | _ => None
  end.

(** [math.isfinite] *)
Definition is_finite (x : pyfloat) : bool :=
  match x with
  | FFin _ _ _ => true
  | _ => false
  end.

End Binary64.

Module PyFloat.
Import PyStr.

(** What a float literal denotes before rounding. *)
Inductive literal : Type :=
| LDec (neg : bool) (mant : N) (exp10 : Z)   (* (-1)^neg * mant * 10^exp10 *)
| LInf (neg : bool)
| LNan.

Definition round (l : literal) : pyfloat :=
  match l with
  | LDec neg mant exp10 => Binary64.of_decimal neg mant exp10
  | LInf neg => FInf neg
  | LNan => FNan
  end.

Definition digit_val (c : ascii) : N := N.of_nat (code c - 48).

(** A run of decimal digits: the value accumulated on [acc], the number
    of digits read, and the text left. *)
Fixpoint digits_go (acc : N) (n : nat) (s : string) : N * nat * string :=
  match s with
  | String c s' =>
      if isdigit c then digits_go (10 * acc + digit_val c)%N (S n) s'
      else (acc, n, s)
  | EmptyString => (acc, n, s)
  end.

Definition sign (s : string) : bool * string :=
  match s with
  | String "-" s' => (true, s')
  | String "+" s' => (false, s')
  | _ => (false, s)
  end.

(** Underscores: allowed only between two digits; they are dropped.
    [prev] is the previous character. *)
Fixpoint underscores (prev : ascii) (s : string) : option string :=
  match s with
  | EmptyString => if Ascii.eqb prev "_" then None else Some EmptyString
  | String c s' =>
      if Ascii.eqb c "_" then
        if isdigit prev then underscores c s' else None
      else if Ascii.eqb prev "_" && negb (isdigit c) then None
      else String c <$> underscores c s'
  end.

Definition exponent (neg : bool) (m : N) (nfrac : nat) (s : string) : option literal :=
  match s with
  | EmptyString => Some (LDec neg m (- Z.of_nat nfrac))
  | String c s1 =>
      if Ascii.eqb c "e" || Ascii.eqb c "E" then
        let '(eneg, s2) := sign s1 in
        let '(ev, ne, s3) := digits_go 0 0 s2 in
        if (0 <? ne)%nat && is_empty s3
        then Some (LDec neg m ((if eneg then - Z.of_N ev else Z.of_N ev) - Z.of_nat nfrac))
        else None
      else None
  end.

Definition decimal (neg : bool) (s : string) : option literal :=
  let '(ip, ni, s1) := digits_go 0 0 s in
  match s1 with
  | String "." s2 =>
      let '(m, nf, s3) := digits_go ip 0 s2 in
      if (0 <? ni + nf)%nat then exponent neg m nf s3 else None
  | _ => if (0 <? ni)%nat then exponent neg ip 0 s1 else None
  end.

Definition number (s : string) : option literal :=
  let '(neg, s1) := sign s in
  let l := lower s1 in
  if String.eqb l "inf" || String.eqb l "infinity" then Some (LInf neg)
  else if String.eqb l "nan" then Some LNan
  else decimal neg s1.

(** The whitespace [float] ignores around the literal: TAB, LF, VT, FF,
    CR and the space, and NEL and the no-break space, which it first
    turns into spaces; the separators 0x1c..0x1f are not among them. *)
Definition float_space (c : ascii) : bool :=
  ((9 <=? code c)%nat && (code c <=? 13)%nat)
  || (code c =? 32)%nat || (code c =? 133)%nat || (code c =? 160)%nat.

Fixpoint lskip (s : string) : string :=
  match s with
  | String c s' => if float_space c then lskip s' else s
  | EmptyString => EmptyString
  end.

Fixpoint rskip (s : string) : string :=
  match s with
  | String c s' =>
      let r := rskip s' in
      if float_space c && is_empty r then EmptyString else String c r
  | EmptyString => EmptyString
  end.

(** The literal of a text, [None] where [float] raises [ValueError]. *)
Definition parse (s : string) : option literal :=
  match underscores "000" (rskip (lskip s)) with
  | Some t => number t
  | None => None
  end.

(** [float(s)]: surrounding whitespace is ignored, a string that is not
    a float literal raises [ValueError]. *)
Definition py_float (s : string) : Exc pyfloat :=
  match parse s with
  | Some l => Ret (round l)
  | None => Raise "ValueError"
  end.

End PyFloat.

(** The float literals, as the documentation of [float] gives them:
<<
    sign          ::=  "+" | "-"
    infinity      ::=  "Infinity" | "inf"
    nan           ::=  "nan"
    digit         ::=  "0" ... "9"
    digitpart     ::=  digit (["_"] digit)*
    number        ::=  [digitpart] "." digitpart | digitpart ["."]
    exponent      ::=  ("e" | "E") [sign] digitpart
    floatnumber   ::=  number [exponent]
    absfloatvalue ::=  floatnumber | infinity | nan
    floatvalue    ::=  [sign] absfloatvalue
>>
    Case is not significant for infinity and nan, and whitespace may
    surround the value. *)
Module FloatSyntax.
Import PyStr.

Inductive digitpart : string -> Prop :=
| digitpart_one (c : ascii) :
    isdigit c = true -> digitpart (String c EmptyString)
| digitpart_cons (c : ascii) (s : string) :
    isdigit c = true -> digitpart s -> digitpart (String c s)
| digitpart_sep (c : ascii) (s : string) :
    isdigit c = true -> digitpart s -> digitpart (String c (String "_" s)).

Definition opt_sign (s : string) : Prop := s ∈ [EmptyString; "+"; "-"].

Definition number (s : string) : Prop :=
  (exists d1 d2, (d1 = EmptyString \/ digitpart d1) /\ digitpart d2
                 /\ s = d1 +:+ "." +:+ d2)
  \/ (exists d, digitpart d /\ (s = d \/ s = d +:+ ".")).

Definition exponent (s : string) : Prop :=
  exists e sg d, e ∈ ["e"; "E"] /\ opt_sign sg /\ digitpart d /\ s = e +:+ sg +:+ d.





End FloatSyntax.

(* ===================================================================== *)
(** ** Rows of the DataFrame, cells of the output                         *)
(* ===================================================================== *)

(** One row of [pd.read_csv(..., names=columns)]: for each column the
    cell, [None] for NaN and [Some s] for a value whose [str()] is [s]. *)
Record Row : Type := mkRow {
  Member : option string;               (* 'Member (Lender)' *)
  Member_Code : option string;          (* 'Member Code' *)
  Type_ : option string;                (* 'Type' *)
  Facility : option string;             (* 'Facility' *)
  Start_Date : option string;           (* 'Start Date' *)
  Expiration_of_Term : option string;   (* 'Expiration of Term' *)
  Revolving : option string;            (* 'Revolving' *)
  Amount : option string;               (* 'Amount' *)
  Currency : option string;             (* 'Currency' *)
  Amount_Outstanding : option string;   (* 'Amount Outstanding (SDR)' *)
  Status : option string                (* 'Status' *)
}.

(** A DataFrame as the program uses it: its rows in order, and for the
    two columns the program reads through [Series.str] whether the column
    holds text, which is a fact of the column as read ([object] dtype with
    [str] values) and stays with it when rows are dropped. *)
Record Frame : Type := mkFrame {
  rows : list Row;
  member_str : bool;       (* df['Member (Lender)'] holds text *)
  facility_str : bool      (* df['Facility'] holds text *)
}.

(** A cell of the output table: [None], a string or a number. *)
Inductive cell : Type :=
| CNone
| CStr (s : string)
| CNum (x : pyfloat).

(** [pd.notna(x)] *)
Definition notna (x : option string) : bool :=
  match x with Some _ => true | None => false end.

(** [str(x)] of a cell of the frame *)
Definition str (x : option string) : string :=
  match x with Some s => s | None => "nan" end.

(** A loop whose body [break]s at its first success. *)
Fixpoint first_some {A B : Type} (f : A -> option B) (l : list A) : option B :=
  match l with
  | [] => None
  | a :: l' => match f a with
               | Some b => Some b
               | None => first_some f l'
               end
  end.

(* ===================================================================== *)
(** ** The Mapper: cleaning, filter, amount, country resolution           *)
(* ===================================================================== *)

Module Mapper.
Import PyStr.

(** [series.str]: "AttributeError: Can only use .str accessor with string
    values!" on a column that does not hold text. *)
Definition str_accessor (holds_text : bool) : Exc unit :=
  if holds_text then Ret () else Raise "AttributeError".

(** The rows that [dropna(subset=['Member (Lender)', 'Facility', 'Amount'])]
    keeps. *)
Definition complete (r : Row) : bool :=
  notna (Member r) && notna (Facility r) && notna (Amount r).

(** [df.dropna(subset=['Member (Lender)', 'Facility', 'Amount'])] *)
Definition dropna (df : Frame) : Frame :=
  mkFrame (filter (fun r => complete r = true) (rows df)) (member_str df) (facility_str df).

(** [df['Member (Lender)'].str.contains('Member', na=False)] on one row *)
Definition header_like (r : Row) : bool :=
  match Member r with
  | Some m => contains "Member" m
  | None => false
  end.

(** [df[df['Member (Lender)'].str.contains('Member', na=False) == False]] *)
Definition drop_header_rows (df : Frame) : Exc Frame :=
  _ ← str_accessor (member_str df);
  Ret (mkFrame (filter (fun r => header_like r = false) (rows df))
               (member_str df) (facility_str df)).

(** The frame [df] of line 153, from the frame read by [read_csv]. *)
Definition clean (df : Frame) : Exc Frame :=
  drop_header_rows (dropna df).

Definition facility_filter : string := "New Arrangement to Borrow".

(** [df['Facility'].str.strip() == facility_filter] on one row: on a
    missing value [.str.strip()] is missing, and the comparison is False. *)
Definition keep_facility (r : Row) : bool :=
  match Facility r with
  | Some f => String.eqb (strip f) facility_filter
  | None => false
  end.

(** [df[df['Facility'].str.strip() == facility_filter].copy()]: the rows
    of [filtered_df]. *)
Definition filtered (df : Frame) : Exc (list Row) :=
  _ ← str_accessor (facility_str df);
  Ret (filter (fun r => keep_facility r = true) (rows df)).

(** Lines 150-159: from the frame read to the rows of [filtered_df]. *)
Definition filter_stage (df : Frame) : Exc (list Row) :=
  df' ← clean df;
  filtered df'.

(** The body of the [try] of lines 232-235. *)
Definition amount_try (amount_str : string) : Exc (option pyfloat) :=
  let clean_amount := remove_char " " (remove_char "," amount_str) in
  if negb (is_empty clean_amount) && negb (String.eqb clean_amount "nan")
  then x ← PyFloat.py_float clean_amount; Ret (Some x)
  else Ret None.

(** Lines 232-237: the [try] with its bare [except]. *)
Definition parse_amount (amount_str : string) : Exc (option pyfloat) :=
  catch (amount_try amount_str) (fun _ => Ret None).

(** Tier 1, lines 244-299: one iteration of the loop over
    [COUNTRY_CODES.items()]; [Some idx] is the iteration that reaches
    [break]. *)
Definition code_tier_step (member_code : string) (item : string * string) : option nat :=
  let '(country, code) := item in
  if mem code STANDARD_COLUMN_ORDER
     && String.eqb (upper member_code) (take 3 (upper (remove_char " " country)))
  then
    if mem (upper member_code) code_list then
      match assoc (upper member_code) code_to_country_map with
      | Some matched_country =>
          if negb (is_empty matched_country) then
            match assoc matched_country COUNTRY_CODES with
            | Some country_code =>
                if mem country_code STANDARD_COLUMN_ORDER
                then index country_code STANDARD_COLUMN_ORDER
                else None
            | None => None
            end
          else None
      | None => None
      end
    else None
  else None.

Definition code_tier (member_code : string) : option nat :=
  first_some (code_tier_step member_code) COUNTRY_CODES.

(** Tier 2, lines 321-333. *)
Definition alias_variant (country member_name variant : string) : option nat :=
  if String.eqb (lower variant) (lower member_name) || contains variant member_name then
    match assoc country COUNTRY_CODES with
    | Some code =>
        if mem code STANDARD_COLUMN_ORDER
        then index code STANDARD_COLUMN_ORDER
        else None
    | None => None
    end
  else None.

Definition alias_tier_step (member_name : string) (item : string * list string) : option nat :=
  let '(country, variants) := item in
  if notna (assoc country COUNTRY_CODES)
  then first_some (alias_variant country member_name) variants
  else None.

Definition alias_tier (member_name : string) : option nat :=
  first_some (alias_tier_step member_name) exact_matches.

(** Tier 3, lines 345-353. *)
Definition simple_tier_step (member_name country : string) : option nat :=
  match assoc country COUNTRY_CODES with
  | Some code =>
      if String.eqb (lower country) (lower member_name) then
        if mem code STANDARD_COLUMN_ORDER
        then index code STANDARD_COLUMN_ORDER
        else None
      else None
  | None => None
  end.

Definition simple_tier (member_name : string) : option nat :=
  first_some (simple_tier_step member_name) simple_country_names.

(** The three tiers in order ([if not matched:]): the column that
    receives the amount, or [None] for "Could not map". *)
Definition resolve (member_name member_code : string) : option nat :=
  match code_tier member_code with
  | Some idx => Some idx
  | None =>
      match alias_tier member_name with
      | Some idx => Some idx
      | None => simple_tier member_name
      end
  end.

(** The output code of a column. *)
Definition column_code (idx : nat) : option string := STANDARD_COLUMN_ORDER !! idx.

(** The body of the loop over [filtered_df.iterrows()], lines 227-356.
    [idx] comes from [STANDARD_COLUMN_ORDER.index], and [data_row] is as
    long as [STANDARD_COLUMN_ORDER], so the store is in range. *)
Definition process_row (data_row : list cell) (row : Row) : Exc (list cell) :=
  let member_name := strip (str (Member row)) in
  let member_code := if notna (Member_Code row) then strip (str (Member_Code row)) else EmptyString in
  let amount_str := strip (str (Amount row)) in
  amount ← parse_amount amount_str;
  match amount with
  | Some a =>
      match resolve member_name member_code with
      | Some idx => Ret (<[idx := CNum a]> data_row)
      | None => Ret data_row
      end
  | None => Ret data_row
  end.

Fixpoint for_rows (data_row : list cell) (rows : list Row) : Exc (list cell) :=
  match rows with
  | [] => Ret data_row
  | row :: rows' => d ← process_row data_row row; for_rows d rows'
  end.

(** Lines 178-179. *)
Definition initial_data_row (report_date : string) : list cell :=
  CStr report_date :: replicate (List.length STANDARD_COLUMN_ORDER - 1) CNone.

(** [get_country_name_from_code]: the inverted dict keeps, for a code
    with two names, the name declared last. *)
Definition code_to_country (code : string) : option string :=
  fst <$> last (filter (fun kv => snd kv = code) COUNTRY_CODES).

Definition get_country_name_from_code (country_code : string) : string :=
  match code_to_country country_code with
  | Some name => name
  | None => replace ".M" EmptyString (replace "NABIMFD." EmptyString country_code)
  end.

Definition header_row_1 : list cell := CStr <$> STANDARD_COLUMN_ORDER.

Definition header_row_2 : list cell :=
  CStr EmptyString ::
  ((fun col => CStr ("New Arrangement to Borrow IMF Data: " +:+ get_country_name_from_code col))
     <$> drop 1 STANDARD_COLUMN_ORDER).

End Mapper.

(* ===================================================================== *)
(** ** Regular expressions: the fragment of [re] the program uses         *)
(* ===================================================================== *)

(** Every pattern of the program is compiled with [re.IGNORECASE] and is
    built from literal text, repetitions of a character class, alternation,
    concatenation and capturing groups. The matcher is the backtracking
    matcher of [re]: alternatives are tried in order, repetitions are
    greedy and give characters back one at a time. *)
Module Re.
Import PyStr.

Inductive regex : Type :=
| Chars (w : string)                                      (* literal text *)
| Class (p : ascii -> bool) (lo : nat) (hi : option nat)  (* [p]{lo,hi} *)
| Alt (r1 r2 : regex)                                     (* r1|r2 *)
| Cat (r1 r2 : regex)                                     (* r1r2 *)
| Group (r : regex).                                      (* (r) *)

(** Literal text, modulo case: the text consumed and the text left. *)
Fixpoint chars (w s : string) : option (string * string) :=
  match w, s with
  | EmptyString, _ => Some (EmptyString, s)
  | String a w', String b s' =>
      if Ascii.eqb (to_lower a) (to_lower b) then
        match chars w' s' with
        | Some (c, rest) => Some (String b c, rest)
        | None => None
        end
      else None
  | String _ _, EmptyString => None
  end.

Definition hi_ok (hi : option nat) : bool :=
  match hi with Some O => false | _ => true end.
Definition hi_pred (hi : option nat) : option nat := Nat.pred <$> hi.

Section Matcher.
Context {R : Type}.

(** Greedy repetition of a class: as many characters as allowed first,
    one fewer on failure of the continuation [k]. *)
Fixpoint rep (p : ascii -> bool) (lo : nat) (hi : option nat) (s : string)
         (k : string -> string -> option R) : option R :=
  let stop := match lo with O => k EmptyString s | S _ => None end in
  match s with
  | String c s' =>
      if p c && hi_ok hi then
        match rep p (Nat.pred lo) (hi_pred hi) s' (fun cs rest => k (String c cs) rest) with
        | Some x => Some x
        | None => stop
        end
      else stop
  | EmptyString => stop
  end.

(** [k consumed rest groups] is what follows the expression. *)
Fixpoint run (r : regex) (s : string) (groups : list string)
         (k : string -> string -> list string -> option R) : option R :=
  match r with
  | Chars w =>
      match chars w s with
      | Some (c, rest) => k c rest groups
      | None => None
      end
  | Class p lo hi => rep p lo hi s (fun c rest => k c rest groups)
  | Alt r1 r2 =>
      match run r1 s groups k with
      | Some x => Some x
      | None => run r2 s groups k
      end
  | Cat r1 r2 =>
      run r1 s groups (fun c1 s1 g1 =>
        run r2 s1 g1 (fun c2 s2 g2 => k (c1 +:+ c2) s2 g2))
  | Group r1 => run r1 s groups (fun c s1 g1 => k c s1 (g1 ++ [c]))
  end.
End Matcher.

(** [re.match]: the text matched, the text left and the groups. *)
Definition match_at (r : regex) (s : string) : option (string * string * list string) :=
  run r s [] (fun c rest g => Some (c, rest, g)).

(** [re.search]: the groups of the leftmost match. *)
Fixpoint search (r : regex) (s : string) : option (list string) :=
  match match_at r s with
  | Some (_, _, g) => Some g
  | None =>
      match s with
      | String _ s' => search r s'
      | EmptyString => None
      end
  end.

(** [re.findall] for a pattern with several groups that matches no empty
    text: the groups of the successive matches, which do not overlap;
    [skip] counts the characters of the last match still to be passed. *)
Fixpoint findall_go (r : regex) (skip : nat) (s : string) : list (list string) :=
  let next k := match s with
                | String _ s' => findall_go r k s'
                | EmptyString => []
                end in
  match skip with
  | S k => next k
  | O =>
      match match_at r s with
      | Some (c, _, g) => g :: next (String.length c - 1)
      | None => next O
      end
  end.
Definition findall (r : regex) (s : string) : list (list string) := findall_go r 0 s.

Definition alts (ws : list string) : regex :=
  match ws with
  | [] => Chars EmptyString
  | w :: ws' => foldl (fun r w' => Alt r (Chars w')) (Chars w) ws'
  end.

Definition one (p : ascii -> bool) : regex := Class p 1 (Some 1).
Definition is_char (c d : ascii) : bool := Ascii.eqb c d.
Definition between (a b c : ascii) : bool :=
  (code a <=? code c)%nat && (code c <=? code b)%nat.

End Re.

(* ===================================================================== *)
(** ** datetime.strptime('%B %d, %Y') and strftime('%Y-%m')               *)
(* ===================================================================== *)

Module Dates.
Import PyStr Re.

Definition month_names : list string :=
  [ "January"; "February"; "March"; "April"; "May"; "June"; "July";
    "August"; "September"; "October"; "November"; "December" ].

(** The expression [_strptime] builds for the format ['%B %d, %Y']:
    [(?P<B>september|february|november|december|january|october|august|march|april|june|july|may)\s+(?P<d>3[0-1]|[1-2]\d|0[1-9]|[1-9]| [1-9]),\s+(?P<Y>\d\d\d\d)];
    the month names come longest first. *)
Definition directive_B_names : list string :=
  [ "september"; "february"; "november"; "december"; "january"; "october";
    "august"; "march"; "april"; "june"; "july"; "may" ].
Definition directive_B : regex := Group (alts directive_B_names).
Definition directive_d : regex :=
  Group (Alt (Alt (Alt (Alt
    (Cat (Chars "3") (one (between "0" "1")))
    (Cat (one (between "1" "2")) (one isdigit)))
    (Cat (Chars "0") (one (between "1" "9"))))
    (one (between "1" "9")))
    (Cat (Chars " ") (one (between "1" "9")))).
Definition directive_Y : regex := Group (Class isdigit 4 (Some 4)).
Definition format_regex : regex :=
  Cat directive_B (Cat (Class isspace 1 None)
    (Cat directive_d (Cat (Chars ",") (Cat (Class isspace 1 None) directive_Y)))).

(** [int(s)] on a run of decimal digits (the blank of ['%d'] is skipped). *)
Fixpoint int_go (acc : N) (s : string) : N :=
  match s with
  | String c s' =>
      int_go (if isdigit c then 10 * acc + N.of_nat (code c - 48) else acc)%N s'
  | EmptyString => acc
  end.
Definition int (s : string) : N := int_go 0 s.

Definition is_leap (y : N) : bool :=
  (y mod 4 =? 0)%N && (negb (y mod 100 =? 0)%N || (y mod 400 =? 0)%N).

Definition days_in_month (y m : N) : N :=
  match m with
  | 2 => if is_leap y then 29 else 28
  | 4 | 6 | 9 | 11 => 30
  | _ => 31
  end%N.

(** The check of the [datetime] constructor: MINYEAR is 1, MAXYEAR 9999. *)
Definition valid_date (y m d : N) : bool :=
  (1 <=? y)%N && (y <=? 9999)%N && (1 <=? m)%N && (m <=? 12)%N
  && (1 <=? d)%N && (d <=? days_in_month y m)%N.

(** [datetime.strptime(data_string, '%B %d, %Y')]: year and month of the
    date, [ValueError] when the text does not match the format, when text
    is left over, or when the date does not exist. *)
Definition strptime (data_string : string) : Exc (N * N) :=
  match match_at format_regex data_string with
  | Some (_, EmptyString, [B; d; Y]) =>
      match index (lower B) (lower <$> month_names) with
      | Some i =>
          let month := N.of_nat (S i) in
          if valid_date (int Y) month (int d) then Ret (int Y, month)
          else Raise "ValueError"
      | None => Raise "ValueError"
      end
  | _ => Raise "ValueError"
  end.

Definition digit_char (n : N) : ascii := ascii_of_N (48 + n mod 10).

(** [date_obj.strftime('%Y-%m')]: the year as the C library prints it for
    [%Y], in decimal without padding (so four digits from the year 1000
    on), and the month on two digits. *)
Definition strftime (ym : N * N) : string :=
  let '(y, m) := ym in
  decimal_of_N y +:+ String "-" (String (digit_char (m / 10)) (String (digit_char m) EmptyString)).

End Dates.

(* ===================================================================== *)
(** ** extract_date_from_tsv_file                                         *)
(* ===================================================================== *)

Module DateExtractor.
Import PyStr Re Dates.

Definition not_crlftab (c : ascii) : bool :=
  negb (Ascii.eqb c "013" || Ascii.eqb c "010" || Ascii.eqb c "009").
Definition colon_or_space (c : ascii) : bool := Ascii.eqb c ":" || isspace c.

Definition trailing_text : regex := Group (Class not_crlftab 1 None).

(** [r'As of:\s*([^\r\n\t]+)'], [r'As of\s*:\s*([^\r\n\t]+)'],
    [r'as of[:\s]+([^\r\n\t]+)'] *)
Definition as_of_patterns : list regex :=
  [ Cat (Chars "As of:") (Cat (Class isspace 0 None) trailing_text);
    Cat (Chars "As of") (Cat (Class isspace 0 None)
      (Cat (Chars ":") (Cat (Class isspace 0 None) trailing_text)));
    Cat (Chars "as of") (Cat (Class colon_or_space 1 None) trailing_text) ].

(** [r'(January|...|December)\s+(\d{1,2}),?\s+(\d{4})'] *)
Definition date_pattern : regex :=
  Cat (Group (alts month_names)) (Cat (Class isspace 1 None)
    (Cat (Group (Class isdigit 1 (Some 2))) (Cat (Class (is_char ",") 0 (Some 1))
      (Cat (Class isspace 1 None) (Group (Class isdigit 4 (Some 4))))))).

(** Lines 95-103 and 111-115: the three groups of a date match, parsed
    and formatted back. *)
Definition format_groups (groups : list string) : Exc string :=
  match groups with
  | [month_name; day; year] =>
      date_obj ← strptime (month_name +:+ " " +:+ day +:+ ", " +:+ year);
      Ret (strftime date_obj)
  | _ => Raise "IndexError"
  end.

(** The loop of lines 86-103: [Some d] is [return d]. *)
Fixpoint as_of_loop (content : string) (patterns : list regex) : Exc (option string) :=
  match patterns with
  | [] => Ret None
  | pattern :: patterns' =>
      match search pattern content with
      | Some as_of_match =>
          let date_str := strip (default EmptyString (as_of_match !! 0%nat)) in
          match search date_pattern date_str with
          | Some date_match => formatted_date ← format_groups date_match; Ret (Some formatted_date)
          | None => as_of_loop content patterns'
          end
      | None => as_of_loop content patterns'
      end
  end.

(** The body of the [try], lines 74-118, once the file is read. *)
Definition extract_try (now content : string) : Exc string :=
  found ← as_of_loop content as_of_patterns;
  match found with
  | Some formatted_date => Ret formatted_date
  | None =>
      match findall date_pattern content with
      | first_date :: _ => format_groups first_date
      | [] => Ret now
      end
  end.

(** [extract_date_from_tsv_file]: [file] is the outcome of opening and
    reading the artifact, [now] is [datetime.now().strftime('%Y-%m')]. *)
Definition extract_date_from_tsv_file (now : string) (file : Exc string) : Exc string :=
  catch (content ← file; extract_try now content) (fun _ => Ret now).

End DateExtractor.

(* ===================================================================== *)
(** ** pd.read_csv(sep='\t', skiprows=8, names=columns, engine='python')  *)
(* ===================================================================== *)

(** The reading of line 147 on the texts where it is plain: no quote
    character, no CR and no NUL, so that the rows of the csv reader are the
    lines of the text and their fields the pieces between TABs; at least
    one row after the eight skipped lines and the blank lines, every row
    of eleven fields; and each of the four columns the program reads
    (member, member code, facility, amount) either holding a field that
    cannot be taken for a number, a boolean or a missing value, so that
    the column stays text and its cells are the fields as written, or
    holding missing values only. On any other text [frame] is [None]: the
    result of the library is then not derived from the text. *)
Module Tsv.
Import PyStr.

Definition TAB : ascii := "009".
Definition LF : ascii := "010".
Definition CR : ascii := "013".
Definition NUL : ascii := "000".
Definition QUOTE : ascii := "034".

(** The lines of a text; a final LF does not begin a line. *)
Fixpoint lines (text : string) : list string :=
  match text with
  | EmptyString => []
  | String c s' =>
      if Ascii.eqb c LF then EmptyString :: lines s'
      else match lines s' with
           | l :: ls => String c l :: ls
           | [] => [String c EmptyString]
           end
  end.

(** The fields of a line: the pieces between the separators. *)
Fixpoint split_on (sep : ascii) (s : string) : list string :=
  match s with
  | EmptyString => [EmptyString]
  | String c s' =>
      if Ascii.eqb c sep then EmptyString :: split_on sep s'
      else match split_on sep s' with
           | f :: fs => String c f :: fs
           | [] => [String c EmptyString]
           end
  end.

(** [skiprows=8], then the blank lines are passed over. *)
Definition records (text : string) : list (list string) :=
  split_on TAB <$> List.filter (fun l => negb (is_empty l)) (drop 8 (lines text)).

Definition plain_char (c : ascii) : bool :=
  negb (Ascii.eqb c QUOTE || Ascii.eqb c CR || Ascii.eqb c NUL).

(** The texts read as a missing value. *)
Definition NA_VALUES : list string :=
  [ EmptyString; "#N/A"; "#N/A N/A"; "#NA"; "-1.#IND"; "-1.#QNAN"; "-NaN";
    "-nan"; "1.#IND"; "1.#QNAN"; "<NA>"; "N/A"; "NA"; "NULL"; "NaN"; "None";
    "n/a"; "nan"; "null" ].

(** The texts read as a boolean. *)
Definition BOOL_VALUES : list string :=
  [ "True"; "TRUE"; "true"; "False"; "FALSE"; "false" ].

(** The characters a field read as a number can be made of: digits,
    signs, the point, the exponent mark, whitespace, and the letters of
    inf, infinity and nan in either case. *)
Definition numeric_char (c : ascii) : bool :=
  isdigit c || isspace c
  || existsb (Ascii.eqb (to_lower c))
       [ "+"; "-"; "."; "e"; "a"; "f"; "i"; "n"; "t"; "y" ]%char.

(** A field that makes its column a column of text. *)
Definition surely_text (f : string) : bool :=
  negb (mem f NA_VALUES) && negb (mem f BOOL_VALUES)
  && negb (all_chars numeric_char f).

Definition field (i : nat) (fields : list string) : string :=
  default EmptyString (fields !! i).

Definition column (i : nat) (recs : list (list string)) : list string :=
  field i <$> recs.

Definition holds_text (col : list string) : bool := existsb surely_text col.
Definition all_missing (col : list string) : bool :=
  forallb (fun f => mem f NA_VALUES) col.
Definition typed (col : list string) : bool := holds_text col || all_missing col.

Definition cell_of (f : string) : option string :=
  if mem f NA_VALUES then None else Some f.

(** [names=columns]: the eleven fields in the order of the names. *)
Definition row_of (fields : list string) : Row :=
  mkRow (cell_of (field 0 fields)) (cell_of (field 1 fields))
        (cell_of (field 2 fields)) (cell_of (field 3 fields))
        (cell_of (field 4 fields)) (cell_of (field 5 fields))
        (cell_of (field 6 fields)) (cell_of (field 7 fields))
        (cell_of (field 8 fields)) (cell_of (field 9 fields))
        (cell_of (field 10 fields)).

Definition plain (text : string) : bool :=
  let recs := records text in
  all_chars plain_char text
  && negb (Nat.eqb (List.length recs) 0)
  && forallb (fun fields => Nat.eqb (List.length fields) 11) recs
  && typed (column 0 recs) && typed (column 1 recs)
  && typed (column 3 recs) && typed (column 7 recs).

Definition frame (text : string) : option Frame :=
  if plain text then
    let recs := records text in
    Some (mkFrame (row_of <$> recs)
                  (holds_text (column 0 recs)) (holds_text (column 3 recs)))
  else None.

End Tsv.

(* ===================================================================== *)
(** ** map.py: main                                                       *)
(* ===================================================================== *)

Module MapPy.
Import PyStr Mapper DateExtractor.

(** What a run of [map.py] meets outside the program. *)
Record World : Type := mkWorld {
  source_exists : bool;        (* os.path.exists('downloads/BORROWINGS.xls') *)
  file_text : Exc string;      (* open(..., errors='ignore').read() in the date extractor *)
  csv_text : Exc string;       (* the text pd.read_csv decodes from the file *)
  csv_frame : Exc Frame;       (* what pd.read_csv returns on a text that is not plain *)
  now : string;                (* datetime.now().strftime('%Y-%m') *)
  write_xlsx : Exc unit        (* os.makedirs, opening and saving the workbook *)
}.

(** [pd.read_csv(source_file_path, sep='\t', skiprows=8, names=columns,
    engine='python')], line 147. *)
Definition read_csv (w : World) : Exc Frame :=
  text ← csv_text w;
  match Tsv.frame text with
  | Some df => Ret df
  | None => csv_frame w
  end.

Definition table : Type := list (list cell).

(** The three rows handed to the writer, lines 139-360. *)
Definition build (w : World) : Exc table :=
  report_date ← extract_date_from_tsv_file (now w) (file_text w);
  df ← read_csv w;
  filtered_df ← filter_stage df;
  data_row ← for_rows (initial_data_row report_date) filtered_df;
  Ret [header_row_1; header_row_2; data_row].

(** [worksheet.write] of a number: xlsxwriter raises [TypeError] on an
    infinity and on NaN, in the [try] of line 381 and again in its
    [except]. *)
Definition writable (c : cell) : bool :=
  match c with
  | CNum x => Binary64.is_finite x
  | _ => true
  end.

(** Lines 362-392: the workbook is opened, the frame written, the amounts
    of row 3 written again as numbers, the workbook saved. An error of
    the file system is what the block raises also when a cell cannot be
    written. *)
Definition write_table (w : World) (final_data : table) : Exc unit :=
  _ ← write_xlsx w;
  if forallb writable (default [] (final_data !! 2%nat)) then Ret ()
  else Raise "TypeError".

(** The body of the [try] of [main], lines 138-408. *)
Definition main_try (w : World) : Exc table :=
  final_data ← build w;
  _ ← write_table w final_data;
  Ret final_data.

Inductive message : Type :=
| SourceNotFound                 (* "Error: Source file not found at ..." *)
| Success                        (* "Success! Mapped data has been saved to ..." *)
| UnexpectedError (e : string).  (* "An unexpected error occurred: ..." *)

Record Outcome : Type := mkOutcome {
  exit_status : nat;             (* the status of the process *)
  saved : option table;          (* the sheet of a run that reports success *)
  printed : message
}.

(** [main()] as the script runs it: [main] returns [None] on every path,
    after which the interpreter exits with status 0. *)
Definition main (w : World) : Outcome :=
  if negb (source_exists w) then mkOutcome 0 None SourceNotFound
  else
    match main_try w with
    | Ret final_data => mkOutcome 0 (Some final_data) Success
    | Raise e => mkOutcome 0 None (UnexpectedError e)
    end.

End MapPy.

(* ===================================================================== *)
(** ** orchestrator.py: the status of the pipeline process                *)
(* ===================================================================== *)

Module Orchestrator.

(** What the sequencer observes. *)
Record Env : Type := mkEnv {
  requirements : bool;          (* check_requirements() *)
  extraction : bool;            (* run_data_extraction() *)
  map_returncode : option nat;  (* map.py's status; None: TimeoutExpired *)
  summary_exists : bool;        (* os.path.exists(script_dir/'nabimfd_summary.xlsx') *)
  source_exists : bool          (* os.path.exists('downloads/BORROWINGS.xls') *)
}.

Definition run_data_processing (e : Env) : bool :=
  match map_returncode e with
  | Some O => summary_exists e
  | Some (S _) => false
  | None => false
  end.

Definition generate_summary (e : Env) : bool :=
  source_exists e && summary_exists e.

Definition run_pipeline (e : Env) : bool :=
  if negb (requirements e) then false
  else if negb (extraction e) then false
  else if negb (run_data_processing e) then false
  else generate_summary e.

(** [sys.exit(main())] *)
Definition main (e : Env) : nat := if run_pipeline e then 0 else 1.

End Orchestrator.

(* ===================================================================== *)
(** ** Auxiliary definitions of the statements                            *)
(* ===================================================================== *)

Import PyStr Mapper.

(** What a row of [filtered_df] brings to the table: its column and its
    amount, when the amount parses and a tier matches. *)
Definition contribution (row : Row) : option (nat * pyfloat) :=
  let member_name := strip (str (Member row)) in
  let member_code := if notna (Member_Code row) then strip (str (Member_Code row)) else EmptyString in
  match parse_amount (strip (str (Amount row))) with
  | Ret (Some a) =>
      match resolve member_name member_code with
      | Some idx => Some (idx, a)
      | None => None
      end
  | _ => None
  end.

Definition store (data_row : list cell) (c : option (nat * pyfloat)) : list cell :=
  match c with
  | Some (idx, a) => <[idx := CNum a]> data_row
  | None => data_row
  end.


(** The output code [NABIMFD.<ISO3>.M] of a three-letter code. *)
Definition output_code (iso3 : string) : string := "NABIMFD." +:+ iso3 +:+ ".M".

(** The codes of [code_list] that are also the first three letters of a
    registry name, and the others. *)
Definition prefix_codes : list string :=
  [ "AUS"; "BEL"; "BRA"; "CAN"; "CYP"; "FIN"; "FRA"; "IND"; "ISR"; "ITA";
    "KOR"; "LUX"; "MEX"; "NOR"; "POL"; "RUS"; "SAU"; "SWE"; "THA" ].
Definition missed_codes : list string :=
  [ "AUT"; "CHL"; "CHN"; "DNK"; "DEU"; "GRC"; "IRL"; "JPN"; "KWT"; "MYS";
    "NLD"; "NZL"; "PHL"; "PRT"; "SGP"; "ZAF"; "ESP"; "CHE"; "GBR"; "USA" ].

(** The bare names of the countries whose aliases are all qualified. *)
Definition bare_names : list string :=
  [ "Hong Kong"; "Chile"; "Denmark"; "Germany"; "Israel"; "Netherlands";
    "Philippines"; "Poland"; "Portugal"; "Sweden"; "Switzerland" ].

(** "Codes are unique": no two entries of a registry with distinct names
    carry the same output code. *)
Definition codes_unique (registry : list (string * string)) : Prop :=
  forall n1 n2 c, (n1, c) ∈ registry -> (n2, c) ∈ registry -> n1 = n2.

(** The boolean form of the registry invariant that does hold. *)
Definition same_code_ok (e1 e2 : string * string) : bool :=
  implb (String.eqb (snd e1) (snd e2))
        (String.eqb (fst e1) (fst e2)
         || (String.eqb (snd e1) "NABIMFD.RUS.M"
             && mem (fst e1) ["Russian Federation"; "Russia"]
             && mem (fst e2) ["Russian Federation"; "Russia"])).

(** The two rows of the specification's examples. *)
Definition nab_row (member code amount : option string) : Row :=
  mkRow member code None (Some "New Arrangement to Borrow") None None None
        amount (Some "SDR") None (Some "Active").

(** "The record survives the filter stage": it is in [filtered_df]. *)
Definition survives_filter_stage (df : Frame) (r : Row) : Prop :=
  exists filtered_df, filter_stage df = Ret filtered_df /\ r ∈ filtered_df.

(** A run of the pipeline over a run [w] of the Mapper: the sequencer sees
    the Mapper's exit status; the other observations are given. *)
Definition pipeline_env (w : MapPy.World) (requirements extraction summary_exists : bool)
  : Orchestrator.Env :=
  Orchestrator.mkEnv requirements extraction
    (Some (MapPy.exit_status (MapPy.main w))) summary_exists (MapPy.source_exists w).

(** The Amount Parser on a raw cell text: lines 229-237. *)
Definition amount_parser (raw : string) : Exc (option pyfloat) :=
  parse_amount (strip raw).

(** The text does not begin with a character of the class. *)
Definition stops (p : ascii -> bool) (s : string) : bool :=
  match s with
  | String c _ => negb (p c)
  | EmptyString => true
  end.



(** What can follow a digit, [rest] read as [t']: it is read the same
    after any character but an underscore. *)
Definition after (rest t' : string) : Prop :=
  forall x, Ascii.eqb x "_" = false -> PyFloat.underscores x rest = Some t'.

(** [clean_amount] of line 234 for a raw cell text. *)
Definition clean_amount (raw : string) : string :=
  remove_char " " (remove_char "," (strip raw)).

(** A text made of whitespace only. *)
Fixpoint all_space (s : string) : bool :=
  match s with
  | String c s' => isspace c && all_space s'
  | EmptyString => true
  end.

Fixpoint all_digits (s : string) : bool :=
  match s with
  | String c s' => isdigit c && all_digits s'
  | EmptyString => true
  end.

(** [t] occurs in [s]. *)
Definition substring (t s : string) : Prop :=
  exists a b, s = a +:+ t +:+ b.

(** [s.lower().find(w)] for a lower-case [w]: the first position where
    [w] occurs in [s] whatever the case; [i] is the position of [s] in the
    whole text. *)
Fixpoint find_ci_go (w s : string) (i : nat) : option nat :=
  if startswith w (lower s) then Some i
  else match s with
       | String _ s' => find_ci_go w s' (S i)
       | EmptyString => None
       end.
Definition find_ci (w s : string) : option nat := find_ci_go w s 0.

(** A long-form date as the header writes it: month name, day, an
    optional comma ([sep] is [", "] or [" "]), year. *)
Definition long_date (M D sep Y : string) : string :=
  M +:+ " " +:+ D +:+ sep +:+ Y.

Definition is_day_text (D : string) : bool :=
  all_digits D && ((String.length D =? 1)%nat || (String.length D =? 2)%nat).

Definition is_year_text (Y : string) : bool :=
  all_digits Y && (String.length Y =? 4)%nat.

(** A month name, whatever its case. *)
Definition is_month_text (M : string) : Prop :=
  lower M ∈ lower <$> Dates.month_names.

(** January is 1, whatever the case of the name; a text that is no month
    name is 0. *)
Definition month_number (M : string) : N :=
  match index (lower M) (lower <$> Dates.month_names) with
  | Some i => N.of_nat (S i)
  | None => 0
  end.

Definition two_digits (m : N) : string :=
  String (Dates.digit_char (m / 10)) (String (Dates.digit_char m) EmptyString).

(** The text [s] begins with a long-form date: a month name [M] in any
    case, whitespace, a day [D] of one or two digits, a comma or none,
    whitespace, a year [Y] of four digits. *)
Definition date_at (M D Y s : string) : Prop :=
  exists ws1 comma ws2 rest,
    s = M +:+ ws1 +:+ D +:+ comma +:+ ws2 +:+ Y +:+ rest
    /\ is_month_text M
    /\ all_space ws1 = true /\ ws1 <> EmptyString
    /\ is_day_text D = true
    /\ comma ∈ [EmptyString; ","]
    /\ all_space ws2 = true /\ ws2 <> EmptyString
    /\ is_year_text Y = true.

(** The first long-form date of [s]: the leftmost place of [s] where a
    long-form date begins carries [M], [D] and [Y]. *)
Definition first_date (M D Y s : string) : Prop :=
  exists a b,
    s = a +:+ b /\ date_at M D Y b
    /\ forall a1 a2 M' D' Y',
         a = a1 +:+ a2 -> a2 <> EmptyString -> ~ date_at M' D' Y' (a2 +:+ b).

(** No long-form date begins anywhere in [s]. *)
Definition no_date (s : string) : Prop :=
  forall a b M D Y, s = a +:+ b -> ~ date_at M D Y b.

(** What a date that decides gives: the year as a number, a dash and the
    month on two digits when the date exists in the calendar, the current
    month [now] when it does not. *)
Definition year_month (now M D Y : string) : string :=
  if Dates.valid_date (Dates.int Y) (month_number M) (Dates.int D)
  then decimal_of_N (Dates.int Y) +:+ "-" +:+ two_digits (month_number M)
  else now.

(** Lines 87-89: the text an "As of" pattern captures at its first match
    in the content, stripped. *)
Definition as_of_capture (pattern : Re.regex) (content : string) : option string :=
  match Re.search pattern content with
  | Some as_of_match => Some (strip (default EmptyString (as_of_match !! 0%nat)))
  | None => None
  end.

(** The rest of the line: the text up to the first CR, LF or TAB, and the
    text from there on. *)
Fixpoint span_line (s : string) : string * string :=
  match s with
  | String c s' =>
      if DateExtractor.not_crlftab c
      then let '(l, r) := span_line s' in (String c l, r)
      else (EmptyString, s)
  | EmptyString => (EmptyString, EmptyString)
  end.

(** The day texts the directive [%d] accepts: 1 to 31. *)
Definition day_regex_ok (D : string) : bool :=
  (1 <=? Dates.int D)%N && (Dates.int D <=? 31)%N.

(** The end of a line, and the separator of the fields. *)
Definition nl : string := String "010" EmptyString.
Definition tab : string := String "009" EmptyString.

(** A header whose first "as of:" carries no date, after a date in the
    text above it. *)
Definition earlier_marker_content : string :=
  "Prepared January 1, 2020" +:+ nl +:+ "as of: n/a" +:+ nl +:+
  "As of: September 5, 2024" +:+ nl.

(** The rows of the end-to-end example; the fields written "..." in the
    specification are free. *)
Definition france_row (f3 f5 f6 f7 f10 : option string) : Row :=
  mkRow (Some "France") (Some "FRA") f3 (Some "New Arrangement to Borrow")
        f5 f6 f7 (Some "500,000") (Some "SDR") f10 (Some "Active").

Definition standby_row (f3 f5 f6 f7 f10 : option string) : Row :=
  mkRow (Some "Stand-By Co.") None f3 (Some "Stand-By Arrangement")
        f5 f6 f7 (Some "999") (Some "SDR") f10 (Some "Active").


(** A data line of the artifact: its fields, separated by TABs. *)
Fixpoint tsv_line (fields : list string) : string :=
  match fields with
  | [] => EmptyString
  | f :: fs =>
      match fs with
      | [] => f
      | _ :: _ => f +:+ String Tsv.TAB (tsv_line fs)
      end
  end.


(** The fields of the two data lines of the end-to-end example; the
    fields written "..." in the specification are free. *)
Definition france_fields (f3 f5 f6 f7 f10 : string) : list string :=
  [ "France"; "FRA"; f3; "New Arrangement to Borrow"; f5; f6; f7; "500,000";
    "SDR"; f10; "Active" ].


(** An artifact as the extraction saves it: eight lines of header, then
    one line for each record, of eleven fields separated by TABs. *)
Definition example_text : string :=
  "IMF Financial Data" +:+ nl +:+
  "New Arrangements to Borrow and bilateral agreements" +:+ nl +:+
  "As of: June 30, 2025" +:+ nl +:+
  nl +:+
  "(in millions of SDRs)" +:+ nl +:+
  nl +:+
  "Member" +:+ tab +:+ "Code" +:+ tab +:+ "Facility" +:+ nl +:+
  nl +:+
  "France" +:+ tab +:+ "FRA" +:+ tab +:+ "Lender" +:+ tab +:+ "New Arrangement to Borrow"
    +:+ tab +:+ "01/01/2021" +:+ tab +:+ "12/31/2025" +:+ tab +:+ "18,657" +:+ tab
    +:+ "500,000" +:+ tab +:+ "SDR" +:+ tab +:+ "0" +:+ tab +:+ "Active" +:+ nl +:+
  "Stand-By Co." +:+ tab +:+ tab +:+ "Borrower" +:+ tab +:+ "Stand-By Arrangement"
    +:+ tab +:+ "03/01/2024" +:+ tab +:+ tab +:+ "n/a" +:+ tab
    +:+ "999" +:+ tab +:+ "SDR" +:+ tab +:+ "1" +:+ tab +:+ "Active" +:+ nl.

(** A run on that artifact whose only failure is the writer's. *)
Definition write_fails_world : MapPy.World :=
  MapPy.mkWorld true (Ret example_text) (Ret example_text) (Raise "ParserError")
    "2026-11" (Raise "PermissionError").

(** Row 3 of the end-to-end example. *)
Definition france_data_row : list cell :=
  CStr "2025-06" :: replicate 10 CNone ++ CNum (Binary64.of_N 500000) :: replicate 29 CNone.

(** Case analysis on the members of a list given in full. *)
Ltac each_member H :=
  repeat (apply elem_of_cons in H as [-> | H]); [.. | now apply elem_of_nil in H].


(* ===================================================================== *)
(** ** Auxiliary definitions of the further statements                    *)
(* ===================================================================== *)

(** The columns the rows of a list write, in the order of the rows. *)
Definition columns_written (rows : list Row) : list nat :=
  omap (fun r => fst <$> contribution r) rows.

(** The variants of [exact_matches] with their country, in the order in
    which the two nested loops of the alias tier meet them. *)
Definition flat_variants : list (string * string) :=
  mjoin ((fun item => (fun v => (fst item, v)) <$> snd item) <$> exact_matches).

(** The test of the alias tier, line 324. *)
Definition alias_test (member_name variant : string) : bool :=
  String.eqb (lower variant) (lower member_name) || contains variant member_name.

(** A text of the form YYYY-MM with a month from 01 to 12. *)
Definition is_year_month (s : string) : bool :=
  match s with
  | String y1 (String y2 (String y3 (String y4 (String "-" (String m1 (String m2 EmptyString)))))) =>
      isdigit y1 && isdigit y2 && isdigit y3 && isdigit y4 && isdigit m1 && isdigit m2
      && (1 <=? Dates.int (String m1 (String m2 EmptyString)))%N
      && (Dates.int (String m1 (String m2 EmptyString)) <=? 12)%N
  | _ => false
  end.

(** [P] holds on the [n] numbers from [lo] on. *)
Fixpoint all_from (P : N -> bool) (n : nat) (lo : N) : bool :=
  match n with
  | O => true
  | S n' => P lo && all_from P n' (N.succ lo)
  end.

(** The texts a date gives: the year of a calendar date as a number, a
    hyphen and the month on two digits. *)
Definition year_month_text (r : string) : Prop :=
  exists y m, (1 <= y <= 9999)%N /\ (1 <= m <= 12)%N
              /\ r = decimal_of_N y +:+ "-" +:+ two_digits m
              /\ ((1000 <= y)%N -> is_year_month r = true).

(* ===================================================================== *)
(** ** orchestrator.py: phases, files and log cleanup                     *)
(* ===================================================================== *)

Module Sequencer.
Import PyStr.

(** [s.endswith(suffix)]: [suffix] is one of the tails of [s]. *)
Fixpoint endswith (suffix s : string) : bool :=
  String.eqb suffix s
  || match s with
     | String _ s' => endswith suffix s'
     | EmptyString => false
     end.

(** [os.path.join(a, b)] for a relative [b], with "/" as separator. *)
Definition path_join (a b : string) : string :=
  if is_empty a then b
  else if endswith "/" a then a +:+ b
  else a +:+ "/" +:+ b.

(** map.py, lines 363-365: the directory and the file it writes;
    [script_dir] is the directory of the scripts. *)
Definition map_output_dir (script_dir : string) : string :=
  path_join script_dir "output".
Definition map_output_file (script_dir : string) : string :=
  path_join (map_output_dir script_dir) "NABIMFD_OUTPUT.xlsx".

(** orchestrator.py, line 26: the file [run_data_processing] and
    [generate_summary] look for. *)
Definition orchestrator_output_file (script_dir : string) : string :=
  path_join script_dir "nabimfd_summary.xlsx".

(** The paths a run of map.py creates ([os.makedirs], [pd.ExcelWriter]). *)
Definition map_write_set (script_dir : string) : list string :=
  [map_output_dir script_dir; map_output_file script_dir].

(** The phases of [run_pipeline], in the order of its calls. *)
Inductive phase : Type :=
| CheckRequirements | DataExtraction | DataProcessing | Summary | Cleanup.

(** [run_pipeline(cleanup_old_files)]: the phases it calls and its result.
    [cleanup_old_files()] catches its own exceptions and returns nothing. *)
Definition run_pipeline_trace (cleanup_old_files : bool) (e : Orchestrator.Env)
  : list phase * bool :=
  if negb (Orchestrator.requirements e) then ([CheckRequirements], false)
  else if negb (Orchestrator.extraction e) then ([CheckRequirements; DataExtraction], false)
  else if negb (Orchestrator.run_data_processing e)
       then ([CheckRequirements; DataExtraction; DataProcessing], false)
  else
    let success := Orchestrator.generate_summary e in
    ([CheckRequirements; DataExtraction; DataProcessing; Summary]
       ++ (if cleanup_old_files then [Cleanup] else []), success).

(** [cleanup_old_files]: the log files of the pipeline. *)
Definition is_pipeline_log (filename : string) : bool :=
  startswith "nabimfd_pipeline_" filename && endswith ".log" filename.

Section CleanupLoop.
(** Times are compared only: [older t] is [t < cutoff_time]. *)
Context {time : Type}.
Variable older : time -> bool.
(** [os.remove(file_path)]: whether it returns ([false]: it raises). *)
Variable remove_ok : string -> bool.

(** The loop of lines 204-209 over [os.listdir(script_dir)], each name
    with what [os.path.getmtime] gives for it ([None]: it raises): the
    files removed, and whether the loop ran to its end ([false]: an
    exception ended it, "Cleanup failed"). *)
Fixpoint cleanup_loop (listing : list (string * option time)) : list string * bool :=
  match listing with
  | [] => ([], true)
  | (filename, getmtime) :: listing' =>
      if is_pipeline_log filename then
        match getmtime with
        | Some mtime =>
            if older mtime then
              if remove_ok filename then
                let '(removed, completed) := cleanup_loop listing' in
                (filename :: removed, completed)
              else ([], false)
            else cleanup_loop listing'
        | None => ([], false)
        end
      else cleanup_loop listing'
  end.
End CleanupLoop.

(** The prefix [os.path.join(a, _)] puts before a relative path. *)
Definition path_prefix (a : string) : string :=
  if is_empty a then EmptyString
  else if endswith "/" a then a else a +:+ "/".

(** [run_data_extraction]: what it observes.  Instants are compared only
    and are numbers here. *)
Record Extraction : Type := mkExtraction {
  main_returncode : option nat;           (* main.py's status; None: TimeoutExpired *)
  source_found : bool;                    (* os.path.exists(self.source_file) *)
  downloads_found : bool;                 (* os.path.exists(self.downloads_dir) *)
  downloads_listing : list (string * N);  (* os.listdir, each name with its getctime *)
  rename_ok : bool                        (* os.rename returns (false: it raises) *)
}.

(** [f.endswith(('.xls', '.xlsx'))] *)
Definition is_spreadsheet (f : string) : bool :=
  endswith ".xls" f || endswith ".xlsx" f.

(** [max(items, key=os.path.getctime)] with [current] the maximum so far:
    a later item replaces it only when its key is greater. *)
Fixpoint max_by_ctime (current : string * N) (items : list (string * N))
  : string * N :=
  match items with
  | [] => current
  | item :: items' =>
      max_by_ctime (if (current.2 <? item.2)%N then item else current) items'
  end.

(** The result of [run_data_extraction] and the file it renamed to
    downloads/BORROWINGS.xls, if any.  [latest_file != self.source_file]
    compares two paths of the same directory: their names differ. *)
Definition run_data_extraction (x : Extraction) : bool * option string :=
  match main_returncode x with
  | Some 0 =>
      if source_found x then (true, None)
      else if downloads_found x then
        match List.filter (fun item => is_spreadsheet item.1) (downloads_listing x) with
        | [] => (false, None)
        | first :: others =>
            let latest_file := max_by_ctime first others in
            if negb (String.eqb latest_file.1 "BORROWINGS.xls") then
              if rename_ok x then (true, Some latest_file.1) else (false, None)
            else (true, None)
        end
      else (false, None)
  | Some (S _) => (false, None)
  | None => (false, None)
  end.

End Sequencer.

(** map.py, lines 400-403: the cells of the data row after the date that
    are not [None], and their number ("Countries with data"). *)
Definition is_not_None (c : cell) : bool :=
  match c with
  | CNone => false
  | _ => true
  end.

Definition non_empty_values (data_row : list cell) : list cell :=
  filter (fun val => is_not_None val) (tail data_row).

Definition countries_with_data (data_row : list cell) : nat :=
  List.length (non_empty_values data_row).
(* ===================================================================== *)
(** * Properties                                                          *)
(* ===================================================================== *)


(** ** Generic facts on the loop combinators and the tables *)

Lemma catch_ret_total {A : Type} (m : Exc A) (a0 : A) :
  exists a, catch m (fun _ => Ret a0) = Ret a.
Proof. destruct m as [a|e]; simpl; eauto. Qed.

Lemma parse_amount_total (amount_str : string) :
  exists a, parse_amount amount_str = Ret a.
Proof. apply catch_ret_total. Qed.

Lemma index_lt (x : string) (l : list string) (i : nat) :
  index x l = Some i -> (i < List.length l)%nat.
Proof.
  revert i. induction l as [|y l IH]; simpl; intros i H; [discriminate|].
  destruct (String.eqb x y).
  - injection H as <-. lia.
  - destruct (index x l) as [j|]; simpl in H; [|discriminate].
    injection H as <-. specialize (IH j eq_refl). lia.
Qed.

Lemma index_lookup (x : string) (l : list string) (i : nat) :
  index x l = Some i -> l !! i = Some x.
Proof.
  revert i. induction l as [|y l IH]; simpl; intros i H; [discriminate|].
  destruct (String.eqb x y) eqn:E.
  - injection H as <-. apply String.eqb_eq in E. now subst.
  - destruct (index x l) as [j|]; simpl in H; [|discriminate].
    injection H as <-. simpl. now apply IH.
Qed.

Lemma first_some_elem {A B : Type} (f : A -> option B) (l : list A) (b : B) :
  first_some f l = Some b -> exists a, a ∈ l /\ f a = Some b.
Proof.
  induction l as [|a l IH]; simpl; [discriminate|].
  destruct (f a) as [b'|] eqn:E.
  - intros [= <-]. exists a. split; [left|assumption].
  - intros H. destruct (IH H) as (a' & Hin & Hf). exists a'. split; [now right|assumption].
Qed.

Lemma first_some_none {A B : Type} (f : A -> option B) (l : list A) :
  (forall a, a ∈ l -> f a = None) -> first_some f l = None.
Proof.
  induction l as [|a l IH]; simpl; intros H; [reflexivity|].
  rewrite (H a) by left. apply IH. intros a' Ha'. apply H. now right.
Qed.

(** Every code of the registry has its column, and it is not the first. *)
Lemma registry_column (country code : string) :
  assoc country COUNTRY_CODES = Some code ->
  exists idx, index code STANDARD_COLUMN_ORDER = Some idx /\ (1 <= idx < 41)%nat.
Proof.
  unfold COUNTRY_CODES. cbn [assoc].
  repeat match goal with
         | |- context [String.eqb country ?k] => destruct (String.eqb country k)
         end;
    intros [= <-]; vm_compute; eexists; (split; [reflexivity | lia]).
Qed.

Lemma code_tier_range (member_code : string) (idx : nat) :
  code_tier member_code = Some idx -> (1 <= idx < 41)%nat.
Proof.
  intros H. apply first_some_elem in H as ([country code] & _ & H).
  unfold code_tier_step in H.
  repeat match type of H with
         | (if ?b then _ else _) = Some _ => destruct b; [|discriminate]
         | match ?o with Some _ => _ | None => _ end = Some _ =>
             let E := fresh "E" in destruct o eqn:E; [|discriminate]
         end.
  match goal with
  | E : assoc _ COUNTRY_CODES = Some _ |- _ =>
      destruct (registry_column _ _ E) as (i & Hi & Hr)
  end.
  congruence.
Qed.

Lemma alias_tier_range (member_name : string) (idx : nat) :
  alias_tier member_name = Some idx -> (1 <= idx < 41)%nat.
Proof.
  intros H. apply first_some_elem in H as ([country variants] & _ & H).
  unfold alias_tier_step in H.
  destruct (notna (assoc country COUNTRY_CODES)); [|discriminate].
  apply first_some_elem in H as (variant & _ & H).
  unfold alias_variant in H.
  destruct (_ || _); [|discriminate].
  destruct (assoc country COUNTRY_CODES) as [code|] eqn:E; [|discriminate].
  destruct (mem code STANDARD_COLUMN_ORDER); [|discriminate].
  destruct (registry_column _ _ E) as (i & Hi & Hr). congruence.
Qed.

Lemma simple_tier_range (member_name : string) (idx : nat) :
  simple_tier member_name = Some idx -> (1 <= idx < 41)%nat.
Proof.
  intros H. apply first_some_elem in H as (country & _ & H).
  unfold simple_tier_step in H.
  destruct (assoc country COUNTRY_CODES) as [code|] eqn:E; [|discriminate].
  destruct (String.eqb _ _); [|discriminate].
  destruct (mem code STANDARD_COLUMN_ORDER); [|discriminate].
  destruct (registry_column _ _ E) as (i & Hi & Hr). congruence.
Qed.

(** A resolved record lands in one of the forty country columns. *)
Lemma resolve_range (member_name member_code : string) (idx : nat) :
  resolve member_name member_code = Some idx -> (1 <= idx < 41)%nat.
Proof.
  unfold resolve.
  destruct (code_tier member_code) as [i|] eqn:E1.
  { intros [= <-]. eapply code_tier_range, E1. }
  destruct (alias_tier member_name) as [i|] eqn:E2.
  { intros [= <-]. eapply alias_tier_range, E2. }
  apply simple_tier_range.
Qed.

Lemma process_row_store (data_row : list cell) (row : Row) :
  process_row data_row row = Ret (store data_row (contribution row)).
Proof.
  unfold process_row, contribution, store.
  destruct (parse_amount_total (strip (str (Amount row)))) as [a ->].
  simpl. destruct a as [a|]; [|reflexivity].
  destruct (resolve _ _); reflexivity.
Qed.

Lemma for_rows_store (rows : list Row) (data_row : list cell) :
  for_rows data_row rows = Ret (foldl (fun d r => store d (contribution r)) data_row rows).
Proof.
  revert data_row. induction rows as [|r rows IH]; intros d; simpl; [reflexivity|].
  rewrite process_row_store. simpl. apply IH.
Qed.

Lemma store_length (data_row : list cell) (c : option (nat * pyfloat)) :
  List.length (store data_row c) = List.length data_row.
Proof. destruct c as [[i a]|]; simpl; [apply length_insert | reflexivity]. Qed.

Lemma foldl_store_length (rows : list Row) (data_row : list cell) :
  List.length (foldl (fun d r => store d (contribution r)) data_row rows)
  = List.length data_row.
Proof.
  revert data_row. induction rows as [|r rows IH]; intros d; simpl; [reflexivity|].
  rewrite IH. apply store_length.
Qed.

(** Rows that do not write column [idx] leave it as it is. *)
Lemma foldl_store_other (rows : list Row) (data_row : list cell) (idx : nat) :
  (forall r, r ∈ rows -> fst <$> contribution r ≠ Some idx) ->
  foldl (fun d r => store d (contribution r)) data_row rows !! idx = data_row !! idx.
Proof.
  revert data_row. induction rows as [|r rows IH]; intros d H; simpl; [reflexivity|].
  rewrite IH by (intros r' Hr'; apply H; now right).
  specialize (H r (list_elem_of_here _ _)).
  destruct (contribution r) as [[i a]|]; simpl in *; [|reflexivity].
  apply list_lookup_insert_ne. congruence.
Qed.

(* ===================================================================== *)
(** ** Country Resolver: the code tier (C1) and the bare names (C10)      *)
(* ===================================================================== *)

(** The code tier on the codes that are the first three letters of their
    country's name: the column of the country, whatever the member name. *)
Lemma code_tier_prefix_codes (member_name member_code : string) :
  upper member_code ∈ prefix_codes ->
  code_tier member_code = index (output_code (upper member_code)) STANDARD_COLUMN_ORDER
  /\ resolve member_name member_code = code_tier member_code
  /\ is_Some (code_tier member_code).
Proof.
  unfold resolve, code_tier, code_tier_step.
  generalize (upper member_code). intros u Hu.
  each_member Hu; vm_compute; (split; [reflexivity | split; [reflexivity | eauto]]).
Qed.

(** The example of the specification. *)
Lemma code_tier_FRA :
  code_tier "FRA" = Some 11%nat
  /\ resolve "Banque de France" "FRA" = Some 11%nat
  /\ column_code 11 = Some "NABIMFD.FRA.M"
  /\ alias_tier "Banque de France" = None
  /\ simple_tier "Banque de France" = None.
Proof. vm_compute. repeat split. Qed.

(** C1 (the code at the inputs where it departs from the claim): a member
    code among AUT, CHL, CHN, DNK, DEU, GRC, IRL, JPN, KWT, MYS, NLD, NZL,
    PHL, PRT, SGP, ZAF, ESP, CHE, GBR, USA is never matched by the code
    tier, because the tier first compares the code with the first three
    letters of a country name; the record is then resolved by its name
    alone, and is unmapped when the name matches no alias and no simple
    name. *)
Theorem C1_code_tier_misses (member_name member_code : string) :
  upper member_code ∈ missed_codes ->
  code_tier member_code = None
  /\ resolve member_name member_code
     = match alias_tier member_name with
       | Some idx => Some idx
       | None => simple_tier member_name
       end.
Proof.
  unfold resolve, code_tier, code_tier_step.
  generalize (upper member_code). intros u Hu.
  each_member Hu; vm_compute first_some at 1; split; reflexivity.
Qed.

Lemma C1_code_tier_misses_witness :
  upper "DEU" ∈ missed_codes
  /\ code_tier "DEU" = None
  /\ resolve "Deutsche Bundesbank" "DEU" = None.
Proof.
  assert (H : upper "DEU" ∈ missed_codes) by (vm_compute; repeat constructor).
  split; [exact H|].
  destruct (C1_code_tier_misses "Deutsche Bundesbank" "DEU" H) as [H1 H2].
  split; [exact H1|]. rewrite H2. vm_compute. reflexivity.
Defined.

(** C10: a record whose member code is missing and whose member name is
    the bare name Hong Kong, Chile, Denmark, Germany, Israel, Netherlands,
    Philippines, Poland, Portugal, Sweden or Switzerland matches no tier,
    and the loop leaves the data row as it was. *)
Theorem C10_bare_names_unmapped (name : string) (row : Row) (data_row : list cell) :
  name ∈ bare_names ->
  Member row = Some name ->
  Member_Code row = None \/ Member_Code row = Some EmptyString ->
  code_tier EmptyString = None /\ alias_tier name = None /\ simple_tier name = None
  /\ resolve name EmptyString = None
  /\ contribution row = None
  /\ process_row data_row row = Ret data_row.
Proof.
  intros Hn Hm Hc.
  assert (Hs : strip name = name /\ alias_tier name = None /\ simple_tier name = None
               /\ resolve name EmptyString = None).
  { clear Hm. each_member Hn; vm_compute; repeat split. }
  destruct Hs as (Hs & Ha & Hsi & Hr).
  assert (Hcontr : contribution row = None).
  { unfold contribution. rewrite Hm.
    assert (Hcode : (if notna (Member_Code row) then strip (str (Member_Code row))
                     else EmptyString) = EmptyString)
      by (destruct Hc as [-> | ->]; reflexivity).
    rewrite Hcode. simpl. rewrite Hs, Hr.
    destruct (parse_amount _) as [[a|]|]; reflexivity. }
  split; [vm_compute; reflexivity|].
  do 4 (split; [assumption|]).
  rewrite process_row_store, Hcontr. reflexivity.
Qed.

Lemma C10_bare_names_unmapped_witness :
  let row := mkRow (Some "Germany") None None (Some "New Arrangement to Borrow")
                   None None None (Some "1,000") None None None in
  "Germany" ∈ bare_names
  /\ process_row (initial_data_row "2025-06") row = Ret (initial_data_row "2025-06").
Proof.
  intros row.
  assert (H : "Germany" ∈ bare_names) by (vm_compute; repeat constructor).
  split; [exact H|].
  apply (C10_bare_names_unmapped "Germany" row (initial_data_row "2025-06") H eq_refl).
  left. reflexivity.
Defined.

(* ===================================================================== *)
(** ** CountryRegistry (C5)                                               *)
(* ===================================================================== *)

(** C5, as stated, fails: "Russian Federation" and "Russia" are two
    entries of the registry with the one code NABIMFD.RUS.M. *)
Lemma C5_codes_not_unique : ~ codes_unique COUNTRY_CODES.
Proof.
  intros H.
  specialize (H "Russian Federation" "Russia" "NABIMFD.RUS.M").
  assert (E : "Russian Federation" = "Russia"); [|discriminate E].
  apply H; apply list_elem_of_In; vm_compute; tauto.
Qed.

Lemma mem_elem (x : string) (l : list string) : mem x l = true -> x ∈ l.
Proof.
  unfold mem. rewrite existsb_exists. intros (y & Hy & E).
  apply String.eqb_eq in E. subst. now apply list_elem_of_In.
Qed.

Lemma elem_mem (x : string) (l : list string) : x ∈ l -> mem x l = true.
Proof.
  intros H. unfold mem. rewrite existsb_exists. exists x.
  split; [now apply list_elem_of_In | apply String.eqb_refl].
Qed.

Lemma registry_pairs (n1 n2 c : string) :
  (n1, c) ∈ COUNTRY_CODES ->
  (n2, c) ∈ COUNTRY_CODES ->
  n1 = n2
  \/ (c = "NABIMFD.RUS.M"
      /\ n1 ∈ ["Russian Federation"; "Russia"]
      /\ n2 ∈ ["Russian Federation"; "Russia"]).
Proof.
  intros H1 H2.
  assert (Hall : forallb (fun e1 => forallb (same_code_ok e1) COUNTRY_CODES)
                         COUNTRY_CODES = true)
    by (vm_compute; reflexivity).
  rewrite forallb_forall in Hall.
  apply list_elem_of_In in H1, H2.
  specialize (Hall _ H1).
  rewrite forallb_forall in Hall. specialize (Hall _ H2).
  unfold same_code_ok in Hall. simpl in Hall.
  rewrite String.eqb_refl in Hall. simpl in Hall.
  apply orb_prop in Hall as [E | E].
  - left. now apply String.eqb_eq.
  - right. apply andb_prop in E as [E E2]. apply andb_prop in E as [E0 E1].
    apply String.eqb_eq in E0. auto using mem_elem.
Qed.

(** C5, amended: the registry has 41 entries with 41 distinct names; two
    entries with the same output code have the same name, except that
    "Russian Federation" and "Russia", both entries, share NABIMFD.RUS.M;
    so the entries carry 40 distinct codes, and these are exactly the 40
    country columns of the column order, each of which is the code of an
    entry. *)
Theorem C5_codes_unique_up_to_Russia :
  List.length COUNTRY_CODES = 41%nat
  /\ NoDup (fst <$> COUNTRY_CODES)
  /\ (forall n1 n2 c,
        (n1, c) ∈ COUNTRY_CODES -> (n2, c) ∈ COUNTRY_CODES ->
        n1 = n2
        \/ (c = "NABIMFD.RUS.M"
            /\ n1 ∈ ["Russian Federation"; "Russia"]
            /\ n2 ∈ ["Russian Federation"; "Russia"]))
  /\ ("Russian Federation", "NABIMFD.RUS.M") ∈ COUNTRY_CODES
  /\ ("Russia", "NABIMFD.RUS.M") ∈ COUNTRY_CODES
  /\ List.length (remove_dups (snd <$> COUNTRY_CODES)) = 40%nat
  /\ List.length (drop 1 STANDARD_COLUMN_ORDER) = 40%nat
  /\ NoDup (drop 1 STANDARD_COLUMN_ORDER)
  /\ (forall c, c ∈ drop 1 STANDARD_COLUMN_ORDER
                <-> exists n, (n, c) ∈ COUNTRY_CODES).
Proof.
  split; [reflexivity|].
  split; [apply (bool_decide_unpack _); vm_compute; exact I|].
  split; [exact registry_pairs|].
  split; [apply list_elem_of_In; vm_compute; tauto|].
  split; [apply list_elem_of_In; vm_compute; tauto|].
  split; [vm_compute; reflexivity|].
  split; [reflexivity|].
  split; [apply (bool_decide_unpack _); vm_compute; exact I|].
  intros c. split.
  - intros H.
    assert (Hall : forallb (fun c' => mem c' (snd <$> COUNTRY_CODES))
                           (drop 1 STANDARD_COLUMN_ORDER) = true)
      by (vm_compute; reflexivity).
    rewrite forallb_forall in Hall. apply list_elem_of_In in H.
    apply Hall, mem_elem, list_elem_of_fmap in H as ([n c'] & -> & Hin).
    now exists n.
  - intros [n H].
    assert (Hall : forallb (fun e => mem (snd e) (drop 1 STANDARD_COLUMN_ORDER))
                           COUNTRY_CODES = true)
      by (vm_compute; reflexivity).
    rewrite forallb_forall in Hall. apply list_elem_of_In in H.
    apply Hall in H. now apply mem_elem in H.
Qed.

(* ===================================================================== *)
(** ** Texts: concatenation, whitespace, occurrences                      *)
(* ===================================================================== *)

Lemma append_assoc (a b c : string) : (a +:+ b) +:+ c = a +:+ b +:+ c.
Proof. induction a as [|x a IH]; simpl; congruence. Qed.

Lemma append_nil_r (a : string) : a +:+ EmptyString = a.
Proof. induction a as [|x a IH]; simpl; congruence. Qed.


Lemma lstrip_all_space (w s : string) :
  all_space w = true -> lstrip (w +:+ s) = lstrip s.
Proof.
  induction w as [|c w IH]; simpl; [reflexivity|].
  intros H. apply andb_prop in H as [Hc Hw]. rewrite Hc. auto.
Qed.

Lemma lstrip_all_space_nil (w : string) : all_space w = true -> lstrip w = EmptyString.
Proof.
  induction w as [|c w IH]; simpl; [reflexivity|].
  intros H. apply andb_prop in H as [Hc Hw]. rewrite Hc. auto.
Qed.

Lemma rstrip_all_space_nil (w : string) : all_space w = true -> rstrip w = EmptyString.
Proof.
  induction w as [|c w IH]; simpl; [reflexivity|].
  intros H. apply andb_prop in H as [Hc Hw]. rewrite Hc, (IH Hw). reflexivity.
Qed.

Lemma rstrip_all_space (s w : string) :
  all_space w = true -> rstrip (s +:+ w) = rstrip s.
Proof.
  intros Hw. induction s as [|c s IH]; simpl.
  - now apply rstrip_all_space_nil.
  - now rewrite IH.
Qed.

Lemma lstrip_app (s w : string) :
  lstrip (s +:+ w) = if is_empty (lstrip s) then lstrip w else lstrip s +:+ w.
Proof.
  induction s as [|c s IH]; simpl; [reflexivity|].
  destruct (isspace c); [assumption | reflexivity].
Qed.

(** Whitespace around the raw text does not count. *)
Lemma strip_surrounding (w1 s w2 : string) :
  all_space w1 = true -> all_space w2 = true ->
  strip (w1 +:+ s +:+ w2) = strip s.
Proof.
  intros H1 H2. unfold strip. rewrite lstrip_all_space by assumption.
  rewrite lstrip_app. destruct (lstrip s) as [|c t] eqn:E; simpl.
  - now rewrite lstrip_all_space_nil.
  - change (String c (t +:+ w2)) with (String c t +:+ w2).
    now rewrite rstrip_all_space.
Qed.

Lemma substring_refl (s : string) : substring s s.
Proof. exists EmptyString, EmptyString. simpl. now rewrite append_nil_r. Qed.

Lemma substring_trans (a b c : string) : substring a b -> substring b c -> substring a c.
Proof.
  intros (x & y & ->) (x' & y' & ->). exists (x' +:+ x), (y +:+ y').
  now rewrite !append_assoc.
Qed.

Lemma substring_prefix (c rest : string) : substring c (c +:+ rest).
Proof. exists EmptyString, rest. reflexivity. Qed.

Lemma substring_app_l (t a s : string) : substring t s -> substring t (a +:+ s).
Proof. intros (x & y & ->). exists (a +:+ x), y. now rewrite append_assoc. Qed.

Lemma substring_app_r (t s b : string) : substring t s -> substring t (s +:+ b).
Proof. intros (x & y & ->). exists x, (y +:+ b). now rewrite !append_assoc. Qed.

Lemma lstrip_suffix (t : string) : exists a, t = a +:+ lstrip t.
Proof.
  induction t as [|c t [a IH]]; simpl; [now exists EmptyString|].
  destruct (isspace c).
  - exists (String c a). simpl. congruence.
  - now exists EmptyString.
Qed.

Lemma rstrip_prefix (t : string) : exists b, t = rstrip t +:+ b.
Proof.
  induction t as [|c t [b IH]]; simpl; [now exists EmptyString|].
  destruct (isspace c && is_empty (rstrip t)).
  - now exists (String c t).
  - exists b. simpl. congruence.
Qed.

Lemma strip_substring (t : string) : substring (strip t) t.
Proof.
  unfold strip. destruct (lstrip_suffix t) as [a Ha].
  destruct (rstrip_prefix (lstrip t)) as [b Hb].
  exists a, b. now rewrite <- Hb.
Qed.

Lemma all_space_app (a b : string) :
  all_space (a +:+ b) = all_space a && all_space b.
Proof.
  induction a as [|c a IH]; simpl; [reflexivity|].
  now rewrite IH, andb_assoc.
Qed.

(** What [lstrip] and [rstrip] cut away is whitespace. *)
Lemma lstrip_split (t : string) :
  exists a, all_space a = true /\ t = a +:+ lstrip t.
Proof.
  induction t as [|c t (a & Ha & IH)]; simpl; [now exists EmptyString|].
  destruct (isspace c) eqn:E.
  - exists (String c a). simpl. rewrite E, Ha. split; [reflexivity | congruence].
  - now exists EmptyString.
Qed.

Lemma rstrip_split (t : string) :
  exists b, all_space b = true /\ t = rstrip t +:+ b.
Proof.
  induction t as [|c t (b & Hb & IH)]; simpl; [now exists EmptyString|].
  destruct (isspace c && is_empty (rstrip t)) eqn:E.
  - exists (String c t). split; [|reflexivity].
    apply andb_prop in E as [Ec Et]. simpl. rewrite Ec.
    destruct (rstrip t); [|discriminate]. simpl in IH. now subst.
  - exists b. simpl. split; [assumption | congruence].
Qed.

Lemma strip_split (t : string) :
  exists a b, all_space a = true /\ all_space b = true /\ t = a +:+ strip t +:+ b.
Proof.
  unfold strip. destruct (lstrip_split t) as (a & Ha & Et).
  destruct (rstrip_split (lstrip t)) as (b & Hb & Eb).
  exists a, b. split; [assumption|]. split; [assumption|]. now rewrite <- Eb.
Qed.

(** [s.strip() == lit] for a literal that whitespace neither begins nor
    ends: [s] is the literal between two runs of whitespace. *)
Lemma strip_eq_iff (lit s : string) :
  strip lit = lit ->
  strip s = lit <->
  exists w1 w2, all_space w1 = true /\ all_space w2 = true /\ s = w1 +:+ lit +:+ w2.
Proof.
  intros Hlit. split.
  - intros E. destruct (strip_split s) as (a & b & Ha & Hb & Es).
    exists a, b. now rewrite <- E.
  - intros (w1 & w2 & H1 & H2 & ->). now rewrite strip_surrounding.
Qed.

Lemma startswith_prefix (p s : string) :
  startswith p s = true <-> exists b, s = p +:+ b.
Proof.
  revert s. induction p as [|c p IH]; intros s; simpl.
  - split; [now exists s | reflexivity].
  - destruct s as [|d s]; [split; [discriminate | intros [b E]; discriminate]|].
    rewrite andb_true_iff, Ascii.eqb_eq, IH. split.
    + intros [-> [b ->]]. now exists b.
    + intros [b E]. injection E as -> ->. split; [reflexivity | now exists b].
Qed.

(** [sub in s] *)
Lemma contains_substring (sub s : string) :
  contains sub s = true <-> substring sub s.
Proof.
  induction s as [|c s IH].
  - cbn [contains]. rewrite orb_false_r, startswith_prefix. split.
    + intros [b E]. now exists EmptyString, b.
    + intros (a & b & E). destruct a; [now exists b | discriminate].
  - cbn [contains]. rewrite orb_true_iff, startswith_prefix, IH. split.
    + intros [[b E] | (a & b & E)].
      * now exists EmptyString, b.
      * exists (String c a), b. simpl. now rewrite E.
    + intros (a & b & E). destruct a as [|d a].
      * left. now exists b.
      * right. injection E as -> E. now exists a, b.
Qed.

(* ===================================================================== *)
(** ** Record Filter (C9, C4)                                             *)
(* ===================================================================== *)

Lemma strip_facility_filter : strip facility_filter = facility_filter.
Proof. reflexivity. Qed.

(** The test of the filter on one row, without [strip]. *)
Lemma keep_facility_iff (r : Row) :
  keep_facility r = true <->
  exists w1 w2, all_space w1 = true /\ all_space w2 = true
                /\ Facility r = Some (w1 +:+ "New Arrangement to Borrow" +:+ w2).
Proof.
  unfold keep_facility. destruct (Facility r) as [f|].
  - rewrite String.eqb_eq, (strip_eq_iff _ _ strip_facility_filter). split.
    + intros (w1 & w2 & H1 & H2 & ->). now exists w1, w2.
    + intros (w1 & w2 & H1 & H2 & [= ->]). now exists w1, w2.
  - split; [discriminate | intros (? & ? & _ & _ & E); discriminate].
Qed.

(** The test of the header-row removal on one row, without [contains]. *)
Lemma header_like_iff (r : Row) :
  header_like r = false <->
  forall m, Member r = Some m -> ~ substring "Member" m.
Proof.
  unfold header_like. destruct (Member r) as [m|].
  - rewrite <- not_true_iff_false, contains_substring. split.
    + intros H m' [= <-]. exact H.
    + intros H. now apply H.
  - split; [discriminate | reflexivity].
Qed.

Lemma complete_iff (r : Row) :
  complete r = true <->
  (exists m, Member r = Some m) /\ (exists f, Facility r = Some f)
  /\ (exists a, Amount r = Some a).
Proof.
  unfold complete. rewrite !andb_true_iff.
  destruct (Member r), (Facility r), (Amount r); simpl; split;
    try (intros [[? ?] ?]; discriminate);
    try (intros ([? ?] & [? ?] & [? ?]); discriminate);
    eauto 7.
Qed.

(** Lines 150-159 on a frame whose two columns hold text. *)
Lemma filter_stage_text (df : Frame) :
  member_str df = true -> facility_str df = true ->
  filter_stage df
  = Ret (filter (fun r => keep_facility r = true)
          (filter (fun r => header_like r = false)
            (filter (fun r => complete r = true) (rows df)))).
Proof.
  intros Hm Hf. unfold filter_stage, clean, drop_header_rows, dropna, filtered.
  cbn [member_str facility_str rows]. rewrite Hm. cbn. now rewrite Hf.
Qed.

(** ... and on a frame one of whose two columns holds no text. *)
Lemma filter_stage_no_text (df : Frame) :
  member_str df && facility_str df = false ->
  filter_stage df = Raise "AttributeError".
Proof.
  intros H. unfold filter_stage, clean, drop_header_rows, dropna, filtered.
  cbn [member_str facility_str rows].
  destruct (member_str df); [|reflexivity]. cbn.
  destruct (facility_str df); [discriminate | reflexivity].
Qed.

Lemma filter_stage_returns (df : Frame) (filtered_df : list Row) :
  filter_stage df = Ret filtered_df ->
  member_str df = true /\ facility_str df = true.
Proof.
  intros H. destruct (member_str df && facility_str df) eqn:E.
  - now apply andb_prop in E.
  - rewrite (filter_stage_no_text df E) in H. discriminate.
Qed.

(** C9: on a frame whose facility column holds text, the filter keeps
    exactly the rows whose facility is "New Arrangement to Borrow" between
    two runs of whitespace (either may be empty), in their order; a
    facility with trailing spaces, with leading blanks or with a no-break
    space after it is kept, and "Stand-By Arrangement" is excluded. *)
Theorem C9_filter_exact (df : Frame) :
  facility_str df = true ->
  exists filtered_df,
    filtered df = Ret filtered_df
    /\ (forall r, r ∈ filtered_df <->
          r ∈ rows df
          /\ exists w1 w2, all_space w1 = true /\ all_space w2 = true
               /\ Facility r = Some (w1 +:+ "New Arrangement to Borrow" +:+ w2))
    /\ filtered_df `sublist_of` rows df
    /\ (forall m c a f,
          f ∈ ["New Arrangement to Borrow  "; "  New Arrangement to Borrow";
               String "009" "New Arrangement to Borrow" +:+ String "160" EmptyString] ->
          let r := mkRow m c None (Some f) None None None a None None None in
          filtered (mkFrame [r] (member_str df) true) = Ret [r])
    /\ (forall m c a,
          filtered (mkFrame [mkRow m c None (Some "Stand-By Arrangement")
                                   None None None a None None None]
                            (member_str df) true) = Ret []).
Proof.
  intros Hf. eexists. split; [unfold filtered; rewrite Hf; reflexivity|].
  split; [|split; [|split]].
  - intros r. rewrite list_elem_of_filter, keep_facility_iff. tauto.
  - apply sublist_filter.
  - intros m c a f H r. subst r.
    apply elem_of_cons in H as [-> | H]; [reflexivity|].
    apply elem_of_cons in H as [-> | H]; [reflexivity|].
    apply elem_of_cons in H as [-> | H]; [reflexivity|].
    now apply elem_of_nil in H.
  - intros. reflexivity.
Qed.

Lemma C9_filter_exact_witness :
  let kept := mkRow (Some "France") (Some "FRA") None (Some "  New Arrangement to Borrow  ")
                    None None None (Some "500,000") None None None in
  let other := mkRow (Some "Stand-By Co.") None None (Some "Stand-By Arrangement")
                     None None None (Some "999") None None None in
  filtered (mkFrame [kept; other] true true) = Ret [kept].
Proof.
  intros kept other.
  destruct (C9_filter_exact (mkFrame [kept; other] true true) eq_refl)
    as (l & Hl & _).
  rewrite Hl. unfold filtered in Hl. cbn in Hl. injection Hl as <-. reflexivity.
Defined.

(** C4, as stated, fails: a row of the New Arrangement to Borrow whose
    amount is missing is removed by [dropna] before the filter, not at
    the mapping stage. *)
Lemma C4_missing_amount_dropped_early :
  let r := nab_row (Some "France") (Some "FRA") None in
  let df := mkFrame [r] true true in
  keep_facility r = true
  /\ filter_stage df = Ret []
  /\ ~ (forall df' r', r' ∈ rows df' -> keep_facility r' = true ->
                       survives_filter_stage df' r').
Proof.
  intros r df. split; [reflexivity|]. split; [reflexivity|].
  intros H. specialize (H df r (list_elem_of_here _ _) eq_refl).
  destruct H as (l & Hl & Hin). vm_compute in Hl. injection Hl as <-.
  inversion Hin.
Qed.

(** C4, amended: on a frame whose member and facility columns hold text,
    the rows of [filtered_df] are exactly the rows of the frame read whose
    member, facility and amount cells are all present, whose member does
    not contain "Member", and whose facility is "New Arrangement to
    Borrow" between whitespace. What the amount cell holds plays no part:
    a row with an amount that does not parse is in [filtered_df], and it
    is the loop of the mapping stage that passes over it. *)
Theorem C4_amount_not_filtered (df : Frame) :
  member_str df = true ->
  facility_str df = true ->
  exists filtered_df,
    filter_stage df = Ret filtered_df
    /\ (forall r, r ∈ filtered_df <->
          r ∈ rows df
          /\ (exists m, Member r = Some m /\ ~ substring "Member" m)
          /\ (exists a, Amount r = Some a)
          /\ (exists w1 w2, all_space w1 = true /\ all_space w2 = true
                /\ Facility r = Some (w1 +:+ "New Arrangement to Borrow" +:+ w2)))
    /\ (forall r a, r ∈ filtered_df -> Amount r = Some a ->
          parse_amount (strip a) = Ret None ->
          forall data_row, process_row data_row r = Ret data_row).
Proof.
  intros Hm Hf. eexists. split; [now apply filter_stage_text|]. split.
  - intros r. rewrite !list_elem_of_filter, keep_facility_iff, header_like_iff, complete_iff.
    split.
    + intros (Hk & Hh & (([m Em] & _ & Ha) & Hin)).
      split; [assumption|]. split; [|split; assumption].
      exists m. split; [assumption|]. now apply Hh.
    + intros (Hin & (m & Em & Hs) & Ha & Hk).
      split; [assumption|]. split.
      * intros m' E. rewrite Em in E. now injection E as <-.
      * split; [|assumption]. split; [now exists m|]. split; [|assumption].
        destruct Hk as (w1 & w2 & _ & _ & E). eauto.
  - intros r a _ Ha Hp data_row. rewrite process_row_store. unfold contribution.
    rewrite Ha. simpl. rewrite Hp. reflexivity.
Qed.

Lemma C4_amount_not_filtered_witness :
  let r := nab_row (Some "France") (Some "FRA") (Some "abc") in
  survives_filter_stage (mkFrame [r] true true) r
  /\ process_row (initial_data_row "2025-06") r = Ret (initial_data_row "2025-06").
Proof.
  intros r.
  destruct (C4_amount_not_filtered (mkFrame [r] true true) eq_refl eq_refl)
    as (l & Hl & Hiff & Hloop).
  assert (Hin : r ∈ l).
  { apply Hiff. split; [apply list_elem_of_here|].
    split; [exists "France"; split; [reflexivity|]|].
    - rewrite <- contains_substring. discriminate.
    - split; [now exists "abc"|].
      exists EmptyString, EmptyString. repeat split. }
  split; [now exists l|].
  apply (Hloop r "abc" Hin eq_refl). vm_compute. reflexivity.
Defined.

(* ===================================================================== *)
(** ** Table Builder (C7)                                                 *)
(* ===================================================================== *)

Import DateExtractor MapPy.

Lemma extract_date_total (now : string) (file : Exc string) :
  exists d, extract_date_from_tsv_file now file = Ret d.
Proof. apply catch_ret_total. Qed.

Lemma initial_data_row_length (report_date : string) :
  List.length (initial_data_row report_date) = 41%nat.
Proof. reflexivity. Qed.

(** The table of a run whose [read_csv] returns a frame that passes the
    filter stage: the two header rows and the data row filled by the
    loop. *)
Lemma build_rows (w : World) (df : Frame) (filtered_df : list Row) :
  read_csv w = Ret df ->
  filter_stage df = Ret filtered_df ->
  exists report_date,
    extract_date_from_tsv_file (now w) (file_text w) = Ret report_date
    /\ build w = Ret [header_row_1; header_row_2;
                      foldl (fun d r => store d (contribution r))
                            (initial_data_row report_date) filtered_df].
Proof.
  intros Hr Hf. destruct (extract_date_total (now w) (file_text w)) as [d Hd].
  exists d. split; [assumption|].
  unfold build. rewrite Hd, Hr. cbn [mbind Exc_bind bind]. rewrite Hf.
  cbn [mbind Exc_bind bind]. rewrite for_rows_store. reflexivity.
Qed.

(** A run whose frame does not pass the filter stage builds no table. *)
Lemma build_no_text (w : World) (df : Frame) :
  read_csv w = Ret df ->
  member_str df && facility_str df = false ->
  build w = Raise "AttributeError".
Proof.
  intros Hr Hf. destruct (extract_date_total (now w) (file_text w)) as [d Hd].
  unfold build. rewrite Hd, Hr. cbn [mbind Exc_bind bind].
  now rewrite (filter_stage_no_text df Hf).
Qed.

(** C7: when two rows of [filtered_df] resolve to the same column, and no
    later row does, row 3 of the table holds in that column the amount of
    the later of the two. *)
Theorem C7_last_write_wins (w : World) (df : Frame) (pre mid post : list Row) (r1 r2 : Row)
        (idx : nat) (a1 a2 : pyfloat) :
  read_csv w = Ret df ->
  filter_stage df = Ret (pre ++ r1 :: mid ++ r2 :: post) ->
  contribution r1 = Some (idx, a1) ->
  contribution r2 = Some (idx, a2) ->
  (forall r, r ∈ post -> fst <$> contribution r ≠ Some idx) ->
  exists data_row,
    build w = Ret [header_row_1; header_row_2; data_row]
    /\ data_row !! idx = Some (CNum a2)
    /\ STANDARD_COLUMN_ORDER !! idx <> None.
Proof.
  intros Hr Hf H1 H2 Hpost.
  destruct (build_rows w df _ Hr Hf) as (d & _ & Hb).
  eexists. split; [exact Hb|].
  assert (Hidx : (1 <= idx < 41)%nat).
  { unfold contribution in H2.
    destruct (parse_amount _) as [[a|]|]; try discriminate.
    destruct (resolve _ _) as [i|] eqn:E; [|discriminate].
    injection H2 as -> _. eapply resolve_range, E. }
  split.
  - replace (pre ++ r1 :: mid ++ r2 :: post) with ((pre ++ r1 :: mid) ++ r2 :: post)
      by (rewrite <- app_assoc; reflexivity).
    rewrite foldl_app. simpl. rewrite foldl_store_other by assumption.
    rewrite H2. simpl. apply list_lookup_insert_eq.
    rewrite foldl_store_length, initial_data_row_length. lia.
  - intros E. apply lookup_ge_None in E. simpl in E. lia.
Qed.

Lemma C7_last_write_wins_witness :
  let r1 := nab_row (Some "France") (Some "FRA") (Some "100") in
  let r2 := nab_row (Some "Banque de France") (Some "FRA") (Some "2,500") in
  let w := mkWorld true (Ret "As of: June 30, 2025") (Ret "As of: June 30, 2025")
                   (Ret (mkFrame [r1; r2] true true)) "2026-11" (Ret ()) in
  exists data_row,
    build w = Ret [header_row_1; header_row_2; data_row]
    /\ data_row !! 11%nat = Some (CNum (Binary64.of_N 2500))
    /\ STANDARD_COLUMN_ORDER !! 11%nat <> None.
Proof.
  intros r1 r2 w.
  apply (C7_last_write_wins w (mkFrame [r1; r2] true true) [] [] [] r1 r2 11
           (Binary64.of_N 100) (Binary64.of_N 2500)).
  - reflexivity.
  - vm_compute. reflexivity.
  - vm_compute. reflexivity.
  - vm_compute. reflexivity.
  - intros r Hr. apply elem_of_nil in Hr. destruct Hr.
Defined.

(* ===================================================================== *)
(** ** Amount Parser (C8)                                                 *)
(* ===================================================================== *)

(** Reading back the decimal writing of a number. *)
Lemma digits_go_pos (d : Decimal.uint) (acc : positive) (k : nat) :
  PyFloat.digits_go (Npos acc) k (NilEmpty.string_of_uint d)
  = (Npos (Pos.of_uint_acc d acc), (k + String.length (NilEmpty.string_of_uint d))%nat, EmptyString).
Proof.
  revert acc k.
  induction d; intros acc k;
    cbn [NilEmpty.string_of_uint PyFloat.digits_go String.length Pos.of_uint_acc];
    try (change (isdigit _) with true; cbv iota;
         match goal with
         | |- PyFloat.digits_go ?x _ _ = _ =>
             match goal with
             | |- context [Pos.of_uint_acc _ ?a] =>
                 replace x with (Npos a) by (unfold PyFloat.digit_val; simpl; lia)
             end
         end;
         rewrite IHd; do 2 f_equal; lia).
  do 2 f_equal. lia.
Qed.

Lemma digits_go_uint (d : Decimal.uint) (k : nat) :
  PyFloat.digits_go 0 k (NilEmpty.string_of_uint d)
  = (Pos.of_uint d, (k + String.length (NilEmpty.string_of_uint d))%nat, EmptyString).
Proof.
  revert k.
  induction d; intros k; cbn [NilEmpty.string_of_uint PyFloat.digits_go String.length Pos.of_uint];
    try (change (isdigit _) with true; cbv iota;
         change (10 * 0 + PyFloat.digit_val _)%N with 0%N
         || (match goal with
             | |- PyFloat.digits_go ?x _ _ = _ =>
                 let v := eval vm_compute in x in change x with v
             end;
             rewrite digits_go_pos);
         try rewrite IHd; do 2 f_equal; lia).
  do 2 f_equal. lia.
Qed.

Lemma digit_facts (c : ascii) :
  isdigit c = true ->
  isspace c = false /\ Ascii.eqb "," c = false /\ Ascii.eqb " " c = false
  /\ Ascii.eqb c "_" = false /\ to_lower c = c
  /\ (forall s, PyFloat.sign (String c s) = (false, String c s))
  /\ Ascii.eqb c "." = false /\ Ascii.eqb c "e" = false /\ Ascii.eqb c "E" = false
  /\ PyFloat.float_space c = false.
Proof.
  destruct c as [[] [] [] [] [] [] [] []]; vm_compute; intros H;
    try discriminate H; repeat split.
Qed.

Lemma all_digits_uint (d : Decimal.uint) :
  all_digits (NilEmpty.string_of_uint d) = true.
Proof. induction d; simpl; auto. Qed.

Lemma lstrip_digits (s : string) : all_digits s = true -> lstrip s = s.
Proof.
  destruct s as [|c s]; simpl; [reflexivity|].
  intros H. apply andb_prop in H as [Hc _].
  destruct (digit_facts c Hc) as (-> & _). reflexivity.
Qed.

Lemma rstrip_digits (s : string) : all_digits s = true -> rstrip s = s.
Proof.
  induction s as [|c s IH]; simpl; [reflexivity|].
  intros H. apply andb_prop in H as [Hc Hs].
  destruct (digit_facts c Hc) as (-> & _). simpl. now rewrite IH.
Qed.

Lemma remove_char_digits (c0 : ascii) (s : string) :
  isdigit c0 = false -> all_digits s = true -> remove_char c0 s = s.
Proof.
  intros H0. induction s as [|c s IH]; simpl; [reflexivity|].
  intros H. apply andb_prop in H as [Hc Hs].
  destruct (Ascii.eqb_spec c0 c) as [->|_]; [congruence|]. now rewrite IH.
Qed.

Lemma lower_digits (s : string) : all_digits s = true -> lower s = s.
Proof.
  unfold lower. induction s as [|c s IH]; simpl; [reflexivity|].
  intros H. apply andb_prop in H as [Hc Hs].
  destruct (digit_facts c Hc) as (_ & _ & _ & _ & -> & _). now rewrite IH.
Qed.

Lemma underscores_digits (s : string) (prev : ascii) :
  Ascii.eqb prev "_" = false -> all_digits s = true ->
  PyFloat.underscores prev s = Some s.
Proof.
  revert prev. induction s as [|c s IH]; simpl; intros prev Hp.
  - now rewrite Hp.
  - intros H. apply andb_prop in H as [Hc Hs].
    destruct (digit_facts c Hc) as (_ & _ & _ & F & _).
    rewrite F, Hc, andb_false_r. now rewrite (IH c F Hs).
Qed.

Lemma lskip_digits (s : string) : all_digits s = true -> PyFloat.lskip s = s.
Proof.
  destruct s as [|c s]; simpl; [reflexivity|].
  intros H. apply andb_prop in H as [Hc _].
  destruct (digit_facts c Hc) as (_ & _ & _ & _ & _ & _ & _ & _ & _ & ->). reflexivity.
Qed.

Lemma rskip_digits (s : string) : all_digits s = true -> PyFloat.rskip s = s.
Proof.
  induction s as [|c s IH]; simpl; [reflexivity|].
  intros H. apply andb_prop in H as [Hc Hs].
  destruct (digit_facts c Hc) as (_ & _ & _ & _ & _ & _ & _ & _ & _ & ->).
  simpl. now rewrite IH.
Qed.

Import Binary64.

Section Binary64Facts.
Local Open Scope Z_scope.

Lemma odd_part_value (p : positive) (e : Z) :
  let '(p', e') := odd_part p e in
  e <= e' /\ Z.pos p' * 2 ^ (e' - e) = Z.pos p /\ Z.odd (Z.pos p') = true.
Proof.
  revert e. induction p as [p IH|p IH|]; intros e; cbn [odd_part].
  - split; [lia|]. rewrite Z.sub_diag. split; [lia | reflexivity].
  - specialize (IH (e + 1)). destruct (odd_part p (e + 1)) as [p' e'].
    destruct IH as (Hle & Hv & Ho). split; [lia|]. split; [|assumption].
    replace (e' - e) with (Z.succ (e' - (e + 1))) by lia.
    rewrite Z.pow_succ_r by lia. lia.
  - split; [lia|]. rewrite Z.sub_diag. split; [lia | reflexivity].
Qed.

(** The canonical writing of an integer [z * 2^k / 2^k]. *)
Lemma canonical_integer (neg : bool) (z k : Z) :
  0 < z -> 0 <= k ->
  to_Z (canonical neg (Z.to_N (z * 2 ^ k)) (- k))
  = Some ((if neg then -1 else 1) * z).
Proof.
  intros Hz Hk.
  assert (Hp : 0 < 2 ^ k) by (apply Z.pow_pos_nonneg; lia).
  assert (Hm : 0 < z * 2 ^ k) by lia.
  unfold canonical. destruct (Z.to_N (z * 2 ^ k)) as [|p] eqn:Ep; [lia|].
  assert (Epos : Z.pos p = z * 2 ^ k) by lia.
  pose proof (odd_part_value p (- k)) as Hv. destruct (odd_part p (- k)) as [p' e'].
  destruct Hv as (Hle & Hv & Ho). rewrite Epos in Hv.
  replace (e' - - k) with (e' + k) in Hv by lia.
  assert (He : 0 <= e').
  { destruct (Z.le_gt_cases 0 e') as [H | H]; [assumption | exfalso].
    replace k with ((e' + k) + (- e')) in Hv at 2 by lia.
    rewrite (Z.pow_add_r 2 (e' + k) (- e')) in Hv by lia.
    assert (Hq : 0 < 2 ^ (e' + k)) by (apply Z.pow_pos_nonneg; lia).
    assert (E : Z.pos p' = z * 2 ^ (- e')) by nia.
    replace (- e') with (Z.succ (- e' - 1)) in E by lia.
    rewrite Z.pow_succ_r in E by lia.
    rewrite E in Ho. replace (z * (2 * 2 ^ (- e' - 1))) with (2 * (z * 2 ^ (- e' - 1))) in Ho by lia.
    rewrite Z.odd_mul in Ho. discriminate Ho. }
  unfold to_Z. destruct (Z.leb_spec 0 e'); [|lia]. f_equal. f_equal.
  rewrite Z.pow_add_r in Hv by lia. nia.
Qed.

(** An integer up to 2^53 is a binary64 value: [float] reads it exactly. *)
Lemma of_N_exact (n : N) :
  (n <= 2 ^ 53)%N -> to_Z (of_N n) = Some (Z.of_N n).
Proof.
  intros Hn. unfold of_N, of_decimal. cbn [Z.leb Z.compare].
  rewrite Z.pow_0_r, Z.mul_1_r. unfold round_ratio.
  destruct (Z.eqb_spec (Z.of_N n) 0) as [E0 | Hpos].
  { rewrite E0. reflexivity. }
  destruct (N.eq_dec n (2 ^ 53)%N) as [-> | Hne]; [vm_compute; reflexivity|].
  assert (Hlt : (n < 2 ^ 53)%N) by lia. clear Hn Hne.
  set (z := Z.of_N n) in *.
  assert (Hz : 0 < z < 2 ^ 53) by (unfold z; change (2 ^ 53) with (Z.of_N (2 ^ 53)); lia).
  change (Z.log2 1) with 0. rewrite Z.sub_0_r.
  assert (Hl : 0 <= Z.log2 z < 53).
  { split; [apply Z.log2_nonneg|]. apply Z.log2_lt_pow2; lia. }
  assert (Hge : ge_pow2 z 1 (Z.log2 z) = true).
  { unfold ge_pow2. destruct (Z.leb_spec 0 (Z.log2 z)); [|lia].
    apply Z.leb_le. rewrite Z.mul_1_l. now apply Z.log2_spec. }
  rewrite Hge.
  set (k := 52 - Z.log2 z).
  assert (Hk : 0 <= k) by (unfold k; lia).
  replace (Z.max (Z.log2 z - 52) (-1074)) with (- k) by (unfold k; lia).
  rewrite Z.opp_involutive.
  assert (Hnum : (if 0 <=? - k then z else z * 2 ^ k) = z * 2 ^ k).
  { destruct (Z.leb_spec 0 (- k)); [|reflexivity].
    replace k with 0 by lia. rewrite Z.pow_0_r. lia. }
  assert (Hden : (if 0 <=? - k then 1 * 2 ^ (- k) else 1) = 1).
  { destruct (Z.leb_spec 0 (- k)); [|reflexivity].
    replace (- k) with 0 by lia. reflexivity. }
  rewrite Hnum, Hden, Z.div_1_r, Z.mod_1_r.
  change (2 * 0) with 0. change (1 <? 0) with false. change (1 =? 0) with false.
  cbn [orb andb].
  rewrite Z.log2_mul_pow2 by lia.
  destruct (Z.leb_spec 1024 (k + Z.log2 z + - k)); [lia|].
  rewrite canonical_integer by lia. f_equal. lia.
Qed.

End Binary64Facts.

Section FloatAccepts.
Import PyFloat FloatSyntax.

(** *** float(str): what it accepts *)

































Lemma all_chars_app (p : ascii -> bool) (a b : string) :
  all_chars p (a +:+ b) = all_chars p a && all_chars p b.
Proof. induction a as [|c a IH]; simpl; [reflexivity|]. now rewrite IH, andb_assoc. Qed.












End FloatAccepts.

(** *** The Amount Parser *)

(** The amount parser reads the decimal writing of every natural number
    as the binary64 value nearest to that number. *)
Lemma amount_parser_decimal (n : N) :
  amount_parser (decimal_of_N n) = Ret (Some (Binary64.of_N n)).
Proof.
  unfold amount_parser, decimal_of_N.
  pose proof (all_digits_uint (N.to_uint n)) as Hd.
  pose proof (digits_go_uint (N.to_uint n) 0) as Hg.
  assert (Hne : exists c t, NilEmpty.string_of_uint (N.to_uint n) = String c t).
  { destruct n as [|p]; [simpl; eauto|].
    pose proof (DecimalPos.Unsigned.to_uint_nonnil p) as Hnil.
    simpl. destruct (Pos.to_uint p); simpl; eauto. congruence. }
  change (Pos.of_uint (N.to_uint n)) with (N.of_uint (N.to_uint n)) in Hg.
  rewrite DecimalN.Unsigned.of_to in Hg.
  set (s := NilEmpty.string_of_uint (N.to_uint n)) in *.
  unfold strip. rewrite (lstrip_digits s Hd), (rstrip_digits s Hd).
  unfold parse_amount, amount_try.
  rewrite (remove_char_digits "," s eq_refl Hd), (remove_char_digits " " s eq_refl Hd).
  destruct Hne as (c & t & Es).
  assert (Hc : isdigit c = true).
  { rewrite Es in Hd. simpl in Hd. now apply andb_prop in Hd as [? _]. }
  destruct (digit_facts c Hc) as (_ & _ & _ & _ & Fl & Fs & _).
  assert (Hnan : String.eqb s "nan" = false /\ String.eqb s "inf" = false
                 /\ String.eqb s "infinity" = false).
  { rewrite Es. simpl.
    destruct (Ascii.eqb_spec c "n") as [->|_]; [discriminate Hc|].
    destruct (Ascii.eqb_spec c "i") as [->|_]; [discriminate Hc|]. auto. }
  destruct Hnan as (N1 & N2 & N3).
  replace (is_empty s) with false by (now rewrite Es). rewrite N1. simpl.
  unfold PyFloat.py_float, PyFloat.parse.
  rewrite (lskip_digits s Hd), (rskip_digits s Hd).
  rewrite (underscores_digits s "000" eq_refl Hd).
  unfold PyFloat.number. replace (PyFloat.sign s) with (false, s) by (now rewrite Es, Fs).
  rewrite (lower_digits s Hd), N1, N2, N3. simpl.
  unfold PyFloat.decimal. rewrite Hg. rewrite Es. simpl. reflexivity.
Qed.

(** What the amount parser returns, from the cleaned text. *)
Lemma amount_parser_clean (raw : string) :
  amount_parser raw
  = if negb (is_empty (clean_amount raw)) && negb (String.eqb (clean_amount raw) "nan")
    then match PyFloat.parse (clean_amount raw) with
         | Some l => Ret (Some (PyFloat.round l))
         | None => Ret None
         end
    else Ret None.
Proof.
  unfold amount_parser, parse_amount, amount_try. fold (clean_amount raw).
  destruct (negb (is_empty (clean_amount raw)) && negb (String.eqb (clean_amount raw) "nan"));
    [|reflexivity].
  unfold PyFloat.py_float. now destruct (PyFloat.parse (clean_amount raw)).
Qed.

Lemma clean_amount_digits (s : string) : all_digits s = true -> clean_amount s = s.
Proof.
  intros Hd. unfold clean_amount, strip.
  rewrite (lstrip_digits s Hd), (rstrip_digits s Hd).
  now rewrite (remove_char_digits "," s eq_refl Hd), (remove_char_digits " " s eq_refl Hd).
Qed.




(** X9: commas and spaces anywhere in the amount text, and whitespace around
    it, are dropped before the number is read: a text that is the decimal
    writing of a number once they are removed is read as the float of that
    number, which is that number itself up to 2^53 and the nearest
    binary64 value beyond (9007199254740993 is read as 9007199254740992). *)
Theorem amount_separators (raw : string) (n : N) :
  clean_amount raw = decimal_of_N n ->
  amount_parser raw = Ret (Some (Binary64.of_N n))
  /\ ((n <= 2 ^ 53)%N -> Binary64.to_Z (Binary64.of_N n) = Some (Z.of_N n))
  /\ Binary64.of_N 9007199254740993 = Binary64.of_N 9007199254740992.
Proof.
  intros H. split; [|split; [apply of_N_exact | vm_compute; reflexivity]].
  rewrite <- (amount_parser_decimal n), !amount_parser_clean, H.
  pose proof (all_digits_uint (N.to_uint n)) as Hd. fold (decimal_of_N n) in Hd.
  now rewrite (clean_amount_digits _ Hd).
Qed.

Lemma amount_separators_witness :
  amount_parser "  1,234 567 " = Ret (Some (Binary64.of_N 1234567))
  /\ Binary64.to_Z (Binary64.of_N 1234567) = Some 1234567%Z.
Proof.
  destruct (amount_separators "  1,234 567 " 1234567) as (H1 & H2 & _);
    [vm_compute; reflexivity|].
  split; [exact H1|]. apply H2. vm_compute. discriminate.
Defined.

(* ===================================================================== *)
(** ** The matcher: texts consumed, groups, extension of the input        *)
(* ===================================================================== *)

Import Re Dates.

Lemma chars_split (w s c rest : string) :
  chars w s = Some (c, rest) -> s = c +:+ rest.
Proof.
  revert s c rest. induction w as [|a w IH]; intros s c rest; simpl.
  - intros [= <- <-]. reflexivity.
  - destruct s as [|b s]; [discriminate|].
    destruct (Ascii.eqb _ _); [|discriminate].
    destruct (chars w s) as [[c' rest']|] eqn:E; [|discriminate].
    intros [= <- <-]. simpl. f_equal. now apply IH.
Qed.

Lemma chars_app (w s c rest u : string) :
  chars w s = Some (c, rest) -> chars w (s +:+ u) = Some (c, rest +:+ u).
Proof.
  revert s c rest. induction w as [|a w IH]; intros s c rest; simpl.
  - intros [= <- <-]. reflexivity.
  - destruct s as [|b s]; [discriminate|]. simpl.
    destruct (Ascii.eqb _ _); [|discriminate].
    destruct (chars w s) as [[c' rest']|] eqn:E; [|discriminate].
    intros [= <- <-]. now rewrite (IH _ _ _ E).
Qed.

Section MatcherFacts.
Context {R : Type}.

(** Whatever a repetition hands to its continuation splits the input. *)
Lemma rep_split (p : ascii -> bool) (s : string) :
  forall lo hi (k : string -> string -> option R) x,
    rep p lo hi s k = Some x ->
    exists c rest, s = c +:+ rest /\ k c rest = Some x.
Proof.
  induction s as [|a s IH]; intros lo hi k x; simpl.
  - destruct lo; [|discriminate]. intros H. exists EmptyString, EmptyString. auto.
  - assert (Hstop : match lo with O => k EmptyString (String a s) | S _ => None end = Some x ->
                    exists c rest, String a s = c +:+ rest /\ k c rest = Some x).
    { destruct lo; [|discriminate]. intros H. exists EmptyString, (String a s). auto. }
    destruct (p a && hi_ok hi); [|exact Hstop].
    destruct (rep p (Nat.pred lo) (hi_pred hi) s _) as [y|] eqn:E; [|exact Hstop].
    intros [= <-]. apply IH in E as (c & rest & -> & Hk).
    exists (String a c), rest. auto.
Qed.

(** A repetition that may stop at once succeeds when what follows does. *)
Lemma rep_may_stop (p : ascii -> bool) (hi : option nat) (s : string)
      (k : string -> string -> option R) :
  k EmptyString s <> None -> rep p 0 hi s k <> None.
Proof.
  intros H. destruct s as [|a s]; simpl; [assumption|].
  destruct (p a && hi_ok hi); [|assumption].
  destruct (rep p _ _ s _); [discriminate | assumption].
Qed.

(** Success survives text added at the end of the input. *)
Lemma rep_extend (p : ascii -> bool) (u : string) (t : string) :
  forall lo hi (k k' : string -> string -> option R),
    (forall c rest, k c rest <> None -> k' c (rest +:+ u) <> None) ->
    rep p lo hi t k <> None -> rep p lo hi (t +:+ u) k' <> None.
Proof.
  induction t as [|a t IH]; intros lo hi k k' Hk.
  - simpl. destruct lo; [|congruence]. intros H.
    apply rep_may_stop. apply (Hk EmptyString EmptyString). assumption.
  - cbn [rep String.append].
    assert (Hstop : match lo with O => k EmptyString (String a t) | S _ => None end <> None ->
                    match lo with O => k' EmptyString (String a (t +:+ u)) | S _ => None end <> None).
    { destruct lo; [|congruence]. apply (Hk EmptyString (String a t)). }
    destruct (p a && hi_ok hi); [|exact Hstop].
    destruct (rep p (Nat.pred lo) (hi_pred hi) t _) as [y|] eqn:E.
    + intros _.
      assert (E' : rep p (Nat.pred lo) (hi_pred hi) (t +:+ u)
                       (fun cs rest => k' (String a cs) rest) <> None).
      { apply (IH _ _ (fun cs rest => k (String a cs) rest)).
        - intros c rest. apply Hk.
        - rewrite E. discriminate. }
      destruct (rep p _ _ (t +:+ u) _); [discriminate | congruence].
    + intros H. destruct (rep p _ _ (t +:+ u) _); [discriminate | now apply Hstop].
Qed.

(** The greedy run: the longest stretch of the class, when what follows
    accepts it. *)
Lemma rep_span (p : ascii -> bool) (w : string) :
  forall lo hi rest (k : string -> string -> option R) x,
    all_chars p w = true ->
    (lo <= String.length w)%nat ->
    match hi with
    | Some h => (String.length w < h)%nat /\ stops p rest = true \/ String.length w = h
    | None => stops p rest = true
    end ->
    k w rest = Some x ->
    rep p lo hi (w +:+ rest) k = Some x.
Proof.
  induction w as [|a w IH]; intros lo hi rest k x Hall Hlo Hhi Hk.
  - simpl in *. assert (lo = 0%nat) as -> by lia.
    destruct rest as [|b rest]; simpl; [assumption|].
    destruct hi as [h|]; simpl in Hhi.
    + destruct Hhi as [[_ Hs] | <-]; [|now rewrite andb_false_r].
      apply negb_true_iff in Hs. now rewrite Hs.
    + apply negb_true_iff in Hhi. now rewrite Hhi.
  - simpl in Hall. apply andb_prop in Hall as [Ha Hw]. cbn [String.append rep].
    rewrite Ha. simpl in Hlo, Hhi.
    assert (Hok : hi_ok hi = true).
    { destruct hi as [[|h]|]; simpl; try reflexivity. lia. }
    rewrite Hok. simpl.
    rewrite (IH (Nat.pred lo) (hi_pred hi) rest (fun cs r => k (String a cs) r) x);
      try assumption; try lia; [reflexivity|].
    destruct hi as [h|]; simpl; [|assumption].
    destruct Hhi as [[Hlt Hs] | <-]; [left; split; [lia | assumption] | right; reflexivity].
Qed.
End MatcherFacts.

Section RunFacts.
Context {R : Type}.

(** What an expression hands to its continuation: the text it consumed
    and the text left split the input, and the groups it added are
    pieces of the input. *)
Lemma run_split (r : regex) :
  forall s groups (k : string -> string -> list string -> option R) x,
    run r s groups k = Some x ->
    exists c rest added,
      s = c +:+ rest /\ k c rest (groups ++ added) = Some x
      /\ Forall (fun t => substring t s) added.
Proof.
  induction r as [w | p lo hi | r1 IH1 r2 IH2 | r1 IH1 r2 IH2 | r1 IH1];
    intros s groups k x; simpl.
  - destruct (chars w s) as [[c rest]|] eqn:E; [|discriminate].
    intros H. exists c, rest, []. rewrite app_nil_r.
    split; [exact (chars_split w s c rest E)|]. split; [assumption | constructor].
  - intros H. apply rep_split in H as (c & rest & -> & H).
    exists c, rest, []. rewrite app_nil_r. repeat split; [assumption | constructor].
  - destruct (run r1 s groups k) as [y|] eqn:E.
    + intros [= <-]. now apply IH1.
    + apply IH2.
  - intros H. apply IH1 in H as (c1 & s1 & g1 & -> & H & F1).
    apply IH2 in H as (c2 & s2 & g2 & -> & H & F2).
    exists (c1 +:+ c2), s2, (g1 ++ g2).
    split; [now rewrite append_assoc|]. split; [now rewrite app_assoc|].
    apply Forall_app. split; [assumption|].
    eapply Forall_impl; [exact F2|]. intros t Ht. now apply substring_app_l.
  - intros H. apply IH1 in H as (c & rest & g & -> & H & F).
    exists c, rest, (g ++ [c]).
    split; [reflexivity|]. split; [now rewrite app_assoc|].
    apply Forall_app. split; [assumption|].
    constructor; [apply substring_prefix | constructor].
Qed.

(** A match survives text added at the end of the input. *)
Lemma run_extend (r : regex) (u : string) :
  forall t groups groups' (k k' : string -> string -> list string -> option R),
    (forall c rest g g', k c rest g <> None -> k' c (rest +:+ u) g' <> None) ->
    run r t groups k <> None -> run r (t +:+ u) groups' k' <> None.
Proof.
  induction r as [w | p lo hi | r1 IH1 r2 IH2 | r1 IH1 r2 IH2 | r1 IH1];
    intros t groups groups' k k' Hk; simpl.
  - destruct (chars w t) as [[c rest]|] eqn:E; [|congruence].
    rewrite (chars_app _ _ _ _ u E). apply Hk.
  - apply rep_extend. intros c rest. apply Hk.
  - destruct (run r1 t groups k) as [y|] eqn:E.
    + intros _.
      assert (E' : run r1 (t +:+ u) groups' k' <> None).
      { apply (IH1 t groups groups' k k' Hk). rewrite E. discriminate. }
      destruct (run r1 (t +:+ u) groups' k'); [discriminate | congruence].
    + intros H. destruct (run r1 (t +:+ u) groups' k'); [discriminate|].
      now apply (IH2 t groups groups' k k' Hk).
  - apply IH1. intros c1 s1 g g'. apply IH2. intros c2 s2 g2 g2'. apply Hk.
  - apply IH1. intros c s1 g g'. apply Hk.
Qed.
End RunFacts.

Lemma match_at_extend (r : regex) (t u : string) :
  match_at r t <> None -> match_at r (t +:+ u) <> None.
Proof. unfold match_at. apply run_extend. intros; discriminate. Qed.

Lemma search_extend_r (r : regex) (t u : string) :
  search r t <> None -> search r (t +:+ u) <> None.
Proof.
  assert (Hhere : forall t', match_at r t' <> None -> search r (t' +:+ u) <> None).
  { intros t' H. apply (match_at_extend r t' u) in H.
    destruct (t' +:+ u) as [|b v]; simpl;
      destruct (match_at r _) as [[[c' rest'] g']|] eqn:E'; congruence. }
  induction t as [|a t IH].
  - simpl. destruct (match_at r EmptyString) as [[[c rest] g]|] eqn:E; [|congruence].
    intros _. apply (Hhere EmptyString). congruence.
  - cbn [search]. destruct (match_at r (String a t)) as [[[c rest] g]|] eqn:E.
    + intros _. apply (Hhere (String a t)). congruence.
    + intros H. simpl.
      destruct (match_at r (String a (t +:+ u))) as [[[c' rest'] g']|]; [discriminate|].
      now apply IH.
Qed.

Lemma search_extend_l (r : regex) (a t : string) :
  search r t <> None -> search r (a +:+ t) <> None.
Proof.
  intros H. induction a as [|x a IH]; simpl; [assumption|].
  destruct (match_at r _) as [[[c' rest'] g']|]; [discriminate | assumption].
Qed.

(** A pattern found in a piece of a text is found in the text. *)
Lemma search_substring (r : regex) (t s : string) :
  substring t s -> search r t <> None -> search r s <> None.
Proof.
  intros (a & b & ->) H. apply search_extend_l, search_extend_r, H.
Qed.

(** The groups of a search are pieces of the text searched. *)
Lemma search_groups (r : regex) (s : string) (g : list string) :
  search r s = Some g -> Forall (fun t => substring t s) g.
Proof.
  induction s as [|a s IH]; simpl.
  - destruct (match_at r EmptyString) as [[[c rest] g']|] eqn:E; [|discriminate].
    intros [= <-]. unfold match_at in E.
    apply run_split in E as (c0 & rest0 & added & _ & [= _ _ <-] & F). exact F.
  - destruct (match_at r (String a s)) as [[[c rest] g']|] eqn:E.
    + intros [= <-]. unfold match_at in E.
      apply run_split in E as (c0 & rest0 & added & _ & [= _ _ <-] & F). exact F.
    + intros H. eapply Forall_impl; [exact (IH H)|].
      intros t Ht. now apply (substring_app_l t (String a EmptyString) s).
Qed.

Lemma findall_none (r : regex) (s : string) :
  search r s = None -> findall r s = [].
Proof.
  unfold findall. induction s as [|a s IH]; simpl.
  - destruct (match_at r EmptyString) as [[[c rest] g']|]; [discriminate | reflexivity].
  - destruct (match_at r (String a s)) as [[[c rest] g']|]; [discriminate | exact IH].
Qed.

(** The first element of [findall] is the match of [search]. *)
Lemma findall_first (r : regex) (s : string) (g : list string) :
  search r s = Some g -> exists more, findall r s = g :: more.
Proof.
  unfold findall. induction s as [|a s IH]; simpl.
  - destruct (match_at r EmptyString) as [[[c rest] g']|]; [|discriminate].
    intros [= <-]. eauto.
  - destruct (match_at r (String a s)) as [[[c rest] g']|].
    + intros [= <-]. eauto.
    + exact IH.
Qed.

(* ===================================================================== *)
(** ** Date Extractor (C3)                                                *)
(* ===================================================================== *)

Lemma group_substring (s : string) (g : list string) (i : nat) :
  Forall (fun t => substring t s) g -> substring (default EmptyString (g !! i)) s.
Proof.
  intros F. destruct (g !! i) as [t|] eqn:E; simpl.
  - rewrite Forall_forall in F. apply F. eapply list_elem_of_lookup_2, E.
  - exists EmptyString, s. reflexivity.
Qed.

(** With no date pattern in the content, no "As of" capture holds one. *)
Lemma as_of_loop_no_date (content : string) (patterns : list regex) :
  search date_pattern content = None ->
  as_of_loop content patterns = Ret None.
Proof.
  intros Hnone. induction patterns as [|p ps IH]; simpl; [reflexivity|].
  destruct (search p content) as [m|] eqn:E; [|exact IH].
  destruct (search date_pattern (strip (default EmptyString (m !! 0%nat)))) as [g|] eqn:E2; [|exact IH].
  exfalso.
  apply (search_substring date_pattern (strip (default EmptyString (m !! 0%nat))) content).
  - eapply substring_trans; [apply strip_substring|].
    apply group_substring. now apply search_groups in E.
  - congruence.
  - assumption.
Qed.

Lemma startswith_trans (a b x : string) :
  startswith a b = true -> startswith b x = true -> startswith a x = true.
Proof.
  revert b x. induction a as [|c a IH]; intros b x; simpl; [reflexivity|].
  destruct b as [|d b]; [discriminate|]. simpl.
  destruct x as [|e x]; [discriminate|].
  intros H1 H2. apply andb_prop in H1 as [H1 H1'], H2 as [H2 H2'].
  apply Ascii.eqb_eq in H1, H2. subst. rewrite Ascii.eqb_refl. simpl. eauto.
Qed.

Lemma chars_none_ci (w s : string) :
  startswith (lower w) (lower s) = false -> chars w s = None.
Proof.
  revert s. induction w as [|a w IH]; intros s; simpl; [discriminate|].
  destruct s as [|b s]; simpl; [reflexivity|].
  destruct (Ascii.eqb (to_lower a) (to_lower b)); simpl; [|reflexivity].
  intros H. unfold lower in IH. now rewrite IH.
Qed.

(** A pattern that begins with literal text is not found where the text,
    or a beginning [w0] of it, does not occur. *)
Lemma search_literal_absent (w0 w : string) (r : regex) (s : string) (i : nat) :
  startswith w0 (lower w) = true ->
  find_ci_go w0 s i = None ->
  search (Cat (Chars w) r) s = None.
Proof.
  intros Hw. revert i. induction s as [|a s IH]; intros i; cbn [find_ci_go search].
  - destruct (startswith w0 (lower EmptyString)) eqn:E; [discriminate|]. intros _.
    unfold match_at. cbn [run]. rewrite chars_none_ci; [reflexivity|].
    destruct (startswith (lower w) (lower EmptyString)) eqn:E2; [|reflexivity].
    now rewrite (startswith_trans _ _ _ Hw E2) in E.
  - destruct (startswith w0 (lower (String a s))) eqn:E; [discriminate|]. intros H.
    unfold match_at. cbn [run]. rewrite chars_none_ci; [now apply (IH (S i))|].
    destruct (startswith (lower w) (lower (String a s))) eqn:E2; [|reflexivity].
    now rewrite (startswith_trans _ _ _ Hw E2) in E.
Qed.

(** With no "as of" in the content, whatever the case, the three patterns
    of the marker fail. *)
Lemma as_of_loop_no_marker (content : string) :
  find_ci "as of" content = None ->
  as_of_loop content as_of_patterns = Ret None.
Proof.
  intros H. unfold as_of_patterns. cbn [as_of_loop].
  rewrite (search_literal_absent "as of" "As of:" _ content 0 eq_refl H).
  rewrite (search_literal_absent "as of" "As of" _ content 0 eq_refl H).
  rewrite (search_literal_absent "as of" "as of" _ content 0 eq_refl H).
  reflexivity.
Qed.

Lemma lower_app (a b : string) : lower (a +:+ b) = lower a +:+ lower b.
Proof. unfold lower. induction a as [|c a IH]; simpl; [reflexivity | now rewrite IH]. Qed.

Lemma chars_ci (w c rest : string) :
  lower w = lower c -> chars w (c +:+ rest) = Some (c, rest).
Proof.
  revert c. induction w as [|a w IH]; intros c; destruct c as [|b c]; simpl;
    try discriminate; [reflexivity|].
  intros [= E1 E2]. rewrite E1, Ascii.eqb_refl. now rewrite (IH c E2).
Qed.

(** Literal text consumes a text equal to it up to case. *)
Lemma chars_sound (w s c rest : string) :
  chars w s = Some (c, rest) -> s = c +:+ rest /\ lower c = lower w.
Proof.
  revert s c rest. induction w as [|a w IH]; intros s c rest; simpl.
  - intros [= <- <-]. auto.
  - destruct s as [|b s]; [discriminate|].
    destruct (Ascii.eqb_spec (to_lower a) (to_lower b)) as [E|_]; [|discriminate].
    destruct (chars w s) as [[c' rest']|] eqn:E'; [|discriminate].
    intros [= <- <-]. destruct (IH _ _ _ E') as [-> Hl].
    split; [reflexivity|]. unfold lower in *. simpl. now rewrite E, Hl.
Qed.

Section MoreMatcherFacts.
Context {R : Type}.

(** A repetition with no shorter choice: what follows decides. *)
Lemma rep_exact (p : ascii -> bool) (w : string) :
  forall hi rest (k : string -> string -> option R),
    all_chars p w = true ->
    match hi with
    | Some h => (String.length w < h)%nat /\ stops p rest = true \/ String.length w = h
    | None => stops p rest = true
    end ->
    rep p (String.length w) hi (w +:+ rest) k = k w rest.
Proof.
  induction w as [|a w IH]; intros hi rest k Hall Hhi.
  - simpl in *. destruct rest as [|b rest]; simpl; [reflexivity|].
    destruct hi as [h|]; simpl in Hhi.
    + destruct Hhi as [[_ Hs] | <-]; [|now rewrite andb_false_r].
      apply negb_true_iff in Hs. now rewrite Hs.
    + apply negb_true_iff in Hhi. now rewrite Hhi.
  - simpl in Hall. apply andb_prop in Hall as [Ha Hw].
    cbn [String.append rep String.length Nat.pred].
    rewrite Ha. simpl in Hhi.
    assert (Hok : hi_ok hi = true).
    { destruct hi as [[|h]|]; simpl; try reflexivity. lia. }
    rewrite Hok. simpl.
    rewrite (IH (hi_pred hi) rest (fun cs r => k (String a cs) r)); try assumption.
    + destruct (k (String a w) rest); reflexivity.
    + destruct hi as [h|]; simpl; [|assumption].
      destruct Hhi as [[Hlt Hs] | <-]; [left; split; [lia | assumption] | right; reflexivity].
Qed.

(** Whatever a repetition hands to its continuation is a run of the
    class of a length within the bounds. *)
Lemma rep_inv (p : ascii -> bool) (s : string) :
  forall lo hi (k : string -> string -> option R) x,
    rep p lo hi s k = Some x ->
    exists c rest,
      s = c +:+ rest /\ all_chars p c = true /\ (lo <= String.length c)%nat
      /\ match hi with Some h => (String.length c <= h)%nat | None => True end
      /\ k c rest = Some x.
Proof.
  induction s as [|a s IH]; intros lo hi k x; simpl.
  - destruct lo; [|discriminate]. intros H. exists EmptyString, EmptyString.
    repeat split; try assumption; [simpl; lia | destruct hi; simpl; [lia | exact I]].
  - assert (Hstop : match lo with O => k EmptyString (String a s) | S _ => None end = Some x ->
                    exists c rest, String a s = c +:+ rest /\ all_chars p c = true
                      /\ (lo <= String.length c)%nat
                      /\ match hi with Some h => (String.length c <= h)%nat | None => True end
                      /\ k c rest = Some x).
    { destruct lo; [|discriminate]. intros H. exists EmptyString, (String a s).
      repeat split; try assumption; [simpl; lia | destruct hi; simpl; [lia | exact I]]. }
    destruct (p a && hi_ok hi) eqn:Epa; [|exact Hstop].
    destruct (rep p (Nat.pred lo) (hi_pred hi) s _) as [y|] eqn:E; [|exact Hstop].
    intros [= <-]. apply IH in E as (c & rest & -> & Hall & Hlo & Hhi & Hk).
    apply andb_prop in Epa as [Hpa Hok].
    exists (String a c), rest. simpl. rewrite Hpa, Hall.
    repeat split; [lia | | assumption].
    destruct hi as [[|h]|]; simpl in *; [discriminate | lia | exact I].
Qed.

(** An alternation of literal texts consumes one of them, up to case. *)
Lemma run_alts_fold (L ws : list string) :
  forall r0 : regex,
    (forall s g (k : string -> string -> list string -> option R) x,
        run r0 s g k = Some x ->
        exists M X, s = M +:+ X /\ lower M ∈ L /\ k M X g = Some x) ->
    (forall w, w ∈ ws -> lower w ∈ L) ->
    forall s g (k : string -> string -> list string -> option R) x,
      run (foldl (fun r w' => Alt r (Chars w')) r0 ws) s g k = Some x ->
      exists M X, s = M +:+ X /\ lower M ∈ L /\ k M X g = Some x.
Proof.
  induction ws as [|w ws IH]; intros r0 H0 Hws; simpl; [exact H0|].
  apply IH.
  - intros s g k x. simpl. destruct (run r0 s g k) as [y|] eqn:E.
    + intros [= <-]. now apply H0.
    + destruct (chars w s) as [[c rest]|] eqn:Ec; [|discriminate].
      intros Hk. apply chars_sound in Ec as [-> Hl]. exists c, rest.
      split; [reflexivity|]. split; [|assumption].
      rewrite Hl. apply Hws. left.
  - intros w' Hw'. apply Hws. now right.
Qed.

Lemma run_alts_sound (names : list string) (s : string) (g : list string)
      (k : string -> string -> list string -> option R) (x : R) :
  names <> [] ->
  run (alts names) s g k = Some x ->
  exists M X, s = M +:+ X /\ lower M ∈ lower <$> names /\ k M X g = Some x.
Proof.
  destruct names as [|w ws]; [congruence|]. intros _. unfold alts.
  apply run_alts_fold.
  - intros s' g' k' x'. simpl.
    destruct (chars w s') as [[c rest]|] eqn:Ec; [|discriminate].
    intros Hk. apply chars_sound in Ec as [-> Hl]. exists c, rest.
    split; [reflexivity|]. split; [|assumption]. rewrite Hl. left.
  - intros w' Hw'. right. apply list_elem_of_fmap. eauto.
Qed.
End MoreMatcherFacts.

Lemma month_text_cases (M : string) :
  is_month_text M -> exists w, w ∈ month_names /\ lower M = lower w.
Proof.
  unfold is_month_text. intros H. apply list_elem_of_fmap in H as (w & ? & ?). eauto.
Qed.

(** The literal texts of an alternation tried on a text that begins with
    [M], known up to case by [H]. *)
Ltac alternatives M X H :=
  repeat match goal with
  | |- context [chars ?w (M +:+ X)] =>
      first [ rewrite (chars_ci w M X) by (symmetry; exact H)
            | rewrite (chars_none_ci w (M +:+ X)) by (rewrite lower_app, H; reflexivity) ]
  end.

Section MonthNames.
Context {R : Type}.

(** No month name begins another: on a month name in any case, the
    alternation of the names consumes the name and nothing else. *)
Lemma run_month_names (M X : string) (groups : list string)
      (k : string -> string -> list string -> option R) :
  is_month_text M ->
  run (alts month_names) (M +:+ X) groups k = k M X groups.
Proof.
  intros H. apply month_text_cases in H as (w & Hw & H).
  unfold alts, month_names. cbn [foldl run].
  each_member Hw; alternatives M X H; destruct (k M X groups); reflexivity.
Qed.

Lemma run_directive_B_names (M X : string) (groups : list string)
      (k : string -> string -> list string -> option R) :
  is_month_text M ->
  run (alts directive_B_names) (M +:+ X) groups k = k M X groups.
Proof.
  intros H. apply month_text_cases in H as (w & Hw & H).
  unfold alts, directive_B_names. cbn [foldl run].
  each_member Hw; alternatives M X H; destruct (k M X groups); reflexivity.
Qed.
End MonthNames.
Lemma search_here (r : regex) (s c rest : string) (g : list string) :
  match_at r s = Some (c, rest, g) -> search r s = Some g.
Proof. intros H. destruct s; simpl; now rewrite H. Qed.

Lemma digit_cases (c : ascii) :
  isdigit c = true -> c ∈ ["0"; "1"; "2"; "3"; "4"; "5"; "6"; "7"; "8"; "9"]%char.
Proof.
  destruct c as [[] [] [] [] [] [] [] []]; vm_compute; intros H;
    try discriminate H; repeat constructor.
Qed.

Lemma stops_digits (p : ascii -> bool) (D X : string) :
  (forall c, isdigit c = true -> p c = false) ->
  all_digits D = true -> D <> EmptyString -> stops p (D +:+ X) = true.
Proof.
  intros Hp HD Hne. destruct D as [|c D]; [congruence|].
  simpl in *. apply andb_prop in HD as [Hc _]. now rewrite (Hp c Hc).
Qed.

Lemma isdigit_not_space (c : ascii) : isdigit c = true -> isspace c = false.
Proof. intros H. now destruct (digit_facts c H) as (? & _). Qed.

Lemma isdigit_not_comma (c : ascii) : isdigit c = true -> is_char "," c = false.
Proof. intros H. now destruct (digit_facts c H) as (_ & ? & _). Qed.

Lemma all_digits_all_chars (s : string) : all_digits s = all_chars isdigit s.
Proof. induction s as [|c s IH]; simpl; congruence. Qed.

Lemma all_space_all_chars (s : string) : all_space s = all_chars isspace s.
Proof. induction s as [|c s IH]; simpl; congruence. Qed.

Lemma day_text_inv (D : string) :
  is_day_text D = true ->
  all_digits D = true /\ D <> EmptyString
  /\ ((String.length D < 2)%nat \/ String.length D = 2%nat)
  /\ (1 <= String.length D)%nat.
Proof.
  unfold is_day_text. intros H. apply andb_prop in H as [Hd Hl].
  split; [assumption|]. apply orb_prop in Hl as [Hl | Hl]; apply Nat.eqb_eq in Hl;
    (split; [intros ->; discriminate|]); split; lia.
Qed.

Lemma year_text_inv (Y : string) :
  is_year_text Y = true ->
  all_digits Y = true /\ Y <> EmptyString /\ String.length Y = 4%nat.
Proof.
  unfold is_year_text. intros H. apply andb_prop in H as [Hd Hl].
  apply Nat.eqb_eq in Hl. repeat split; try assumption. intros ->. discriminate.
Qed.

Lemma stops_space (p : ascii -> bool) (ws X : string) :
  (forall c, isspace c = true -> p c = false) ->
  all_space ws = true -> ws <> EmptyString -> stops p (ws +:+ X) = true.
Proof.
  intros Hp Hs Hne. destruct ws as [|c ws]; [congruence|].
  simpl in *. apply andb_prop in Hs as [Hc _]. now rewrite (Hp c Hc).
Qed.

Lemma isspace_not_digit (c : ascii) : isspace c = true -> isdigit c = false.
Proof.
  intros H. destruct (isdigit c) eqn:E; [|reflexivity].
  now rewrite (isdigit_not_space c E) in H.
Qed.

Lemma isspace_not_comma (c : ascii) : isspace c = true -> is_char "," c = false.
Proof.
  unfold is_char. destruct (Ascii.eqb_spec "," c) as [<-|]; [discriminate | reflexivity].
Qed.

Lemma nonempty_length (s : string) : s <> EmptyString -> (1 <= String.length s)%nat.
Proof. destruct s; [congruence | simpl; lia]. Qed.

(** The date pattern where a long-form date begins: the three groups. *)
Lemma match_date (M D Y s : string) :
  date_at M D Y s ->
  exists c rest, match_at date_pattern s = Some (c, rest, [M; D; Y]).
Proof.
  intros (ws1 & comma & ws2 & rest & -> & HM & Hw1 & Hn1 & HD & Hc & Hw2 & Hn2 & HY).
  destruct (day_text_inv D HD) as (Dd & Dne & Dlen & Dlo).
  destruct (year_text_inv Y HY) as (Yd & Yne & Ylen).
  unfold match_at, date_pattern. cbn [run].
  rewrite run_month_names by assumption.
  eexists _, rest.
  apply (rep_span isspace ws1 1 None);
    [now rewrite <- all_space_all_chars | now apply nonempty_length | |].
  { apply stops_digits; auto using isdigit_not_space. }
  apply (rep_span isdigit D 1 (Some 2)); [now rewrite <- all_digits_all_chars | assumption | |].
  { destruct Dlen as [Hl | Hl]; [left | now right]. split; [assumption|].
    each_member Hc; [|reflexivity].
    simpl. apply stops_space; auto using isspace_not_digit. }
  each_member Hc.
  - apply (rep_span (is_char ",") EmptyString 0 (Some 1));
      [reflexivity | simpl; lia | left; split; [simpl; lia |] |].
    { simpl. apply stops_space; auto using isspace_not_comma. }
    apply (rep_span isspace ws2 1 None);
      [now rewrite <- all_space_all_chars | now apply nonempty_length | |].
    { apply stops_digits; auto using isdigit_not_space. }
    apply (rep_span isdigit Y 4 (Some 4));
      [now rewrite <- all_digits_all_chars | lia | now right | reflexivity].
  - apply (rep_span (is_char ",") "," 0 (Some 1)); [reflexivity | simpl; lia | now right |].
    apply (rep_span isspace ws2 1 None);
      [now rewrite <- all_space_all_chars | now apply nonempty_length | |].
    { apply stops_digits; auto using isdigit_not_space. }
    apply (rep_span isdigit Y 4 (Some 4));
      [now rewrite <- all_digits_all_chars | lia | now right | reflexivity].
Qed.

Lemma all_commas (c : string) :
  all_chars (is_char ",") c = true -> (String.length c <= 1)%nat ->
  c ∈ [EmptyString; ","].
Proof.
  destruct c as [|a [|b c]]; cbn [all_chars String.length]; intros H Hl; [left | | lia].
  apply andb_prop in H as [H _]. unfold is_char in H.
  apply Ascii.eqb_eq in H. subst a. right. left.
Qed.

(** Where the date pattern matches, a long-form date begins, and the
    groups are its month, day and year. *)
Lemma match_date_sound (s c rest : string) (g : list string) :
  match_at date_pattern s = Some (c, rest, g) ->
  exists M D Y, g = [M; D; Y] /\ date_at M D Y s.
Proof.
  unfold match_at, date_pattern. cbn [run]. intros H.
  apply run_alts_sound in H as (M & X & -> & HM & H); [|discriminate].
  apply rep_inv in H as (ws1 & X1 & -> & Hw1 & Hl1 & _ & H).
  apply rep_inv in H as (D & X2 & -> & HD & HDlo & HDhi & H).
  apply rep_inv in H as (comma & X3 & -> & Hc & _ & Hchi & H).
  apply rep_inv in H as (ws2 & X4 & -> & Hw2 & Hl2 & _ & H).
  apply rep_inv in H as (Y & X5 & -> & HY & HYlo & HYhi & H).
  injection H as _ <- <-.
  exists M, D, Y. split; [reflexivity|].
  exists ws1, comma, ws2, X5. split; [reflexivity|].
  split; [exact HM|].
  split; [now rewrite all_space_all_chars|].
  split; [intros ->; simpl in Hl1; lia|].
  split.
  { unfold is_day_text. rewrite all_digits_all_chars, HD. simpl.
    destruct (String.length D) as [|[|[|n]]]; simpl; try reflexivity; lia. }
  split; [now apply all_commas|].
  split; [now rewrite all_space_all_chars|].
  split; [intros ->; simpl in Hl2; lia|].
  unfold is_year_text. rewrite all_digits_all_chars, HY. simpl.
  apply Nat.eqb_eq. lia.
Qed.

Lemma match_date_none (s : string) :
  (forall M D Y, ~ date_at M D Y s) -> match_at date_pattern s = None.
Proof.
  intros H. destruct (match_at date_pattern s) as [[[c rest] g]|] eqn:E; [|reflexivity].
  apply match_date_sound in E as (M & D & Y & _ & Hd). now apply H in Hd.
Qed.

(** [re.search] with the date pattern finds the first long-form date. *)
Lemma search_first_date (M D Y s : string) :
  first_date M D Y s -> search date_pattern s = Some [M; D; Y].
Proof.
  intros (a & b & -> & Hd & Hfirst).
  induction a as [|x a IH].
  - destruct (match_date M D Y b Hd) as (c & rest & Hm). exact (search_here _ _ _ _ _ Hm).
  - cbn [String.append search].
    rewrite match_date_none.
    + apply IH. intros a1 a2 M' D' Y' -> Hne.
      apply (Hfirst (String x a1) a2); [reflexivity | assumption].
    + intros M' D' Y'. apply (Hfirst EmptyString (String x a)); [reflexivity | discriminate].
Qed.

Lemma search_no_date (s : string) :
  no_date s -> search date_pattern s = None.
Proof.
  intros H. induction s as [|x s IH].
  - cbn [search]. rewrite match_date_none; [reflexivity|].
    intros M D Y. now apply (H EmptyString EmptyString).
  - cbn [search]. rewrite match_date_none.
    + apply IH. intros a b M D Y ->. now apply (H (String x a) b).
    + intros M D Y. now apply (H EmptyString (String x s)).
Qed.

(** Conversely, what [re.search] finds is the first long-form date, and
    where it finds nothing there is none. *)
Lemma search_date_inv (s : string) :
  match search date_pattern s with
  | Some g => exists M D Y, g = [M; D; Y] /\ first_date M D Y s
  | None => no_date s
  end.
Proof.
  induction s as [|x s IH]; cbn [search].
  - destruct (match_at date_pattern EmptyString) as [[[c rest] g]|] eqn:E.
    + apply match_date_sound in E as (M & D & Y & -> & Hd).
      exists M, D, Y. split; [reflexivity|]. exists EmptyString, EmptyString.
      repeat split; [assumption|]. intros a1 a2 M' D' Y' Ha Hne.
      destruct a1; [simpl in Ha; congruence | discriminate].
    + intros a b M D Y Hab Hd. destruct a; [|discriminate]. simpl in Hab. subst b.
      destruct (match_date M D Y _ Hd) as (c & rest & Hm). congruence.
  - destruct (match_at date_pattern (String x s)) as [[[c rest] g]|] eqn:E.
    + apply match_date_sound in E as (M & D & Y & -> & Hd).
      exists M, D, Y. split; [reflexivity|]. exists EmptyString, (String x s).
      repeat split; [assumption|]. intros a1 a2 M' D' Y' Ha Hne.
      destruct a1; [simpl in Ha; congruence | discriminate].
    + destruct (search date_pattern s) as [g|].
      * destruct IH as (M & D & Y & -> & a & b & -> & Hd & Hfirst).
        exists M, D, Y. split; [reflexivity|]. exists (String x a), b.
        repeat split; [assumption|]. intros a1 a2 M' D' Y' Ha Hne Hd'.
        destruct a1 as [|y a1].
        -- simpl in Ha. subst a2. simpl in Hd'.
           destruct (match_date M' D' Y' _ Hd') as (c & rest & Hm). congruence.
        -- injection Ha as _ ->. now apply (Hfirst a1 a2 M' D' Y').
      * intros a b M D Y Hab Hd. destruct a as [|y a].
        -- simpl in Hab. subst b.
           destruct (match_date M D Y _ Hd) as (c & rest & Hm). congruence.
        -- injection Hab as _ ->. now apply (IH a b M D Y).
Qed.
Section DayDirective.
Context {R : Type}.

Lemma run_directive_d_comma (D X : string) (groups : list string)
      (k : string -> string -> string -> list string -> option R) :
  is_day_text D = true ->
  run directive_d (D +:+ "," +:+ X) groups
      (fun c s g => match chars "," s with
                    | Some (c', s') => k c c' s' g
                    | None => None
                    end)
  = if day_regex_ok D then k D "," X (groups ++ [D]) else None.
Proof.
  intros HD. destruct (day_text_inv D HD) as (Dd & Dne & _ & _).
  unfold is_day_text in HD. apply andb_prop in HD as [_ Hl].
  destruct D as [|c1 [|c2 [|c3 D]]]; try discriminate Hl; try congruence.
  - simpl in Dd. apply andb_prop in Dd as [H1 _]. apply digit_cases in H1.
    each_member H1; vm_compute; try reflexivity;
      destruct (k _ _ _ _); reflexivity.
  - simpl in Dd. apply andb_prop in Dd as [H1 H2]. apply andb_prop in H2 as [H2 _].
    apply digit_cases in H1, H2.
    each_member H1; each_member H2; vm_compute; try reflexivity;
      destruct (k _ _ _ _); reflexivity.
Qed.

(** The directive [%d] followed by the comma of the format. *)
Lemma run_directive_d (D X : string) (rest : regex) (groups : list string)
      (k : string -> string -> list string -> option R) :
  is_day_text D = true ->
  run (Cat directive_d (Cat (Chars ",") rest)) (D +:+ "," +:+ X) groups k
  = if day_regex_ok D
    then run rest X (groups ++ [D]) (fun c s g => k (D +:+ "," +:+ c) s g)
    else None.
Proof.
  intros HD.
  exact (run_directive_d_comma D X groups
           (fun c c' s' g => run rest s' g (fun c2 s2 g2 => k (c +:+ c' +:+ c2) s2 g2)) HD).
Qed.
End DayDirective.

Lemma run_cat {R : Type} (r1 r2 : regex) (s : string) (g : list string)
      (k : string -> string -> list string -> option R) :
  run (Cat r1 r2) s g k
  = run r1 s g (fun c1 s1 g1 => run r2 s1 g1 (fun c2 s2 g2 => k (c1 +:+ c2) s2 g2)).
Proof. reflexivity. Qed.

Lemma run_group {R : Type} (r : regex) (s : string) (g : list string)
      (k : string -> string -> list string -> option R) :
  run (Group r) s g k = run r s g (fun c s1 g1 => k c s1 (g1 ++ [c])).
Proof. reflexivity. Qed.

Lemma run_class {R : Type} (p : ascii -> bool) (lo : nat) (hi : option nat) (s : string)
      (g : list string) (k : string -> string -> list string -> option R) :
  run (Class p lo hi) s g k = rep p lo hi s (fun c rest => k c rest g).
Proof. reflexivity. Qed.

Lemma rep_one_space {R : Type} (rest : string) (k : string -> string -> option R) :
  stops isspace rest = true ->
  rep isspace 1 None (" " +:+ rest) k = k " " rest.
Proof. intros H. now apply (rep_exact isspace " " None rest k). Qed.

Lemma rep_year {R : Type} (Y rest : string) (k : string -> string -> option R) :
  is_year_text Y = true ->
  rep isdigit 4 (Some 4) (Y +:+ rest) k = k Y rest.
Proof.
  intros HY. destruct (year_text_inv Y HY) as (Yd & _ & Ylen).
  rewrite <- Ylen at 1. apply rep_exact; [now rewrite <- all_digits_all_chars | now right].
Qed.

Lemma month_index (M : string) :
  is_month_text M ->
  exists i, index (lower M) (lower <$> month_names) = Some i
            /\ (1 <= month_number M <= 12)%N
            /\ month_number M = N.of_nat (S i).
Proof.
  intros H. apply month_text_cases in H as (w & Hw & H).
  unfold month_number. rewrite H.
  each_member Hw; vm_compute; eexists; repeat split; discriminate.
Qed.

Lemma valid_date_day (y m d : N) : valid_date y m d = true -> (1 <= d <= 31)%N.
Proof.
  unfold valid_date. rewrite !andb_true_iff, !N.leb_le. intros H.
  assert (days_in_month y m <= 31)%N.
  { unfold days_in_month.
    destruct m as [|[[[[p|p|]|[p|p|]|]|[[p|p|]|[p|p|]|]|]|[[[p|p|]|[p|p|]|]|[[p|p|]|[p|p|]|]|]|]];
      try destruct (is_leap y); lia. }
  lia.
Qed.

(** [strptime] on the text the extractor builds from the three groups. *)
Lemma strptime_long_date (M D Y : string) :
  is_month_text M -> is_day_text D = true -> is_year_text Y = true ->
  strptime (M +:+ " " +:+ D +:+ ", " +:+ Y)
  = if valid_date (int Y) (month_number M) (int D)
    then Ret (int Y, month_number M) else Raise "ValueError".
Proof.
  intros HM HD HY.
  destruct (day_text_inv D HD) as (Dd & Dne & _ & _).
  destruct (year_text_inv Y HY) as (Yd & Yne & _).
  destruct (month_index M HM) as (i & Hi & _ & Hn).
  unfold strptime, match_at, format_regex.
  rewrite run_cat. unfold directive_B. rewrite run_group, run_directive_B_names by assumption.
  cbv beta. rewrite run_cat, run_class.
  rewrite rep_one_space by (apply stops_digits; auto using isdigit_not_space).
  change (", " +:+ Y) with ("," +:+ " " +:+ Y).
  rewrite run_directive_d by assumption.
  destruct (day_regex_ok D) eqn:Hok.
  - rewrite run_cat, run_class.
    rewrite rep_one_space by (rewrite <- (append_nil_r Y); apply stops_digits; auto using isdigit_not_space).
    unfold directive_Y. rewrite run_group, run_class.
    rewrite <- (append_nil_r Y) at 1. rewrite rep_year by assumption.
    simpl app. cbv iota beta. rewrite Hi, Hn. reflexivity.
  - destruct (valid_date (int Y) (month_number M) (int D)) eqn:Hv; [|reflexivity].
    apply valid_date_day in Hv. unfold day_regex_ok in Hok.
    apply andb_false_iff in Hok as [Hok | Hok]; apply N.leb_gt in Hok; lia.
Qed.

Lemma strftime_eq (y m : N) :
  strftime (y, m) = decimal_of_N y +:+ "-" +:+ two_digits m.
Proof. reflexivity. Qed.

(** Lines 95-103 on the groups of a long-form date. *)
Lemma format_date (M D Y : string) :
  is_month_text M -> is_day_text D = true -> is_year_text Y = true ->
  format_groups [M; D; Y]
  = if valid_date (int Y) (month_number M) (int D)
    then Ret (decimal_of_N (int Y) +:+ "-" +:+ two_digits (month_number M))
    else Raise "ValueError".
Proof.
  intros HM HD HY. unfold format_groups.
  rewrite (strptime_long_date M D Y HM HD HY).
  destruct (valid_date _ _ _); reflexivity.
Qed.

Lemma date_at_texts (M D Y s : string) :
  date_at M D Y s -> is_month_text M /\ is_day_text D = true /\ is_year_text Y = true.
Proof. intros (ws1 & comma & ws2 & rest & _ & ? & _ & _ & ? & _ & _ & _ & ?). auto. Qed.

Lemma first_date_texts (M D Y s : string) :
  first_date M D Y s -> is_month_text M /\ is_day_text D = true /\ is_year_text Y = true.
Proof. intros (a & b & _ & Hd & _). exact (date_at_texts M D Y b Hd). Qed.

(** A date that decides, under the handler of line 120. *)
Lemma format_caught (now M D Y : string) :
  is_month_text M -> is_day_text D = true -> is_year_text Y = true ->
  catch (format_groups [M; D; Y]) (fun _ => Ret now) = Ret (year_month now M D Y).
Proof.
  intros HM HD HY. rewrite (format_date M D Y HM HD HY). unfold year_month.
  destruct (valid_date _ _ _); reflexivity.
Qed.

(** *** The year as [%Y] prints it *)

Lemma int_go_digits (s : string) :
  all_digits s = true ->
  forall acc k, int_go acc s = fst (fst (PyFloat.digits_go acc k s)).
Proof.
  induction s as [|c s IH]; intros H acc k; [reflexivity|].
  simpl in H. apply andb_prop in H as [Hc Hs].
  cbn [int_go PyFloat.digits_go]. rewrite Hc. now apply IH.
Qed.

Lemma int_uint (d : Decimal.uint) :
  int (NilEmpty.string_of_uint d) = N.of_uint d.
Proof.
  unfold int. rewrite (int_go_digits _ (all_digits_uint d) 0%N 0%nat).
  now rewrite digits_go_uint.
Qed.

Lemma digits_uint (s : string) :
  all_digits s = true -> exists d, NilEmpty.string_of_uint d = s.
Proof.
  induction s as [|c s IH]; [exists Decimal.Nil; reflexivity|].
  simpl. intros H. apply andb_prop in H as [Hc Hs].
  destruct (IH Hs) as [d <-]. apply digit_cases in Hc.
  each_member Hc;
    [ exists (Decimal.D0 d) | exists (Decimal.D1 d) | exists (Decimal.D2 d)
    | exists (Decimal.D3 d) | exists (Decimal.D4 d) | exists (Decimal.D5 d)
    | exists (Decimal.D6 d) | exists (Decimal.D7 d) | exists (Decimal.D8 d)
    | exists (Decimal.D9 d) ]; reflexivity.
Qed.

Lemma digit_char_val (c : ascii) :
  isdigit c = true ->
  (N.of_nat (code c - 48) < 10)%N
  /\ ascii_of_N (48 + N.of_nat (code c - 48)) = c.
Proof.
  intros H. apply digit_cases in H. each_member H; vm_compute; split; reflexivity.
Qed.

(** A text of four digits that begins with 0 reads below 1000. *)
Lemma year_below_1000 (Y : string) :
  is_year_text Y = true -> (1000 <= int Y)%N -> ~ startswith "0" Y = true.
Proof.
  intros HY Hge Hz. destruct (year_text_inv Y HY) as (Yd & _ & Ylen).
  destruct Y as [|y1 [|y2 [|y3 [|y4 [|y5 Y]]]]]; try discriminate Ylen.
  cbn [startswith] in Hz. rewrite andb_true_r in Hz. apply Ascii.eqb_eq in Hz. subst y1.
  simpl in Yd. repeat (apply andb_prop in Yd as [? Yd]).
  unfold int in Hge. cbn [int_go] in Hge.
  repeat match goal with H : isdigit _ = true |- _ =>
    rewrite H in Hge; destruct (digit_char_val _ H) as [? _]; clear H end.
  change (N.of_nat (code "0" - 48)) with 0%N in Hge.
  change (isdigit "0") with true in Hge. cbv iota in Hge. lia.
Qed.

(** From the year 1000 on, printing the year read from four digits gives
    the four digits back. *)
Lemma year_text_decimal (Y : string) :
  is_year_text Y = true -> (1000 <= int Y)%N -> decimal_of_N (int Y) = Y.
Proof.
  intros HY Hge. pose proof (year_below_1000 Y HY Hge) as Hz.
  destruct (year_text_inv Y HY) as (Yd & Yne & _).
  destruct (digits_uint Y Yd) as [d <-].
  unfold decimal_of_N. rewrite int_uint, DecimalN.Unsigned.to_of.
  destruct d; try reflexivity; [now elim Yne | exfalso; apply Hz; reflexivity].
Qed.
(** *** The declarative reading of the date pattern is exact *)

Lemma first_date_iff (M D Y s : string) :
  first_date M D Y s <-> search date_pattern s = Some [M; D; Y].
Proof.
  split; [apply search_first_date|]. intros H.
  pose proof (search_date_inv s) as Hinv. rewrite H in Hinv.
  destruct Hinv as (M' & D' & Y' & [= -> -> ->] & Hf). exact Hf.
Qed.

Lemma no_date_iff (s : string) :
  no_date s <-> search date_pattern s = None.
Proof.
  split; [apply search_no_date|]. intros H.
  pose proof (search_date_inv s) as Hinv. now rewrite H in Hinv.
Qed.

Lemma no_date_substring (t s : string) : substring t s -> no_date s -> no_date t.
Proof.
  intros Hsub Hs. apply no_date_iff. apply no_date_iff in Hs.
  destruct (search date_pattern t) eqn:E; [|reflexivity].
  exfalso. apply (search_substring date_pattern t s Hsub); congruence.
Qed.

(** *** The loop over the "As of" patterns *)

Lemma as_of_loop_cons (content : string) (pattern : regex) (patterns : list regex) :
  as_of_loop content (pattern :: patterns)
  = match as_of_capture pattern content with
    | Some date_str =>
        match search date_pattern date_str with
        | Some date_match => formatted_date ← format_groups date_match; Ret (Some formatted_date)
        | None => as_of_loop content patterns
        end
    | None => as_of_loop content patterns
    end.
Proof. unfold as_of_capture. cbn [as_of_loop]. destruct (search pattern content); reflexivity. Qed.

(** The first pattern whose captured text holds a date decides. *)
Lemma as_of_loop_decides (content : string) (patterns : list regex) :
  forall (i : nat) pattern date_str M D Y,
    patterns !! i = Some pattern ->
    (forall (j : nat) pattern' t, (j < i)%nat -> patterns !! j = Some pattern' ->
        as_of_capture pattern' content = Some t -> no_date t) ->
    as_of_capture pattern content = Some date_str ->
    first_date M D Y date_str ->
    as_of_loop content patterns
    = (formatted_date ← format_groups [M; D; Y]; Ret (Some formatted_date)).
Proof.
  induction patterns as [|p ps IH]; intros i pattern date_str M D Y Hi Hbefore Hc Hd;
    [destruct i; discriminate|].
  rewrite as_of_loop_cons. destruct i as [|i].
  - injection Hi as ->. rewrite Hc. now rewrite (search_first_date M D Y date_str Hd).
  - assert (Hrest : as_of_loop content ps
                    = (formatted_date ← format_groups [M; D; Y]; Ret (Some formatted_date))).
    { apply (IH i pattern date_str); try assumption.
      intros j p' t Hj. apply (Hbefore (S j)). lia. }
    destruct (as_of_capture p content) as [t|] eqn:E; [|exact Hrest].
    rewrite (search_no_date t); [exact Hrest|].
    apply (Hbefore 0%nat p t); [lia | reflexivity | assumption].
Qed.

Lemma as_of_loop_none (content : string) (patterns : list regex) :
  (forall pattern t, pattern ∈ patterns -> as_of_capture pattern content = Some t -> no_date t) ->
  as_of_loop content patterns = Ret None.
Proof.
  induction patterns as [|p ps IH]; intros H; [reflexivity|].
  rewrite as_of_loop_cons.
  assert (Hrest : as_of_loop content ps = Ret None).
  { apply IH. intros p' t Hp'. apply H. now right. }
  destruct (as_of_capture p content) as [t|] eqn:E; [|exact Hrest].
  rewrite (search_no_date t); [exact Hrest|]. apply (H p t); [left | assumption].
Qed.

Lemma extract_decided (now content M D Y : string) :
  as_of_loop content as_of_patterns
  = (formatted_date ← format_groups [M; D; Y]; Ret (Some formatted_date)) ->
  extract_try now content = format_groups [M; D; Y].
Proof.
  intros H. unfold extract_try. rewrite H. destruct (format_groups [M; D; Y]); reflexivity.
Qed.

Lemma extract_fallback (now content M D Y : string) :
  as_of_loop content as_of_patterns = Ret None ->
  first_date M D Y content ->
  extract_try now content = format_groups [M; D; Y].
Proof.
  intros H Hd. unfold extract_try. rewrite H.
  destruct (findall_first _ _ _ (search_first_date M D Y content Hd)) as [more ->].
  reflexivity.
Qed.

Lemma extract_no_date (now content : string) :
  no_date content -> extract_try now content = Ret now.
Proof.
  intros Hs. apply search_no_date in Hs.
  unfold extract_try. rewrite (as_of_loop_no_date content _ Hs).
  now rewrite (findall_none _ _ Hs).
Qed.

(** *** The text behind the first "as of:" *)

Lemma is_empty_app (a b : string) : is_empty (a +:+ b) = is_empty a && is_empty b.
Proof. destruct a; reflexivity. Qed.

Lemma span_line_spec (s : string) :
  s = fst (span_line s) +:+ snd (span_line s)
  /\ all_chars not_crlftab (fst (span_line s)) = true
  /\ stops not_crlftab (snd (span_line s)) = true.
Proof.
  induction s as [|c s IH]; simpl; [auto|].
  destruct (not_crlftab c) eqn:E.
  - revert IH. destruct (span_line s) as [l r]. simpl. intros (IH1 & IH2 & IH3).
    rewrite E. simpl. repeat split; congruence.
  - simpl. rewrite E. auto.
Qed.

Lemma span_line_stop (tail : string) :
  stops not_crlftab tail = true -> span_line tail = (EmptyString, tail).
Proof.
  destruct tail as [|c tail]; simpl; [reflexivity|].
  intros H. apply negb_true_iff in H. now rewrite H.
Qed.

(** The first pattern of the marker at the marker: the group is the rest
    of the line. *)
Lemma match_as_of (marker ws T tail : string) :
  lower marker = "as of:" -> all_space ws = true ->
  all_chars not_crlftab T = true -> stops isspace (T +:+ tail) = true -> T <> EmptyString ->
  exists c,
    match_at (Cat (Chars "As of:") (Cat (Class isspace 0 None) trailing_text))
             (marker +:+ ws +:+ T +:+ tail)
    = Some (c, snd (span_line tail), [T +:+ fst (span_line tail)]).
Proof.
  intros Hm Hws HT Hstop Hne.
  destruct (span_line_spec tail) as (Htail & Hline & Hrest).
  unfold match_at. rewrite run_cat. cbn [run].
  rewrite (chars_ci "As of:" marker) by (now rewrite Hm).
  eexists.
  apply (rep_span isspace ws 0 None);
    [now rewrite <- all_space_all_chars | lia | assumption |].
  unfold trailing_text. rewrite run_group, run_class.
  rewrite Htail at 1. rewrite <- append_assoc.
  apply (rep_span not_crlftab (T +:+ fst (span_line tail)) 1 None);
    [rewrite all_chars_app; now rewrite HT, Hline | | assumption | reflexivity].
  destruct T; [congruence | simpl; lia].
Qed.

Lemma string_length_app (a b : string) :
  String.length (a +:+ b) = (String.length a + String.length b)%nat.
Proof. induction a as [|c a IH]; simpl; congruence. Qed.

(** A pattern that begins with literal text is first tried with success
    where the text first occurs. *)
Lemma search_skip (w : string) (r : regex) (pre X : string) (i : nat) :
  find_ci_go (lower w) (pre +:+ X) i = Some (i + String.length pre)%nat ->
  search (Cat (Chars w) r) (pre +:+ X) = search (Cat (Chars w) r) X.
Proof.
  revert i. induction pre as [|a pre IH]; intros i; [reflexivity|].
  cbn [String.append find_ci_go search String.length].
  destruct (startswith (lower w) (lower (String a (pre +:+ X)))) eqn:E.
  - intros [= H]. lia.
  - intros H. unfold match_at at 1. cbn [run]. rewrite (chars_none_ci w _ E).
    apply (IH (S i)). rewrite H. f_equal. lia.
Qed.

(** At the first "as of:" of the content, whatever its case, followed
    after any whitespace by text on a line: the first pattern captures
    that text, up to the next tab or line break. *)
Lemma capture_first_marker (pre marker ws line tail : string) :
  let content := pre +:+ marker +:+ ws +:+ line +:+ tail in
  find_ci "as of:" content = Some (String.length pre) ->
  lower marker = "as of:" -> all_space ws = true ->
  line <> EmptyString -> all_chars not_crlftab line = true ->
  stops isspace line = true -> stops not_crlftab tail = true ->
  exists pattern,
    as_of_patterns !! 0%nat = Some pattern
    /\ as_of_capture pattern content = Some (strip line).
Proof.
  intros content Hfind Hm Hws Hne Hline Hstop Htail. subst content.
  assert (Hstop' : stops isspace (line +:+ tail) = true).
  { destruct line; [congruence | exact Hstop]. }
  destruct (match_as_of marker ws line tail Hm Hws Hline Hstop' Hne) as [c Hmatch].
  rewrite (span_line_stop tail Htail) in Hmatch. simpl fst in Hmatch. simpl snd in Hmatch.
  rewrite append_nil_r in Hmatch.
  eexists. split; [reflexivity|].
  unfold as_of_capture.
  rewrite (search_skip "As of:" _ pre _ 0 Hfind).
  rewrite (search_here _ _ _ _ _ Hmatch). reflexivity.
Qed.

(** A date that decides gives its year and month, or the current month
    when it is no calendar date. *)
Lemma extract_decides (now content date_str M D Y : string) :
  first_date M D Y date_str ->
  extract_try now content = format_groups [M; D; Y] ->
  extract_date_from_tsv_file now (Ret content) = Ret (year_month now M D Y).
Proof.
  intros Hd He.
  destruct (first_date_texts M D Y date_str Hd) as (HM & HD & HY).
  unfold extract_date_from_tsv_file. cbn [mbind Exc_bind bind]. rewrite He.
  now apply format_caught.
Qed.

(** The header case: the first date of the text behind the first
    "as of:" decides. *)
Lemma extract_first_marker (now pre marker ws line tail M D Y : string) :
  let content := pre +:+ marker +:+ ws +:+ line +:+ tail in
  find_ci "as of:" content = Some (String.length pre) ->
  lower marker = "as of:" -> all_space ws = true ->
  line <> EmptyString -> all_chars not_crlftab line = true ->
  stops isspace line = true -> stops not_crlftab tail = true ->
  first_date M D Y (strip line) ->
  extract_date_from_tsv_file now (Ret content) = Ret (year_month now M D Y).
Proof.
  intros content Hfind Hm Hws Hne Hline Hstop Htail Hd.
  destruct (capture_first_marker pre marker ws line tail Hfind Hm Hws Hne Hline Hstop Htail)
    as (pattern & Hp & Hc).
  apply (extract_decides now content (strip line) M D Y Hd). apply extract_decided.
  apply (as_of_loop_decides _ as_of_patterns 0%nat pattern (strip line)); try assumption.
  intros j p' t Hj. lia.
Qed.

(** C3, as stated, fails. With an earlier "as of:" that carries no date,
    the extractor does not return the date of a later "As of:" line but the
    first date of the content; and a first long-form date that is no
    calendar date (June 31) gives the current month, although a date
    follows it. *)
Lemma C3_not_every_as_of_line :
  extract_date_from_tsv_file "2026-11" (Ret earlier_marker_content) = Ret "2020-01"
  /\ extract_date_from_tsv_file "2026-11" (Ret "June 31, 2024 and July 1, 2024") = Ret "2026-11"
  /\ ~ (forall now pre M D Y tail,
          M ∈ month_names -> is_day_text D = true -> is_year_text Y = true ->
          valid_date (int Y) (month_number M) (int D) = true ->
          extract_date_from_tsv_file now
            (Ret (pre +:+ "As of: " +:+ long_date M D ", " Y +:+ tail))
          = Ret (Y +:+ "-" +:+ two_digits (month_number M)))
  /\ ~ (forall now content M D Y,
          find_ci "as of" content = None ->
          search date_pattern content = Some [M; D; Y] ->
          extract_date_from_tsv_file now (Ret content)
          = Ret (Y +:+ "-" +:+ two_digits (month_number M))).
Proof.
  split; [vm_compute; reflexivity|]. split; [vm_compute; reflexivity|]. split.
  - intros H.
    specialize (H "2026-11" ("Prepared January 1, 2020" +:+ String "010" "as of: n/a" +:+ String "010" EmptyString)
                  "September" "5" "2024" (String "010" EmptyString)).
    assert (HM : "September" ∈ month_names) by (vm_compute; repeat constructor).
    specialize (H HM eq_refl eq_refl eq_refl). vm_compute in H. discriminate H.
  - intros H.
    specialize (H "2026-11" "June 31, 2024 and July 1, 2024" "June" "31" "2024" eq_refl).
    assert (Hs : search date_pattern "June 31, 2024 and July 1, 2024" = Some ["June"; "31"; "2024"])
      by (vm_compute; reflexivity).
    specialize (H Hs). vm_compute in H. discriminate H.
Qed.

(** C3, amended. The extractor tries its three "As of" patterns in turn.
    For each it takes the first match in the content and the text captured
    behind the marker, stripped; the first pattern whose captured text
    holds a long-form date decides, with the first date of that text. At
    the first "as of:" of the content (any case), the text captured runs
    from the first character that is no whitespace after the marker up to
    the next tab or line break. When no pattern captures a text with a
    date, as when the content has no "as of" at all, the first long-form
    date of the content decides. A date that decides gives its year and
    its month on two digits when it is a calendar date (YYYY-MM from the
    year 1000 on), and the current month otherwise. With no long-form date
    anywhere, or when the file cannot be read, the result is the current
    month. *)
Theorem C3_ordered_fallback (now content : string) :
  (forall (i : nat) pattern date_str M D Y,
      as_of_patterns !! i = Some pattern ->
      (forall (j : nat) pattern' t, (j < i)%nat -> as_of_patterns !! j = Some pattern' ->
          as_of_capture pattern' content = Some t -> no_date t) ->
      as_of_capture pattern content = Some date_str ->
      first_date M D Y date_str ->
      extract_date_from_tsv_file now (Ret content) = Ret (year_month now M D Y))
  /\ (forall pre marker ws line tail M D Y,
      content = pre +:+ marker +:+ ws +:+ line +:+ tail ->
      find_ci "as of:" content = Some (String.length pre) ->
      lower marker = "as of:" -> all_space ws = true ->
      line <> EmptyString -> all_chars not_crlftab line = true ->
      stops isspace line = true -> stops not_crlftab tail = true ->
      first_date M D Y (strip line) ->
      extract_date_from_tsv_file now (Ret content) = Ret (year_month now M D Y))
  /\ (forall M D Y,
      (forall pattern t, pattern ∈ as_of_patterns ->
          as_of_capture pattern content = Some t -> no_date t) ->
      first_date M D Y content ->
      extract_date_from_tsv_file now (Ret content) = Ret (year_month now M D Y))
  /\ (forall M D Y,
      find_ci "as of" content = None ->
      first_date M D Y content ->
      extract_date_from_tsv_file now (Ret content) = Ret (year_month now M D Y))
  /\ (no_date content ->
      extract_date_from_tsv_file now (Ret content) = Ret now)
  /\ (forall e, extract_date_from_tsv_file now (Raise e) = Ret now)
  /\ (forall M D Y,
      is_year_text Y = true -> (1000 <= int Y)%N ->
      valid_date (int Y) (month_number M) (int D) = true ->
      year_month now M D Y = Y +:+ "-" +:+ two_digits (month_number M)).
Proof.
  split; [|split; [|split; [|split; [|split; [|split]]]]].
  - intros i pattern date_str M D Y Hi Hbefore Hc Hd.
    apply (extract_decides now content date_str M D Y Hd). apply extract_decided.
    now apply (as_of_loop_decides content as_of_patterns i pattern date_str).
  - intros pre marker ws line tail M D Y -> Hfind Hm Hws Hne Hline Hstop Htail Hd.
    now apply extract_first_marker.
  - intros M D Y Hnone Hd.
    apply (extract_decides now content content M D Y Hd). apply extract_fallback; [|assumption].
    now apply as_of_loop_none.
  - intros M D Y Hm Hd.
    apply (extract_decides now content content M D Y Hd). apply extract_fallback; [|assumption].
    now apply as_of_loop_no_marker.
  - intros Hs. unfold extract_date_from_tsv_file. cbn [mbind Exc_bind bind].
    now rewrite (extract_no_date now content Hs).
  - reflexivity.
  - intros M D Y HY Hge Hv. unfold year_month. rewrite Hv.
    now rewrite (year_text_decimal Y HY Hge).
Qed.
Lemma C3_ordered_fallback_witness :
  extract_date_from_tsv_file "2026-11"
    (Ret ("IMF" +:+ nl +:+ "as OF:  report of September 5 2024 (final)  " +:+ nl +:+ "x"))
  = Ret "2024-09"
  /\ extract_date_from_tsv_file "2026-11"
       (Ret ("As of : June 30, 2025" +:+ nl +:+ "As of: n/a" +:+ nl))
     = Ret "2025-06"
  /\ extract_date_from_tsv_file "2026-11" (Ret earlier_marker_content) = Ret "2020-01"
  /\ extract_date_from_tsv_file "2026-11" (Ret "text effective October 12, 2023 more")
     = Ret "2023-10"
  /\ extract_date_from_tsv_file "2026-11" (Ret "no date here") = Ret "2026-11"
  /\ year_month "2026-11" "march" "5" "0999" = "999-03".
Proof.
  split; [|split; [|split; [|split; [|split]]]].
  - apply (proj1 (proj2 (C3_ordered_fallback "2026-11" _))
             ("IMF" +:+ nl) "as OF:" "  " "report of September 5 2024 (final)  " (nl +:+ "x")
             "September" "5" "2024");
      try reflexivity; [discriminate | apply first_date_iff; reflexivity].
  - eapply (proj1 (C3_ordered_fallback "2026-11" _) 1%nat _ "June 30, 2025" "June" "30" "2025");
      [reflexivity | | reflexivity | apply first_date_iff; reflexivity].
    intros j pattern' t Hj Hp Hc. assert (j = 0%nat) as -> by lia.
    injection Hp as <-. vm_compute in Hc. injection Hc as <-.
    apply no_date_iff. reflexivity.
  - apply (proj1 (proj2 (proj2 (C3_ordered_fallback "2026-11" _))) "January" "1" "2020");
      [| apply first_date_iff; reflexivity].
    intros pattern t Hp Hc.
    each_member Hp; vm_compute in Hc; injection Hc as <-; apply no_date_iff; reflexivity.
  - apply (proj1 (proj2 (proj2 (proj2 (C3_ordered_fallback "2026-11" _)))) "October" "12" "2023");
      [reflexivity | apply first_date_iff; reflexivity].
  - apply (proj1 (proj2 (proj2 (proj2 (proj2 (C3_ordered_fallback "2026-11" _)))))).
    apply no_date_iff. reflexivity.
  - reflexivity.
Defined.
(* ===================================================================== *)
(** ** End to end (C2)                                                    *)
(* ===================================================================== *)

(** *** Lines and fields of a plain text *)















(** *** The first "as of:" of a text of lines *)





(** *** The date of the example *)



(** *** The frame read from the example *)


(* ===================================================================== *)
(** ** Serialization failure (C6)                                         *)
(* ===================================================================== *)

(** C6, as stated, fails: when the writer raises, [main] of map.py
    catches the exception and the process ends with status 0; with a file
    nabimfd_summary.xlsx in place, the pipeline process ends with status 0
    as well. *)
Lemma C6_write_failure_exit_zero :
  write_xlsx write_fails_world = Raise "PermissionError"
  /\ exit_status (main write_fails_world) = 0%nat
  /\ saved (main write_fails_world) = None
  /\ Orchestrator.main (pipeline_env write_fails_world true true true) = 0%nat
  /\ ~ (forall w e, write_xlsx w = Raise e ->
          exit_status (main w) <> 0%nat
          /\ forall rq ex su, Orchestrator.main (pipeline_env w rq ex su) <> 0%nat).
Proof.
  split; [reflexivity|]. split; [vm_compute; reflexivity|].
  split; [vm_compute; reflexivity|]. split; [vm_compute; reflexivity|].
  intros H. destruct (H write_fails_world "PermissionError" eq_refl) as [H0 _].
  apply H0. vm_compute. reflexivity.
Qed.

Lemma main_exit_status (w : World) : exit_status (main w) = 0%nat.
Proof.
  unfold main. destruct (negb (source_exists w)); [reflexivity|].
  destruct (main_try w); reflexivity.
Qed.

(** C6, amended: when the table is built and writing the workbook raises,
    [main] of map.py catches the exception, prints "An unexpected error
    occurred" with it, reports no saved sheet, and its process ends with
    status 0. *)
Theorem C6_write_failure_swallowed (w : World) (t : table) (e : string) :
  source_exists w = true ->
  build w = Ret t ->
  write_xlsx w = Raise e ->
  main w = mkOutcome 0 None (UnexpectedError e).
Proof.
  intros Hs Hb Hw.
  unfold main, main_try, write_table. rewrite Hs, Hb. simpl. rewrite Hw. reflexivity.
Qed.

Lemma C6_write_failure_swallowed_witness :
  build write_fails_world = Ret [header_row_1; header_row_2; france_data_row]
  /\ main write_fails_world = mkOutcome 0 None (UnexpectedError "PermissionError").
Proof.
  assert (Hb : build write_fails_world = Ret [header_row_1; header_row_2; france_data_row])
    by (vm_compute; reflexivity).
  split; [exact Hb|].
  exact (C6_write_failure_swallowed write_fails_world _ "PermissionError" eq_refl Hb eq_refl).
Defined.

(* ===================================================================== *)
(** * Further properties of map.py and orchestrator.py                    *)
(* ===================================================================== *)

(* ===================================================================== *)
(** ** get_country_name_from_code                                         *)
(* ===================================================================== *)

(** X1: [get_country_name_from_code] inverts the registry: the name it gives
    for the code of an entry has that code in the registry; it is the
    entry's own name except for "Russian Federation", whose code comes
    back as "Russia", the name declared last. *)
Theorem name_of_code_inverse (name code : string) :
  (name, code) ∈ COUNTRY_CODES ->
  assoc (get_country_name_from_code code) COUNTRY_CODES = Some code
  /\ (get_country_name_from_code code = name
      \/ (name = "Russian Federation" /\ get_country_name_from_code code = "Russia")).
Proof.
  intros H. apply list_elem_of_In in H. unfold COUNTRY_CODES in H. cbn [In] in H.
  repeat (destruct H as [H | H]; [injection H as <- <-; vm_compute; auto|]).
  destruct H.
Qed.

Lemma name_of_code_inverse_witness :
  assoc (get_country_name_from_code "NABIMFD.RUS.M") COUNTRY_CODES
  = Some "NABIMFD.RUS.M"
  /\ (get_country_name_from_code "NABIMFD.RUS.M" = "Russian Federation"
      \/ ("Russian Federation" = "Russian Federation"
          /\ get_country_name_from_code "NABIMFD.RUS.M" = "Russia")).
Proof.
  apply (name_of_code_inverse "Russian Federation" "NABIMFD.RUS.M").
  apply list_elem_of_In. unfold COUNTRY_CODES. cbn [In].
  repeat (first [left; reflexivity | right]).
Defined.

Lemma startswith_length (old s : string) :
  startswith old s = true -> (String.length old <= String.length s)%nat.
Proof.
  revert s. induction old as [|a old IH]; intros s; simpl; [lia|].
  destruct s as [|b s]; [discriminate|]. intros H. apply andb_prop in H as [_ H].
  apply IH in H. simpl. lia.
Qed.

Lemma contains_short (old s : string) :
  (String.length s < String.length old)%nat -> contains old s = false.
Proof.
  induction s as [|c s IH]; intros H.
  - simpl. destruct old; [simpl in H; lia | reflexivity].
  - cbn [contains]. rewrite IH by (simpl in H; lia).
    destruct (startswith old (String c s)) eqn:E; [|reflexivity].
    apply startswith_length in E. lia.
Qed.

Lemma replace_go_absent (old new s : string) :
  contains old s = false -> replace_go old new 0 s = s.
Proof.
  induction s as [|c s IH]; [reflexivity|]. cbn [contains replace_go].
  intros H. apply orb_false_elim in H as [-> H]. now rewrite IH.
Qed.

Lemma replace_go_skip (old new u t : string) :
  replace_go old new (String.length u) (u +:+ t) = replace_go old new 0 t.
Proof.
  induction u as [|c u IH]; [reflexivity|]. simpl. exact IH.
Qed.

Lemma startswith_app (old t : string) : startswith old (old +:+ t) = true.
Proof. induction old as [|c old IH]; simpl; [reflexivity|]. now rewrite Ascii.eqb_refl. Qed.

(** An occurrence at the start is replaced, then the rest is scanned. *)
Lemma replace_prefix (c : ascii) (old new t : string) :
  PyStr.replace (String c old) new (String c old +:+ t) = new +:+ PyStr.replace (String c old) new t.
Proof.
  unfold PyStr.replace. cbn [String.append replace_go].
  change (String c (old +:+ t)) with (String c old +:+ t).
  rewrite startswith_app. cbn [String.length]. rewrite Nat.sub_succ, Nat.sub_0_r.
  now rewrite replace_go_skip.
Qed.

Lemma replace_whole (c : ascii) (old new : string) :
  PyStr.replace (String c old) new (String c old) = new.
Proof.
  pose proof (replace_prefix c old new EmptyString) as H.
  rewrite append_nil_r in H. rewrite H. unfold PyStr.replace. simpl. apply append_nil_r.
Qed.

Lemma replace_suffix_only (c : ascii) (old x : string) :
  contains (String c EmptyString) x = false ->
  PyStr.replace (String c old) EmptyString (x +:+ String c old) = x.
Proof.
  induction x as [|d x IH]; intros H.
  - apply replace_whole.
  - cbn [contains startswith] in H. apply orb_false_elim in H as [H1 H2].
    rewrite andb_true_r in H1. unfold PyStr.replace in *.
    cbn [String.append replace_go startswith]. rewrite H1. cbn [andb]. now rewrite IH.
Qed.

(** X2: a code outside the registry: the prefix and the suffix are cut away. *)
Theorem name_of_unknown_code (x : string) :
  contains "." x = false -> (String.length x <= 5)%nat ->
  code_to_country ("NABIMFD." +:+ x +:+ ".M") = None ->
  get_country_name_from_code ("NABIMFD." +:+ x +:+ ".M") = x.
Proof.
  intros Hdot Hlen Hnone. unfold get_country_name_from_code. rewrite Hnone.
  rewrite (replace_prefix "N" "ABIMFD." EmptyString (x +:+ ".M")).
  cbn [String.append]. unfold PyStr.replace at 2.
  rewrite replace_go_absent.
  - now apply (replace_suffix_only "." "M").
  - apply contains_short. rewrite string_length_app. simpl. lia.
Qed.

Lemma name_of_unknown_code_witness :
  get_country_name_from_code "NABIMFD.XYZ.M" = "XYZ".
Proof. apply (name_of_unknown_code "XYZ"); [reflexivity | simpl; lia | reflexivity]. Defined.

(* ===================================================================== *)
(** ** The table: shape and content of its rows                           *)
(* ===================================================================== *)

Lemma contribution_range (r : Row) (idx : nat) (a : pyfloat) :
  contribution r = Some (idx, a) -> (1 <= idx < 41)%nat.
Proof.
  unfold contribution. destruct (parse_amount _) as [[x|]|]; try discriminate.
  destruct (resolve _ _) as [i|] eqn:E; [|discriminate].
  intros [= <- _]. eapply resolve_range, E.
Qed.

(** What the loop leaves in a column: the cell it found, when no row
    writes the column, and otherwise the amount of a row that does. *)
Lemma foldl_store_cell (rows : list Row) (d0 : list cell) (i : nat) :
  (i < List.length d0)%nat ->
  let d := foldl (fun d r => store d (contribution r)) d0 rows in
  (d !! i = d0 !! i /\ forall r, r ∈ rows -> fst <$> contribution r ≠ Some i)
  \/ (exists r a, r ∈ rows /\ contribution r = Some (i, a) /\ d !! i = Some (CNum a)).
Proof.
  intros Hi. induction rows as [|r rows IH] using rev_ind; simpl.
  - left. split; [reflexivity|]. intros r Hr. apply elem_of_nil in Hr. destruct Hr.
  - rewrite foldl_app. simpl.
    destruct (contribution r) as [[j a]|] eqn:E; simpl.
    + destruct (decide (j = i)) as [->|Hne].
      * right. exists r, a. split; [apply elem_of_app; right; left|]. split; [assumption|].
        apply list_lookup_insert_eq. now rewrite foldl_store_length.
      * rewrite list_lookup_insert_ne by assumption.
        destruct IH as [[IH1 IH2] | (r' & a' & Hr' & Hc & Hd)].
        -- left. split; [assumption|]. intros r' Hr'. apply elem_of_app in Hr' as [Hr'|Hr'].
           ++ now apply IH2.
           ++ apply list_elem_of_singleton in Hr' as ->. rewrite E. simpl. congruence.
        -- right. exists r', a'. split; [apply elem_of_app; now left|]. auto.
    + destruct IH as [[IH1 IH2] | (r' & a' & Hr' & Hc & Hd)].
      * left. split; [assumption|]. intros r' Hr'. apply elem_of_app in Hr' as [Hr'|Hr'].
        -- now apply IH2.
        -- apply list_elem_of_singleton in Hr' as ->. rewrite E. discriminate.
      * right. exists r', a'. split; [apply elem_of_app; now left|]. auto.
Qed.

(** X3: the shape of the table of a run whose frame has text in its member
    and facility columns: three rows of forty-one cells; the first row is
    the column order, each label of the second names a country that the
    registry maps to the code above it, and the third starts with the
    report date, which no row can overwrite. *)
Theorem table_shape (w : World) (df : Frame) :
  read_csv w = Ret df ->
  member_str df = true -> facility_str df = true ->
  exists report_date data_row,
    extract_date_from_tsv_file (now w) (file_text w) = Ret report_date
    /\ build w = Ret [header_row_1; header_row_2; data_row]
    /\ List.length header_row_1 = 41%nat /\ List.length header_row_2 = 41%nat
    /\ List.length data_row = 41%nat
    /\ data_row !! 0%nat = Some (CStr report_date)
    /\ (forall i code, STANDARD_COLUMN_ORDER !! i = Some code ->
          header_row_1 !! i = Some (CStr code)
          /\ ((i = 0%nat /\ header_row_2 !! i = Some (CStr EmptyString))
              \/ exists name,
                   header_row_2 !! i
                   = Some (CStr ("New Arrangement to Borrow IMF Data: " +:+ name))
                   /\ assoc name COUNTRY_CODES = Some code)).
Proof.
  intros Hr Hm Hf.
  destruct (build_rows w df _ Hr (filter_stage_text df Hm Hf)) as (d & Hd & Hb).
  eexists d, _. split; [exact Hd|]. split; [exact Hb|].
  split; [reflexivity|]. split; [reflexivity|].
  split; [now rewrite foldl_store_length|].
  split.
  - rewrite foldl_store_other; [reflexivity|].
    intros r _. destruct (contribution r) as [[j a]|] eqn:E; [|discriminate].
    apply contribution_range in E. simpl. intros [= ->]. lia.
  - intros i code Hi.
    assert (Hlt : (i < 41)%nat) by (apply lookup_lt_Some in Hi; exact Hi).
    do 41 (destruct i as [|i];
           [injection Hi as <-; split; [reflexivity|];
            first [left; split; reflexivity
                  | right; eexists; split; reflexivity]|]).
    lia.
Qed.

Lemma table_shape_witness :
  let w := mkWorld true (Ret example_text) (Ret example_text) (Raise "ParserError")
                   "2026-11" (Ret ()) in
  exists report_date data_row,
    build w = Ret [header_row_1; header_row_2; data_row]
    /\ data_row !! 0%nat = Some (CStr report_date).
Proof.
  intros w.
  destruct (table_shape w _ eq_refl eq_refl eq_refl) as (d & row & _ & Hb & _ & _ & _ & H0 & _).
  exists d, row. split; assumption.
Defined.

(** X4: row 3, column by column, in a run whose frame passes the filter
    stage: a country column holds nothing when no row of [filtered_df]
    resolves to it, and otherwise the parsed amount of a row of
    [filtered_df] that resolves to it; never anything else. *)
Theorem data_row_cells (w : World) (df : Frame) (filtered_df : list Row) (i : nat) :
  read_csv w = Ret df ->
  filter_stage df = Ret filtered_df ->
  (1 <= i < 41)%nat ->
  exists data_row,
    build w = Ret [header_row_1; header_row_2; data_row]
    /\ ((data_row !! i = Some CNone
         /\ forall r, r ∈ filtered_df -> fst <$> contribution r ≠ Some i)
        \/ (exists r a, r ∈ filtered_df /\ contribution r = Some (i, a)
                        /\ data_row !! i = Some (CNum a))).
Proof.
  intros Hr Hf Hi. destruct (build_rows w df filtered_df Hr Hf) as (d & _ & Hb).
  eexists. split; [exact Hb|].
  destruct (foldl_store_cell filtered_df (initial_data_row d) i) as [[H1 H2]|H].
  - rewrite initial_data_row_length. lia.
  - left. split; [|assumption]. rewrite H1. unfold initial_data_row.
    destruct i as [|i]; [lia|].
    change (replicate 40 CNone !! i = Some CNone). apply lookup_replicate_2. lia.
  - right. exact H.
Qed.

Lemma data_row_cells_witness :
  let w := mkWorld true (Ret example_text) (Ret example_text) (Raise "ParserError")
                   "2026-11" (Ret ()) in
  exists data_row,
    build w = Ret [header_row_1; header_row_2; data_row]
    /\ data_row !! 12%nat = Some CNone.
Proof.
  intros w.
  destruct (data_row_cells w _ _ 12 eq_refl eq_refl ltac:(lia))
    as (d & Hb & [[H _] | (r & a & Hr & Hc & _)]).
  - exists d. split; assumption.
  - exfalso. apply list_elem_of_singleton in Hr. subst r.
    vm_compute in Hc. discriminate Hc.
Defined.

Lemma store_commute (d : list cell) (c1 c2 : option (nat * pyfloat)) :
  (forall i1 a1 i2 a2, c1 = Some (i1, a1) -> c2 = Some (i2, a2) -> i1 <> i2) ->
  store (store d c1) c2 = store (store d c2) c1.
Proof.
  intros H. destruct c1 as [[i1 a1]|], c2 as [[i2 a2]|]; simpl; try reflexivity.
  apply list_insert_insert_ne. intros ->. eapply H; reflexivity.
Qed.

(** X5: rows that resolve to different columns can come in any order: when
    no two rows of the list resolve to the same column, the loop gives the
    same data row on every permutation of the list. *)
Theorem for_rows_permutation (rows rows' : list Row) :
  rows ≡ₚ rows' ->
  NoDup (columns_written rows) ->
  forall data_row, for_rows data_row rows = for_rows data_row rows'.
Proof.
  intros Hp Hd d. rewrite !for_rows_store. f_equal. revert d.
  induction Hp as [|x l l' Hp IH|x y l|l1 l2 l3 Hp1 IH1 Hp2 IH2]; intros d.
  - reflexivity.
  - simpl. apply IH. unfold columns_written in *. simpl in Hd.
    destruct (contribution x) as [[i a]|]; simpl in Hd; [now apply NoDup_cons in Hd as [_ Hd] | assumption].
  - simpl. f_equal. apply store_commute. intros i1 a1 i2 a2 E1 E2 ->.
    unfold columns_written in Hd. simpl in Hd. rewrite E1, E2 in Hd. simpl in Hd.
    apply NoDup_cons in Hd as [Hd _]. apply Hd. left.
  - rewrite IH1 by assumption. apply IH2.
    unfold columns_written in *. now rewrite <- Hp1.
Qed.

Lemma for_rows_permutation_witness :
  let r1 := nab_row (Some "France") (Some "FRA") (Some "100") in
  let r2 := nab_row (Some "Italy") (Some "ITA") (Some "2,500") in
  for_rows (initial_data_row "2025-06") [r1; r2] = for_rows (initial_data_row "2025-06") [r2; r1].
Proof.
  intros r1 r2. apply (for_rows_permutation [r1; r2] [r2; r1]).
  - apply perm_swap.
  - vm_compute. repeat constructor; intros H; inversion H; subst;
      match goal with H : _ ∈ [] |- _ => inversion H | H : _ ∈ [_] |- _ => inversion H; subst end;
      match goal with H : _ ∈ [] |- _ => inversion H end.
Defined.

(** X6: a run saves a sheet exactly when the source file exists,
    [read_csv] returns a frame whose member and facility columns hold
    text, every amount left in row 3 is a finite number, and the file
    operations of the writer return; the sheet is then the table built.
    A frame without text in one of the two columns ends the run with
    AttributeError, and an amount that is infinite or no number with
    TypeError. *)
Theorem saved_iff (w : World) :
  (is_Some (saved (main w)) <->
     source_exists w = true
     /\ (exists df data_row,
           read_csv w = Ret df /\ member_str df = true /\ facility_str df = true
           /\ build w = Ret [header_row_1; header_row_2; data_row]
           /\ forall x, CNum x ∈ data_row -> Binary64.is_finite x = true)
     /\ write_xlsx w = Ret ())
  /\ (forall t, saved (main w) = Some t -> build w = Ret t /\ printed (main w) = Success)
  /\ (forall df, source_exists w = true -> read_csv w = Ret df ->
        member_str df && facility_str df = false ->
        main w = mkOutcome 0 None (UnexpectedError "AttributeError"))
  /\ (forall data_row x, source_exists w = true ->
        build w = Ret [header_row_1; header_row_2; data_row] ->
        CNum x ∈ data_row -> Binary64.is_finite x = false ->
        write_xlsx w = Ret () ->
        main w = mkOutcome 0 None (UnexpectedError "TypeError")).
Proof.
  assert (Hwr : forall data_row,
             forallb writable data_row = true
             <-> forall x, CNum x ∈ data_row -> Binary64.is_finite x = true).
  { intros data_row. rewrite forallb_forall. split.
    - intros H x Hx. apply (H (CNum x)). now apply list_elem_of_In.
    - intros H c Hc. destruct c as [| |x]; try reflexivity.
      apply H. now apply list_elem_of_In. }
  split; [|split; [|split]].
  - unfold main, main_try.
    destruct (source_exists w); simpl.
    2:{ split; [intros [x Hx]; discriminate | intros (H & _); discriminate]. }
    destruct (read_csv w) as [df|e] eqn:Hr.
    + destruct (member_str df && facility_str df) eqn:Hstr.
      * apply andb_prop in Hstr as [Hm Hf].
        destruct (build_rows w df _ Hr (filter_stage_text df Hm Hf)) as (d & _ & Hb).
        rewrite Hb. cbn [mbind Exc_bind bind]. unfold write_table.
        destruct (write_xlsx w) as [[]|e]; cbn [mbind Exc_bind bind].
        -- match goal with
           | |- context [default [] ([header_row_1; header_row_2; ?r] !! 2%nat)] =>
               change (default [] ([header_row_1; header_row_2; r] !! 2%nat)) with r
           end.
           destruct (forallb writable _) eqn:Hfin; simpl.
           ++ split; [|eauto]. intros _. split; [reflexivity|]. split; [|reflexivity].
              eexists df, _. repeat split; try assumption. now apply Hwr.
           ++ split; [intros [x Hx]; discriminate|].
              intros (_ & (df' & data_row & _ & _ & _ & [= <-] & Hall) & _).
              apply (proj2 (Hwr _)) in Hall. congruence.
        -- simpl. split; [intros [x Hx]; discriminate | intros (_ & _ & H); discriminate].
      * rewrite (build_no_text w df Hr Hstr). simpl.
        split; [intros [x Hx]; discriminate|].
        intros (_ & (df' & data_row & Hr' & Hm & Hf & _) & _).
        injection Hr' as <-. rewrite Hm, Hf in Hstr. discriminate.
    + assert (Hb : exists e', build w = Raise e').
      { unfold build. destruct (extract_date_total (now w) (file_text w)) as [d ->].
        rewrite Hr. simpl. eauto. }
      destruct Hb as [e' ->]. simpl.
      split; [intros [x Hx]; discriminate|].
      intros (_ & (df & data_row & Hr' & _) & _). discriminate.
  - unfold main, main_try. destruct (source_exists w); simpl; [|discriminate].
    destruct (build w) as [t'|e]; simpl; [|discriminate].
    destruct (write_table w t') as [[]|e]; simpl; [|discriminate].
    intros t [= <-]. auto.
  - intros df Hs Hr Hstr. unfold main, main_try. rewrite Hs.
    now rewrite (build_no_text w df Hr Hstr).
  - intros data_row x Hs Hb Hx Hinf Hw. unfold main, main_try, write_table.
    rewrite Hs, Hb, Hw. cbn [negb mbind Exc_bind bind].
    change (default [] ([header_row_1; header_row_2; data_row] !! 2%nat)) with data_row.
    destruct (forallb writable data_row) eqn:Hfin; [|reflexivity].
    rewrite (proj1 (Hwr data_row) Hfin x Hx) in Hinf. discriminate.
Qed.

(* ===================================================================== *)
(** ** Country Resolver: alias tier and simple tier                       *)
(* ===================================================================== *)

Lemma first_some_app {A B : Type} (f : A -> option B) (l1 l2 : list A) :
  first_some f (l1 ++ l2)
  = match first_some f l1 with Some b => Some b | None => first_some f l2 end.
Proof. induction l1 as [|a l1 IH]; simpl; [reflexivity|]. destruct (f a); auto. Qed.

Lemma first_some_fmap {A B C : Type} (f : A -> option B) (g : C -> A) (l : list C) :
  first_some f (g <$> l) = first_some (fun c => f (g c)) l.
Proof. induction l as [|c l IH]; simpl; [reflexivity|]. destruct (f (g c)); auto. Qed.

(** The two nested loops of the alias tier are one loop over the variants
    in declaration order. *)
Lemma alias_tier_flat (member_name : string) :
  alias_tier member_name
  = first_some (fun cv => alias_variant (fst cv) member_name (snd cv)) flat_variants.
Proof.
  unfold alias_tier, flat_variants.
  assert (Hin : forallb (fun item => notna (assoc (fst item) COUNTRY_CODES)) exact_matches = true)
    by (vm_compute; reflexivity).
  induction exact_matches as [|[c vs] l IH]; [reflexivity|].
  cbn [forallb fst] in Hin. apply andb_prop in Hin as [Hc Hl].
  cbn [fmap list_fmap mjoin list_join first_some alias_tier_step fst snd].
  rewrite Hc, first_some_app, first_some_fmap. cbn [fst snd].
  destruct (first_some _ vs); [reflexivity|]. now apply IH.
Qed.

Lemma first_some_at {A B : Type} (f : A -> option B) (l : list A) (j : nat) (x : A) (b : B) :
  l !! j = Some x ->
  (forall y, y ∈ firstn j l -> f y = None) ->
  f x = Some b ->
  first_some f l = Some b.
Proof.
  intros Hj Hbefore Hx.
  rewrite <- (take_drop_middle l j x Hj), first_some_app.
  rewrite (first_some_none f (firstn j l) Hbefore). simpl. now rewrite Hx.
Qed.

Lemma flat_variant_column (c v : string) :
  (c, v) ∈ flat_variants ->
  exists code idx, assoc c COUNTRY_CODES = Some code
                   /\ mem code STANDARD_COLUMN_ORDER = true
                   /\ index code STANDARD_COLUMN_ORDER = Some idx.
Proof.
  intros H. apply list_elem_of_In in H. vm_compute in H.
  repeat (destruct H as [H | H]; [injection H as <- <-; vm_compute; eauto|]).
  destruct H.
Qed.

Lemma alias_tier_at (member_name c v : string) (j idx : nat) :
  flat_variants !! j = Some (c, v) ->
  (forall c' v', (c', v') ∈ firstn j flat_variants -> alias_test member_name v' = false) ->
  alias_variant c member_name v = Some idx ->
  alias_tier member_name = Some idx.
Proof.
  intros Hj Hbefore Hv. rewrite alias_tier_flat.
  apply (first_some_at _ _ j (c, v)); [assumption | | assumption].
  intros [c' v'] Hin. unfold alias_variant. cbn [fst snd].
  fold (alias_test member_name v'). now rewrite (Hbefore c' v' Hin).
Qed.

(** X7: within the alias tier the first variant, in declaration order, that
    equals the member name whatever the case, or occurs in it, decides:
    the record goes to the column of that variant's country. *)
Theorem alias_first_match (member_name c v : string) (j : nat) :
  flat_variants !! j = Some (c, v) ->
  (forall c' v', (c', v') ∈ firstn j flat_variants -> alias_test member_name v' = false) ->
  alias_test member_name v = true ->
  exists code idx,
    assoc c COUNTRY_CODES = Some code
    /\ STANDARD_COLUMN_ORDER !! idx = Some code
    /\ alias_tier member_name = Some idx.
Proof.
  intros Hj Hbefore Hv.
  destruct (flat_variant_column c v) as (code & idx & Hc & Hm & Hi).
  { eapply list_elem_of_lookup_2, Hj. }
  exists code, idx. split; [assumption|]. split; [now apply index_lookup|].
  apply (alias_tier_at member_name c v j idx Hj Hbefore).
  unfold alias_variant. fold (alias_test member_name v).
  now rewrite Hv, Hc, Hm.
Qed.

Lemma alias_first_match_witness :
  exists code idx,
    assoc "Hong Kong" COUNTRY_CODES = Some code
    /\ STANDARD_COLUMN_ORDER !! idx = Some code
    /\ alias_tier "The HKMA (Exchange Fund)" = Some idx.
Proof.
  apply (alias_first_match "The HKMA (Exchange Fund)" "Hong Kong" "HKMA" 4).
  - reflexivity.
  - intros c' v' H. apply list_elem_of_In in H. vm_compute in H.
    repeat (destruct H as [H | H]; [injection H as <- <-; vm_compute; reflexivity|]).
    destruct H.
  - vm_compute. reflexivity.
Defined.

Lemma startswith_lower (v s : string) :
  startswith v s = true -> startswith (lower v) (lower s) = true.
Proof.
  revert s. induction v as [|a v IH]; intros s; [reflexivity|].
  destruct s as [|b s]; [discriminate|]. simpl. intros H.
  apply andb_prop in H as [H1 H2]. apply Ascii.eqb_eq in H1 as ->.
  rewrite Ascii.eqb_refl. simpl. now apply IH.
Qed.

Lemma contains_lower (v s : string) :
  contains v s = true -> contains (lower v) (lower s) = true.
Proof.
  induction s as [|b s IH]; intros H.
  - change (lower EmptyString) with EmptyString. cbn [contains] in *.
    rewrite orb_false_r in *. now apply (startswith_lower v EmptyString).
  - change (lower (String b s)) with (String (to_lower b) (lower s)).
    cbn [contains] in *. apply orb_prop in H as [H | H].
    + apply startswith_lower in H.
      change (lower (String b s)) with (String (to_lower b) (lower s)) in H. now rewrite H.
    + rewrite (IH H). apply orb_true_r.
Qed.

(** A variant that neither equals the lower-cased name nor occurs in it
    once lower-cased fails the test of the alias tier. *)
Lemma alias_test_lower (member_name v : string) :
  String.eqb (lower v) (lower member_name) || contains (lower v) (lower member_name) = false ->
  alias_test member_name v = false.
Proof.
  intros H. apply orb_false_elim in H as [H1 H2]. unfold alias_test. rewrite H1. simpl.
  destruct (contains v member_name) eqn:E; [|reflexivity].
  apply contains_lower in E. congruence.
Qed.

Lemma alias_before (member_name : string) (j : nat) :
  forallb (fun cv => negb (String.eqb (lower (snd cv)) (lower member_name)
                           || contains (lower (snd cv)) (lower member_name)))
          (firstn j flat_variants) = true ->
  forall c' v', (c', v') ∈ firstn j flat_variants -> alias_test member_name v' = false.
Proof.
  intros H c' v' Hin. rewrite forallb_forall in H.
  apply list_elem_of_In in Hin. specialize (H _ Hin). simpl in H.
  apply alias_test_lower. now apply negb_true_iff.
Qed.

(** X8: a member name that is, whatever the case of its letters, a listed
    variant of the alias tier or one of the simple country names resolves
    to that country's column when the code tier has matched nothing. *)
Theorem resolve_any_case (member_name member_code target country : string) :
  code_tier member_code = None ->
  lower member_name = lower target ->
  (country, target) ∈ flat_variants
  \/ (target ∈ simple_country_names /\ country = target) ->
  exists code idx,
    assoc country COUNTRY_CODES = Some code
    /\ STANDARD_COLUMN_ORDER !! idx = Some code
    /\ resolve member_name member_code = Some idx.
Proof.
  intros Hcode Hlow [Hv | [Hs ->]].
  - apply list_elem_of_lookup_1 in Hv as [j Hj].
    assert (Hjlt : (j < 15)%nat) by (apply lookup_lt_Some in Hj; exact Hj).
    destruct (flat_variant_column country target) as (code & idx & Hc & Hm & Hi).
    { eapply list_elem_of_lookup_2, Hj. }
    exists code, idx. split; [assumption|]. split; [now apply index_lookup|].
    assert (H3 : alias_tier member_name = Some idx).
    { apply (alias_tier_at member_name country target j idx Hj).
      - apply alias_before. rewrite Hlow.
        do 15 (destruct j as [|j]; [injection Hj as <- <-; vm_compute; reflexivity|]). lia.
      - unfold alias_variant. rewrite Hlow, String.eqb_refl. cbn [orb].
        now rewrite Hc, Hm. }
    unfold resolve. now rewrite Hcode, H3.
  - assert (Hall : forallb (fun cv => negb (String.eqb (lower (snd cv)) (lower member_name)
                                            || contains (lower (snd cv)) (lower member_name)))
                           (firstn 15 flat_variants) = true).
    { rewrite Hlow. each_member Hs; vm_compute; reflexivity. }
    assert (Ha : alias_tier member_name = None).
    { rewrite alias_tier_flat. apply first_some_none. intros [c v] Hin.
      unfold alias_variant. cbn [fst snd]. fold (alias_test member_name v).
      now rewrite (alias_before member_name 15 Hall c v Hin). }
    unfold resolve. rewrite Hcode, Ha.
    unfold simple_tier, simple_tier_step. rewrite Hlow.
    each_member Hs; vm_compute; eexists _, _; (refine (conj eq_refl (conj _ eq_refl)); reflexivity).
Qed.

Lemma resolve_any_case_witness :
  exists code idx,
    assoc "Germany" COUNTRY_CODES = Some code
    /\ STANDARD_COLUMN_ORDER !! idx = Some code
    /\ resolve "GERMANY (deutsche bundesbank)" "DEU" = Some idx.
Proof.
  apply (resolve_any_case _ "DEU" "Germany (Deutsche Bundesbank)" "Germany").
  - reflexivity.
  - reflexivity.
  - left. vm_compute. repeat constructor.
Defined.

(* ===================================================================== *)
(** ** Date Extractor: what it returns                                     *)
(* ===================================================================== *)


Lemma digit_char_isdigit (n : N) : isdigit (digit_char n) = true.
Proof.
  unfold digit_char. pose proof (N.mod_lt n 10 ltac:(lia)) as H.
  destruct (n mod 10)%N as [|p]; [reflexivity|].
  destruct p as [[[[p|p|]|[p|p|]|]|[[p|p|]|[p|p|]|]|]|[[[p|p|]|[p|p|]|]|[[p|p|]|[p|p|]|]|]|]; try lia; reflexivity.
Qed.

Lemma all_from_spec (P : N -> bool) (n : nat) :
  forall lo, all_from P n lo = true ->
             forall y, (lo <= y < lo + N.of_nat n)%N -> P y = true.
Proof.
  induction n as [|n IH]; intros lo H y Hy; [lia|].
  cbn [all_from] in H. apply andb_prop in H as [H0 H].
  destruct (N.eq_dec y lo) as [->|Hne]; [assumption|].
  apply (IH (N.succ lo) H). lia.
Qed.

(** From 1000 to 9999 the year is written on four digits. *)
Lemma year_four_digits (y : N) :
  (1000 <= y <= 9999)%N -> is_year_text (decimal_of_N y) = true.
Proof.
  intros Hy.
  assert (Hall : all_from (fun k => is_year_text (decimal_of_N k)) (N.to_nat 9000) 1000 = true)
    by (vm_compute; reflexivity).
  apply (all_from_spec _ _ _ Hall). rewrite N2Nat.id. lia.
Qed.

Lemma two_digits_month (m : N) :
  (1 <= m <= 12)%N ->
  exists m1 m2, two_digits m = String m1 (String m2 EmptyString)
                /\ isdigit m1 = true /\ isdigit m2 = true
                /\ (1 <=? int (String m1 (String m2 EmptyString)))%N = true
                /\ (int (String m1 (String m2 EmptyString)) <=? 12)%N = true.
Proof.
  intros Hm.
  assert (Hc : m ∈ [1; 2; 3; 4; 5; 6; 7; 8; 9; 10; 11; 12]%N).
  { destruct m as [|p]; [lia|]. destruct p as [[[[p|p|]|[p|p|]|]|[[p|p|]|[p|p|]|]|]|[[[p|p|]|[p|p|]|]|[[p|p|]|[p|p|]|]|]|]; try lia; repeat constructor. }
  each_member Hc; eexists _, _; repeat split.
Qed.

(** What [strftime] prints for a date that [datetime] accepts. *)
Lemma strftime_shape (y m : N) :
  (1 <= m <= 12)%N ->
  strftime (y, m) = decimal_of_N y +:+ "-" +:+ two_digits m
  /\ ((1000 <= y <= 9999)%N -> is_year_month (strftime (y, m)) = true).
Proof.
  intros Hm. split; [reflexivity|]. intros Hy.
  rewrite strftime_eq.
  pose proof (year_four_digits y Hy) as HY.
  destruct (year_text_inv _ HY) as (Yd & _ & Ylen).
  destruct (two_digits_month m Hm) as (m1 & m2 & -> & H1 & H2 & H3 & H4).
  destruct (decimal_of_N y) as [|y1 [|y2 [|y3 [|y4 [|y5 Y]]]]]; try discriminate Ylen.
  simpl in Yd. repeat (apply andb_prop in Yd as [? Yd]).
  cbn [String.append is_year_month].
  repeat match goal with H : isdigit _ = true |- _ => rewrite H; clear H end.
  now rewrite H3, H4.
Qed.

Lemma strptime_date (s : string) (y m : N) :
  strptime s = Ret (y, m) -> (1 <= y <= 9999)%N /\ (1 <= m <= 12)%N.
Proof.
  unfold strptime. destruct (match_at _ _) as [[[c [|? ?]] [|B [|d [|Y [|? ?]]]]]|]; try discriminate.
  destruct (index _ _) as [i|]; [|discriminate].
  destruct (valid_date _ _ _) eqn:Hv; [|discriminate]. intros [= <- <-].
  unfold valid_date in Hv. rewrite !andb_true_iff, !N.leb_le in Hv. lia.
Qed.

Lemma format_groups_shape (g : list string) (r : string) :
  format_groups g = Ret r -> year_month_text r.
Proof.
  unfold format_groups. destruct g as [|M [|D [|Y [|? ?]]]]; try discriminate.
  destruct (strptime _) as [[y m]|e] eqn:E; [|discriminate].
  intros [= <-]. destruct (strptime_date _ _ _ E) as [Hy Hm].
  destruct (strftime_shape y m Hm) as [He Hf].
  exists y, m. split; [lia|]. split; [lia|]. split; [exact He|].
  intros Hge. apply Hf. lia.
Qed.

Lemma as_of_loop_shape (content : string) (ps : list regex) (r : string) :
  as_of_loop content ps = Ret (Some r) -> year_month_text r.
Proof.
  induction ps as [|p ps IH]; simpl; [discriminate|].
  destruct (search p content) as [m|]; [|exact IH].
  destruct (search date_pattern _) as [g|]; [|exact IH].
  destruct (format_groups g) as [x|e] eqn:E; [|discriminate].
  intros [= <-]. eapply format_groups_shape, E.
Qed.

(** X10: whatever the file holds, and whether or not it can be read, the
    extractor returns: either the current month handed to it, or the year
    of a calendar date (1 to 9999) written as a number without padding, a
    hyphen and the month from 01 to 12 on two digits; from the year 1000
    on this is a text YYYY-MM. *)
Theorem extract_date_shape (now : string) (file : Exc string) :
  exists r, extract_date_from_tsv_file now file = Ret r
            /\ (r = now
                \/ exists y m, (1 <= y <= 9999)%N /\ (1 <= m <= 12)%N
                               /\ r = decimal_of_N y +:+ "-" +:+ two_digits m
                               /\ ((1000 <= y)%N -> is_year_month r = true)).
Proof.
  unfold extract_date_from_tsv_file. destruct file as [content|e]; [|simpl; eauto].
  cbn [mbind Exc_bind bind]. unfold extract_try.
  destruct (as_of_loop content as_of_patterns) as [[r|]|e] eqn:E; cbn [mbind Exc_bind bind catch].
  - exists r. split; [reflexivity|]. right. eapply as_of_loop_shape, E.
  - destruct (findall date_pattern content) as [|g ?]; [eauto|].
    destruct (format_groups g) as [r|e] eqn:Eg; simpl; [|eauto].
    exists r. split; [reflexivity|]. right. eapply format_groups_shape, Eg.
  - eauto.
Qed.

Import Sequencer.

(* ===================================================================== *)
(** ** The Sequencer: exit status, phases, files                          *)
(* ===================================================================== *)

(** X11: the pipeline's exit status is 0 exactly when the requirements and
    the extraction succeeded, map.py returned 0, and both the summary file
    and the source file exist; in every other case it is 1. *)
Theorem pipeline_exit_status (e : Orchestrator.Env) :
  (Orchestrator.main e = 0
   <-> Orchestrator.requirements e = true
       /\ Orchestrator.extraction e = true
       /\ Orchestrator.map_returncode e = Some 0
       /\ Orchestrator.summary_exists e = true
       /\ Orchestrator.source_exists e = true)
  /\ (Orchestrator.main e = 0 \/ Orchestrator.main e = 1).
Proof.
  destruct e as [rq ex rc se so].
  unfold Orchestrator.main, Orchestrator.run_pipeline,
    Orchestrator.run_data_processing, Orchestrator.generate_summary.
  cbn [Orchestrator.requirements Orchestrator.extraction
       Orchestrator.map_returncode Orchestrator.summary_exists
       Orchestrator.source_exists].
  split.
  - destruct rq, ex, rc as [[|n]|], se, so; cbn; split;
      try discriminate; try (intros (? & ? & ? & ? & ?); discriminate);
      intuition (auto; discriminate).
  - destruct rq, ex, rc as [[|n]|], se, so; cbn; auto.
Qed.

(** X12: the phases run in a fixed order and stop at the first failure:
    map.py is started exactly when requirements and extraction succeeded,
    and the cleanup runs exactly when it is asked for and the processing
    succeeded, whatever the summary reports; the result is that of
    [run_pipeline]. *)
Theorem phases_stop_at_failure (cleanup_old_files : bool) (e : Orchestrator.Env) :
  let '(phases, success) := run_pipeline_trace cleanup_old_files e in
  success = Orchestrator.run_pipeline e
  /\ (exists k, phases
        = firstn k [CheckRequirements; DataExtraction; DataProcessing; Summary; Cleanup])
  /\ (DataProcessing ∈ phases
      <-> Orchestrator.requirements e = true /\ Orchestrator.extraction e = true)
  /\ (Cleanup ∈ phases
      <-> cleanup_old_files = true
          /\ Orchestrator.requirements e = true
          /\ Orchestrator.extraction e = true
          /\ Orchestrator.run_data_processing e = true).
Proof.
  unfold run_pipeline_trace, Orchestrator.run_pipeline.
  destruct (Orchestrator.requirements e), (Orchestrator.extraction e),
    (Orchestrator.run_data_processing e), cleanup_old_files; cbn;
    (split; [reflexivity|]);
    (split; [first [ now exists 1 | now exists 2 | now exists 3
                   | now exists 4 | now exists 5 ]|]);
    rewrite ?elem_of_cons, ?elem_of_nil; intuition (try discriminate; auto).
Qed.

Lemma path_join_prefix (a b : string) : path_join a b = path_prefix a +:+ b.
Proof.
  unfold path_join, path_prefix.
  destruct (is_empty a); [reflexivity|].
  destruct (endswith "/" a); [reflexivity|].
  now rewrite append_assoc.
Qed.

Lemma endswith_slash_output (a : string) : endswith "/" (a +:+ "output") = false.
Proof.
  induction a as [|c a IH]; [reflexivity|].
  change (String c a +:+ "output") with (String c (a +:+ "output")).
  cbn [endswith]. rewrite IH, orb_false_r.
  destruct (a +:+ "output") eqn:E.
  - destruct a; discriminate.
  - cbn. now destruct (match c with Ascii _ _ _ _ _ _ _ _ => _ end).
Qed.

Lemma is_empty_app_output (a : string) : is_empty (a +:+ "output") = false.
Proof. now destruct a. Qed.

Lemma map_output_file_prefix (script_dir : string) :
  map_output_file script_dir
  = path_prefix script_dir +:+ "output/NABIMFD_OUTPUT.xlsx".
Proof.
  unfold map_output_file, map_output_dir.
  rewrite (path_join_prefix script_dir).
  unfold path_join.
  rewrite is_empty_app_output, endswith_slash_output.
  now rewrite !append_assoc.
Qed.

Lemma append_cancel_l (p a b : string) : p +:+ a = p +:+ b -> a = b.
Proof.
  induction p as [|c p IH]; [easy|].
  intros H. injection H as H. now apply IH.
Qed.

Lemma summary_not_written (script_dir : string) :
  orchestrator_output_file script_dir ∉ map_write_set script_dir.
Proof.
  unfold map_write_set, orchestrator_output_file.
  rewrite map_output_file_prefix. unfold map_output_dir.
  rewrite !path_join_prefix.
  intros H. rewrite !elem_of_cons, elem_of_nil in H.
  destruct H as [H | [H | []]]; apply append_cancel_l in H; discriminate.
Qed.

(** X13: map.py writes output/NABIMFD_OUTPUT.xlsx, the sequencer looks for
    nabimfd_summary.xlsx: when that file does not exist before map.py runs
    and map.py creates nothing but its own output, the processing phase
    fails and the pipeline's exit status is 1, whatever map.py returns. *)
Theorem processing_needs_existing_summary
  (script_dir : string) (before after : string -> bool) (e : Orchestrator.Env) :
  (forall p, after p = true -> before p = true \/ p ∈ map_write_set script_dir) ->
  Orchestrator.summary_exists e = after (orchestrator_output_file script_dir) ->
  before (orchestrator_output_file script_dir) = false ->
  Orchestrator.run_data_processing e = false /\ Orchestrator.main e = 1.
Proof.
  intros Hframe Hobs Hbefore.
  assert (Hs : Orchestrator.summary_exists e = false).
  { rewrite Hobs.
    destruct (after (orchestrator_output_file script_dir)) eqn:E; [|reflexivity].
    destruct (Hframe _ E) as [H | H].
    - congruence.
    - now apply summary_not_written in H. }
  assert (Hp : Orchestrator.run_data_processing e = false).
  { unfold Orchestrator.run_data_processing. rewrite Hs.
    now destruct (Orchestrator.map_returncode e) as [[|n]|]. }
  split; [exact Hp|].
  unfold Orchestrator.main, Orchestrator.run_pipeline. rewrite Hp.
  now destruct (Orchestrator.requirements e), (Orchestrator.extraction e).
Qed.

Lemma processing_needs_existing_summary_witness :
  let e := Orchestrator.mkEnv true true (Some 0) false true in
  Orchestrator.run_data_processing e = false /\ Orchestrator.main e = 1.
Proof.
  apply (processing_needs_existing_summary "/srv/nabimfd"
           (fun _ => false)
           (fun p => bool_decide (p ∈ map_write_set "/srv/nabimfd"))).
  - intros p H. right. now apply bool_decide_eq_true in H.
  - reflexivity.
  - reflexivity.
Defined.

(** X14: the cleanup removes nothing but pipeline logs (names that start
    with nabimfd_pipeline_ and end with .log) of the listing whose
    modification time is read and is older than the cutoff. It runs to
    its end exactly when, for every pipeline log of the listing, the
    modification time can be read and, if it is older than the cutoff,
    the removal returns; it has then removed all the old pipeline logs, in
    the order of the listing. *)
Theorem cleanup_removes_old_logs {time : Type}
  (older : time -> bool) (remove_ok : string -> bool)
  (listing : list (string * option time)) :
  let '(removed, completed) := cleanup_loop older remove_ok listing in
  (forall filename, filename ∈ removed ->
     startswith "nabimfd_pipeline_" filename = true
     /\ endswith ".log" filename = true
     /\ remove_ok filename = true
     /\ exists mtime, (filename, Some mtime) ∈ listing /\ older mtime = true)
  /\ (completed = true ->
      removed = (filter (fun entry => is_pipeline_log entry.1
                                      && from_option older false entry.2)
                   listing).*1)
  /\ (completed = true <->
      forall filename getmtime, (filename, getmtime) ∈ listing ->
        is_pipeline_log filename = true ->
        exists mtime, getmtime = Some mtime
                      /\ (older mtime = true -> remove_ok filename = true)).
Proof.
  induction listing as [|[filename getmtime] listing IH].
  - cbn. split; [|split]; try reflexivity.
    + intros f H. now apply elem_of_nil in H.
    + split; [|reflexivity]. intros _ f g H. now apply elem_of_nil in H.
  - cbn [cleanup_loop]. rewrite filter_cons. cbn [fst snd].
    destruct (cleanup_loop older remove_ok listing) as [removed completed].
    destruct IH as (IH1 & IH2 & IH3).
    assert (Hrest : forall P : Prop,
               (completed = true <-> P) ->
               (forall filename0 getmtime0, (filename0, getmtime0) ∈ listing ->
                  is_pipeline_log filename0 = true ->
                  exists mtime, getmtime0 = Some mtime
                                /\ (older mtime = true -> remove_ok filename0 = true))
               <-> completed = true)
      by (intros P HP; symmetry; exact IH3).
    destruct (is_pipeline_log filename) eqn:El; cbn [andb].
    + destruct getmtime as [mtime|]; cbn [from_option].
      * destruct (older mtime) eqn:Eo.
        -- rewrite decide_True by exact I.
           destruct (remove_ok filename) eqn:R.
           ++ split; [|split].
              ** intros f H. apply elem_of_cons in H as [-> | H].
                 --- apply andb_true_iff in El as [E1 E3].
                     repeat split; try assumption.
                     exists mtime. split; [apply elem_of_cons; now left | assumption].
                 --- destruct (IH1 f H) as (? & ? & ? & t & ? & ?).
                     repeat split; try assumption.
                     exists t. split; [apply elem_of_cons; now right | assumption].
              ** intros Hc. cbn. now rewrite (IH2 Hc).
              ** rewrite IH3. split.
                 --- intros Hall f g Hin Hlog. apply elem_of_cons in Hin as [[= -> ->] | Hin].
                     +++ exists mtime. auto.
                     +++ now apply (Hall f g).
                 --- intros Hall f g Hin. apply Hall. apply elem_of_cons; now right.
           ++ split; [|split].
              ** intros f H. now apply elem_of_nil in H.
              ** discriminate.
              ** split; [discriminate|]. intros Hall.
                 destruct (Hall filename (Some mtime)) as (t & [= <-] & Hok);
                   [apply elem_of_cons; now left | assumption |].
                 specialize (Hok Eo). congruence.
        -- rewrite decide_False by (cbn; tauto).
           split; [|split].
           ++ intros f H. destruct (IH1 f H) as (? & ? & ? & t & ? & ?).
              repeat split; try assumption.
              exists t. split; [apply elem_of_cons; now right | assumption].
           ++ exact IH2.
           ++ rewrite IH3. split.
              ** intros Hall f g Hin Hlog. apply elem_of_cons in Hin as [[= -> ->] | Hin].
                 --- exists mtime. split; [reflexivity|]. congruence.
                 --- now apply (Hall f g).
              ** intros Hall f g Hin. apply Hall. apply elem_of_cons; now right.
      * rewrite decide_False by (cbn; tauto).
        split; [|split].
        -- intros f H. now apply elem_of_nil in H.
        -- discriminate.
        -- split; [discriminate|]. intros Hall.
           destruct (Hall filename None) as (t & Ht & _);
             [apply elem_of_cons; now left | assumption | discriminate].
    + rewrite decide_False by (cbn; tauto).
      split; [|split].
      * intros f H. destruct (IH1 f H) as (? & ? & ? & t & ? & ?).
        repeat split; try assumption.
        exists t. split; [apply elem_of_cons; now right | assumption].
      * exact IH2.
      * rewrite IH3. split.
        -- intros Hall f g Hin Hlog. apply elem_of_cons in Hin as [[= -> ->] | Hin].
           ++ congruence.
           ++ now apply (Hall f g).
        -- intros Hall f g Hin. apply Hall. apply elem_of_cons; now right.
Qed.

Lemma max_by_ctime_spec (items : list (string * N)) (current : string * N) :
  let latest := max_by_ctime current items in
  latest ∈ current :: items
  /\ forall item, item ∈ current :: items -> (item.2 <= latest.2)%N.
Proof.
  revert current. induction items as [|x items IH]; intros current.
  - cbn. split; [apply elem_of_cons; now left|].
    intros item H. apply elem_of_cons in H as [-> | H]; [lia|].
    now apply elem_of_nil in H.
  - cbn [max_by_ctime].
    destruct (IH (if (current.2 <? x.2)%N then x else current)) as [Hin Hmax].
    split.
    + apply elem_of_cons in Hin as [Hin | Hin].
      * rewrite Hin. destruct (current.2 <? x.2)%N.
        -- apply elem_of_cons; right. apply elem_of_cons; now left.
        -- apply elem_of_cons; now left.
      * apply elem_of_cons; right. apply elem_of_cons; now right.
    + intros item H.
      assert (Hc : ((if (current.2 <? x.2)%N then x else current).2
                    <= (max_by_ctime (if (current.2 <? x.2)%N then x else current)
                          items).2)%N)
        by (apply Hmax, elem_of_cons; now left).
      apply elem_of_cons in H as [-> | H]; [|apply elem_of_cons in H as [-> | H]].
      * destruct (N.ltb_spec current.2 x.2); [|exact Hc]. lia.
      * destruct (N.ltb_spec current.2 x.2); [exact Hc|]. lia.
      * apply Hmax, elem_of_cons; now right.
Qed.

(** X15: when the extraction succeeds by renaming a download, main.py
    returned 0, the expected file was missing, and the renamed file is a
    spreadsheet (.xls or .xlsx) of the downloads directory that no other
    spreadsheet there is more recent than. *)
Theorem extraction_renames_latest (x : Extraction) (f : string) :
  run_data_extraction x = (true, Some f) ->
  main_returncode x = Some 0
  /\ source_found x = false
  /\ is_spreadsheet f = true
  /\ f <> "BORROWINGS.xls"
  /\ exists ctime,
       (f, ctime) ∈ downloads_listing x
       /\ forall g u, (g, u) ∈ downloads_listing x -> is_spreadsheet g = true ->
                      (u <= ctime)%N.
Proof.
  unfold run_data_extraction.
  destruct (main_returncode x) as [[|n]|]; try discriminate.
  destruct (source_found x); try discriminate.
  destruct (downloads_found x); try discriminate.
  destruct (List.filter _ _) as [|first others] eqn:E; try discriminate.
  destruct (max_by_ctime_spec others first) as [Hin Hmax].
  destruct (max_by_ctime first others) as [name ctime] eqn:L.
  cbn [fst snd] in *.
  destruct (String.eqb name "BORROWINGS.xls") eqn:Hname; try discriminate.
  destruct (rename_ok x); try discriminate.
  cbn [negb]. intros [= <-].
  rewrite <- E in Hin, Hmax.
  apply list_elem_of_In, filter_In in Hin as [Hin Hs].
  repeat split; try assumption.
  - intros ->. discriminate.
  - exists ctime. split; [now apply list_elem_of_In|].
    intros g u Hg Hsg.
    apply (Hmax (g, u)), list_elem_of_In, filter_In.
    split; [now apply list_elem_of_In | exact Hsg].
Qed.

Lemma extraction_renames_latest_witness :
  let x := mkExtraction (Some 0) false true
             [("notes.txt", 9%N); ("a.xls", 3%N); ("b.xlsx", 7%N); ("c.xls", 7%N)]
             true in
  main_returncode x = Some 0
  /\ source_found x = false
  /\ is_spreadsheet "b.xlsx" = true
  /\ "b.xlsx" <> "BORROWINGS.xls"
  /\ exists ctime,
       ("b.xlsx", ctime) ∈ downloads_listing x
       /\ forall g u, (g, u) ∈ downloads_listing x -> is_spreadsheet g = true ->
                      (u <= ctime)%N.
Proof.
  intros x. apply (extraction_renames_latest x "b.xlsx"). reflexivity.
Defined.

(* ===================================================================== *)
(** ** The printed summary                                                *)
(* ===================================================================== *)

Lemma filter_fmap_length {A B : Type} (f : A -> B) (P : B -> Prop)
  `{forall x, Decision (P x)} (l : list A) :
  List.length (filter P (f <$> l)) = List.length (filter (fun x => P (f x)) l).
Proof.
  induction l as [|a l IH]; [reflexivity|].
  change (f <$> a :: l) with (f a :: (f <$> l)).
  rewrite !filter_cons. destruct (decide (P (f a))); cbn; congruence.
Qed.

Lemma tail_as_seq (d : list cell) :
  tail d = (fun i => default CNone (d !! i)) <$> seq 1 (List.length d - 1).
Proof.
  apply list_eq. intros i. rewrite lookup_tail, list_lookup_fmap.
  destruct (decide (S i < List.length d)%nat) as [Hlt | Hge].
  - rewrite lookup_seq_lt by lia. cbn.
    destruct (lookup_lt_is_Some_2 d (S i) Hlt) as [x Hx]. now rewrite Hx.
  - rewrite lookup_seq_ge by lia. apply lookup_ge_None. lia.
Qed.

(** X16: in a run whose frame passes the filter stage, the number of
    "countries with data" in the printed summary is the number of distinct
    columns that the rows of [filtered_df] resolve to: two rows of one
    country count once, an unmapped row not at all. *)
Theorem countries_with_data_distinct (w : World) (df : Frame) (filtered_df : list Row) :
  read_csv w = Ret df ->
  filter_stage df = Ret filtered_df ->
  exists data_row,
    build w = Ret [header_row_1; header_row_2; data_row]
    /\ countries_with_data data_row
       = List.length (remove_dups (columns_written filtered_df)).
Proof.
  intros Hr Hf. destruct (build_rows w df filtered_df Hr Hf) as (d & _ & Hb).
  eexists. split; [exact Hb|].
  set (rs := filtered_df).
  set (row := foldl _ _ _).
  assert (Hlen : List.length row = 41%nat)
    by (unfold row; now rewrite foldl_store_length).
  unfold countries_with_data, non_empty_values.
  rewrite tail_as_seq, Hlen, filter_fmap_length.
  apply Permutation_length, NoDup_Permutation.
  - apply NoDup_filter, NoDup_seq.
  - apply NoDup_remove_dups.
  - intros i. rewrite list_elem_of_filter, elem_of_remove_dups, elem_of_seq.
    unfold columns_written. rewrite list_elem_of_omap.
    split.
    + intros [Hq Hi].
      destruct (foldl_store_cell rs (initial_data_row d) i) as [[H1 _] | (r & a & Hin & Hc & _)].
      * rewrite initial_data_row_length. lia.
      * fold row in H1. rewrite H1 in Hq.
        destruct i as [|i]; [lia|].
        assert (H0 : initial_data_row d !! S i = Some CNone).
        { unfold initial_data_row.
          change (replicate 40 CNone !! i = Some CNone).
          apply lookup_replicate_2. lia. }
        rewrite H0 in Hq. destruct Hq.
      * exists r. split; [assumption|]. now rewrite Hc.
    + intros (r & Hin & Hc).
      destruct (contribution r) as [[j a]|] eqn:E; [|discriminate].
      injection Hc as ->.
      pose proof (contribution_range _ _ _ E) as Hi.
      split; [|lia].
      destruct (foldl_store_cell rs (initial_data_row d) i) as [[_ H2] | (r' & a' & _ & _ & Hd)].
      * rewrite initial_data_row_length. lia.
      * exfalso. apply (H2 r Hin). now rewrite E.
      * fold row in Hd. now rewrite Hd.
Qed.

Lemma countries_with_data_distinct_witness :
  let text := example_text +:+ tsv_line (france_fields "Lender" "x" "y" "z" "0") +:+ nl in
  let w := mkWorld true (Ret text) (Ret text) (Raise "ParserError") "2026-11" (Ret ()) in
  exists data_row,
    build w = Ret [header_row_1; header_row_2; data_row]
    /\ countries_with_data data_row = 1%nat.
Proof.
  intros text w.
  destruct (countries_with_data_distinct w _ _ eq_refl eq_refl) as (data_row & Hb & Hc).
  exists data_row. split; [exact Hb|]. rewrite Hc. vm_compute. reflexivity.
Defined.
